(** * OpenSeadragon tile cache: CacheRecord and TileCache (src/tilecache.js)

    A shallow embedding of the two classes of [src/tilecache.js] and the
    properties of the tile-cache specification checked against it.

    JavaScript objects live in a store: cache records and promises are
    referenced by their index in a heap, so that an object reached through
    two references is one object.  Methods are computations in a state and
    exception monad; a JavaScript [TypeError] is an explicit outcome that
    keeps the writes made before it.  Promise reactions ([then] callbacks)
    and [setTimeout] callbacks are closures of the source turned into data;
    [tick] runs one of them.

    What the model takes from outside the file:
    - the conversion registry [$.convertor] is a parameter of the store; an
      edge's [transform] is the function from its argument to the value its
      eventual resolves with (no rejection);
    - [Tile] and [TiledImage] objects are records of the attributes the cache
      reads, as they are at the time of the call, compared by identity;
      [tile.unload()], [raiseEvent] and writes to [_needsDraw] are events of
      the trace;
    - [$.console.assert], [error] and [warn] append to the trace and go on;
    - numbers are integers, and cache keys are strings that are neither array
      indices nor names of array members, so that the two arrays used as maps
      behave as plain objects.
    [getDataAs] reads a record through the registry's [copy] and [convert],
    which the registry above does not have, and is left out. *)

From Stdlib Require Import ZArith Bool Lia.
From stdpp Require Import base list strings.

Local Open Scope string_scope.
Local Open Scope Z_scope.
Local Open Scope list_scope.

(** ** JavaScript values *)

(** The values the cache handles: payloads, format tags, option fields.
    Objects are opaque and compared by identity. *)
Inductive jsval :=
| VUndefined
| VNull
| VBool (b : bool)
| VNum (n : Z)
| VStr (s : string)
| VObj (id : nat).

(** [!v] is false exactly for the truthy values. *)
Definition truthy (v : jsval) : bool :=
  match v with
  | VUndefined | VNull => false
  | VBool b => b
  | VNum n => negb (Z.eqb n 0)
  | VStr s => negb (String.eqb s "")
  | VObj _ => true
  end.

(** [a === b] *)
Definition strict_eq (a b : jsval) : bool :=
  match a, b with
  | VUndefined, VUndefined | VNull, VNull => true
  | VBool x, VBool y => Bool.eqb x y
  | VNum x, VNum y => Z.eqb x y
  | VStr x, VStr y => String.eqb x y
  | VObj x, VObj y => Nat.eqb x y
  | _, _ => false
  end.

(** ** Tiles (external collaborator)

    The [Tile] and [TiledImage] classes are not part of the cache; the cache
    only reads the attributes below and compares tiles by identity. *)
Module TiledImage.
Record t := mk { id : nat; _zombieCache : bool }.
End TiledImage.

Module Tile.
Record t := mk {
  id : nat;                       (* object identity *)
  cacheKey : string;
  level : Z;
  beingDrawn : bool;
  lastTouchTime : Z;
  tiledImage : TiledImage.t;
  loaded : bool;
  _caches : list string;          (* the keys of tile._caches, in for-in order *)
  getCacheSize : nat
}.

(** [a === b] on tile objects *)
Definition same (a b : t) : bool := Nat.eqb (id a) (id b).
End Tile.

(** ** The conversion registry (external collaborator, [$.convertor]) *)

(** An edge of the conversion graph; [transform] gives the value the
    eventual returned by [edge.transform(x)] resolves with. *)
Record Edge := mkEdge {
  origin_value : jsval;   (* edge.origin.value *)
  target_value : jsval;
  transform : jsval -> jsval
}.

Record Convertor := mkConvertor {
  (* [None] is the [undefined] the registry answers when there is no route *)
  getConversionPath : jsval -> jsval -> option (list Edge);
  guessType : jsval -> jsval
}.

(** ** Events observable outside the cache *)
Inductive level := LError | LWarn | LAssert.

Inductive event :=
| Log (l : level) (msg : string)                       (* $.console.* *)
| RegGetConversionPath (from to : jsval)               (* convertor.getConversionPath *)
| RegTransform (origin target x : jsval)               (* edge.transform(x) *)
| RegDestroy (data type : jsval)                       (* convertor.destroy *)
| RegGuessType (data : jsval)                          (* convertor.guessType *)
| NeedsDraw (tiledImage : nat)                         (* tiledImage._needsDraw = true *)
| TileUnload (tile : nat)                              (* tile.unload() *)
| TileUnloaded (tile tiledImage : nat) (destroyed : bool). (* raiseEvent("tile-unloaded") *)

(** A call on the registry that converts: [getConversionPath] or [transform]. *)
Definition is_conversion_call (e : event) : bool :=
  match e with
  | RegGetConversionPath _ _ | RegTransform _ _ _ => true
  | _ => false
  end.

(** ** Exceptions and the monad *)
Inductive exn :=
| TypeError (msg : string)    (* property access on null or undefined *)
| Dangling.                   (* a reference outside the store: no JavaScript counterpart *)

Inductive outcome (A : Type) :=
| Ret (a : A)
| Throw (e : exn).
Arguments Ret {A} a.
Arguments Throw {A} e.

Definition M (S A : Type) : Type := S -> outcome A * S.

Definition ret {S A} (a : A) : M S A := fun s => (Ret a, s).
Definition throw {S A} (e : exn) : M S A := fun s => (Throw e, s).
Definition bind {S A B} (m : M S A) (k : A -> M S B) : M S B :=
  fun s => match m s with
           | (Ret a, s') => k a s'
           | (Throw e, s') => (Throw e, s')
           end.
Definition get {S} : M S S := fun s => (Ret s, s).
Definition put {S} (s : S) : M S unit := fun _ => (Ret tt, s).
Definition modify {S} (f : S -> S) : M S unit := fun s => (Ret tt, f s).

Declare Scope js_scope.
Delimit Scope js_scope with js.
Notation "x <- c1 ;; c2" := (bind c1 (fun x => c2))
  (at level 100, c1 at next level, right associativity) : js_scope.
Notation "c1 ;; c2" := (bind c1 (fun _ => c2))
  (at level 100, right associativity) : js_scope.
Local Open Scope js_scope.

(** [when b m] is [if (b) { m }]. *)
Definition when {S} (b : bool) (m : M S unit) : M S unit :=
  if b then m else ret tt.

(** Both components of a run. *)
Definition result {S A} (m : M S A) (s : S) : outcome A := fst (m s).
Definition after {S A} (m : M S A) (s : S) : S := snd (m s).

(** ** The object store *)

(** A promise is pending or settled. *)
Inductive pstate :=
| Pending
| Fulfilled (v : jsval)
| Rejected (e : exn).

(** The closures pushed on [_conversionJobQueue]; [resolver] is the promise
    the closure's [resolver] function settles. *)
Inductive job :=
| JobOverwrite (data type : jsval) (resolver : nat)   (* setDataAs *)
| JobTransform (type : jsval) (resolver : nat).       (* transformTo *)

Record CacheRecord := mkCacheRecord {
  _tiles : option (list Tile.t);              (* [None]: null or undefined *)
  _data : jsval;
  _type : jsval;
  loaded : bool;
  _promise : option nat;                       (* [None]: null or undefined *)
  _destroyed : bool;
  _conversionJobQueue : option (list job)     (* [None]: deleted *)
}.

Definition set_tiles v (r : CacheRecord) :=
  mkCacheRecord v (_data r) (_type r) (loaded r) (_promise r) (_destroyed r) (_conversionJobQueue r).
Definition set_data v (r : CacheRecord) :=
  mkCacheRecord (_tiles r) v (_type r) (loaded r) (_promise r) (_destroyed r) (_conversionJobQueue r).
Definition set_type v (r : CacheRecord) :=
  mkCacheRecord (_tiles r) (_data r) v (loaded r) (_promise r) (_destroyed r) (_conversionJobQueue r).
Definition set_loaded v (r : CacheRecord) :=
  mkCacheRecord (_tiles r) (_data r) (_type r) v (_promise r) (_destroyed r) (_conversionJobQueue r).
Definition set_promise v (r : CacheRecord) :=
  mkCacheRecord (_tiles r) (_data r) (_type r) (loaded r) v (_destroyed r) (_conversionJobQueue r).
Definition set_destroyed v (r : CacheRecord) :=
  mkCacheRecord (_tiles r) (_data r) (_type r) (loaded r) (_promise r) v (_conversionJobQueue r).
Definition set_queue v (r : CacheRecord) :=
  mkCacheRecord (_tiles r) (_data r) (_type r) (loaded r) (_promise r) (_destroyed r) v.

(** The function passed to [then], with the variables it closes over. *)
Inductive callback :=
| CbConvert (this : nat) (conversionPath : list Edge)
            (from originalData x : jsval) (i : nat)     (* y => ... in _convert *)
| CbDestroy (this : nat) (oldType : jsval)              (* x => ... in destroy *)
| CbOverwrite (this : nat) (data type : jsval)          (* x => ... in _overwriteData *)
| CbJobConverted (resolver : nat)                       (* data => resolver(data) *)
| CbJobSameType (this : nat) (resolver : nat)           (* data => { _checkAwaitsConvert(); ... } *)
| CbAdopt.                                              (* a promise resolved with a promise *)

(** [derived = awaited.then(cb)] *)
Record reaction := mkReaction {
  awaited : nat;
  cb : callback;
  derived : nat
}.

Record World := mkWorld {
  records : list CacheRecord;    (* heap of CacheRecord objects *)
  promises : list pstate;        (* heap of promises *)
  reactions : list reaction;     (* registered, not yet run, oldest first *)
  timers : list nat;             (* pending setTimeout callbacks of _checkAwaitsConvert *)
  convertor : Convertor;         (* $.convertor *)
  trace : list event             (* oldest first *)
}.

Definition set_records v (w : World) :=
  mkWorld v (promises w) (reactions w) (timers w) (convertor w) (trace w).
Definition set_promises v (w : World) :=
  mkWorld (records w) v (reactions w) (timers w) (convertor w) (trace w).
Definition set_reactions v (w : World) :=
  mkWorld (records w) (promises w) v (timers w) (convertor w) (trace w).
Definition set_timers v (w : World) :=
  mkWorld (records w) (promises w) (reactions w) v (convertor w) (trace w).
Definition set_trace v (w : World) :=
  mkWorld (records w) (promises w) (reactions w) (timers w) (convertor w) v.

(** The world with the events [d] appended to its trace. *)
Definition logged (d : list event) (w : World) : World := set_trace (trace w ++ d) w.

Definition emit (e : event) : M World unit := modify (logged [e]).

(** [$.console.assert(cond, msg)] logs when [cond] is falsy and goes on. *)
Definition console_assert (cond : bool) (msg : string) : M World unit :=
  when (negb cond) (emit (Log LAssert msg)).
Definition console_error (msg : string) : M World unit := emit (Log LError msg).
Definition console_warn (msg : string) : M World unit := emit (Log LWarn msg).

(** Field access on the record [this]. *)
Definition this_ (this : nat) : M World CacheRecord :=
  fun w => match records w !! this with
           | Some r => (Ret r, w)
           | None => (Throw Dangling, w)
           end.
Definition update (this : nat) (f : CacheRecord -> CacheRecord) : M World unit :=
  r <- this_ this;;
  modify (fun w => set_records (<[this := f r]> (records w)) w).

(** [new $.Promise(...)] left pending, and [$.Promise.resolve(v)] *)
Definition new_promise (st : pstate) : M World nat :=
  fun w => (Ret (length (promises w)), set_promises (promises w ++ [st]) w).
Definition promise_resolve (v : jsval) : M World nat := new_promise (Fulfilled v).

(** [p.then(cb)] *)
Definition then_ (p : nat) (c : callback) : M World nat :=
  d <- new_promise Pending;;
  modify (fun w => set_reactions (reactions w ++ [mkReaction p c d]) w);;
  ret d.

(** What a callback or a [resolver] call hands to a promise: a value, or
    another promise to follow. *)
Inductive resolution :=
| Value (v : jsval)
| Follow (p : nat).

(** Settle [p]; a promise that is already settled stays as it is. *)
Definition settle (p : nat) (st : pstate) : M World unit :=
  modify (fun w => match promises w !! p with
                   | Some Pending => set_promises (<[p := st]> (promises w)) w
                   | _ => w
                   end).

Definition resolve (p : nat) (r : resolution) : M World unit :=
  match r with
  | Value v => settle p (Fulfilled v)
  | Follow q =>
      w <- get;;
      match promises w !! q with
      | Some (Fulfilled v) => settle p (Fulfilled v)
      | Some (Rejected e) => settle p (Rejected e)
      | _ => modify (fun w => set_reactions (reactions w ++ [mkReaction q CbAdopt p]) w)
      end
  end.

(** ** CacheRecord *)

(** [array.findIndex]: the first position whose element satisfies [f]. *)
Fixpoint find_index {A} (f : A -> bool) (l : list A) : option nat :=
  match l with
  | [] => None
  | a :: l' => if f a then Some 0%nat else option_map S (find_index f l')
  end.

(** The object before the constructor body runs: every field undefined. *)
Definition blank : CacheRecord :=
  mkCacheRecord None VUndefined VUndefined false None false None.

Definition revive (this : nat) : M World unit :=
  r <- this_ this;;
  console_assert (negb (loaded r) && negb (truthy (_type r)))
    "[CacheRecord::revive] must not be called when loaded!";;
  update this (fun r =>
    mkCacheRecord (Some []) VNull VNull false None false (_conversionJobQueue r)).

(** [new $.CacheRecord()] *)
Definition new_CacheRecord : M World nat :=
  w <- get;;
  let this := length (records w) in
  modify (fun w => set_records (records w ++ [blank]) w);;
  revive this;;
  ret this.

Definition await (this : nat) : M World nat :=
  r <- this_ this;;
  match _promise r with
  | None => promise_resolve VUndefined
  | Some p => ret p
  end.

Definition _checkAwaitsConvert (this : nat) : M World unit :=
  r <- this_ this;;
  match _conversionJobQueue r with
  | None => ret tt
  | Some _ =>
      if _destroyed r then ret tt
      else modify (fun w => set_timers (timers w ++ [this]) w)
  end.

(** [for (let tile of this._tiles) tile.tiledImage._needsDraw = true] *)
Definition _triggerNeedsDraw (this : nat) : M World unit :=
  r <- this_ this;;
  match _tiles r with
  | None => throw (TypeError "this._tiles is not iterable")
  | Some ts =>
      modify (logged (map (fun t => NeedsDraw (TiledImage.id (Tile.tiledImage t))) ts))
  end.

Definition _overwriteData (this : nat) (data type : jsval) : M World nat :=
  r <- this_ this;;
  if _destroyed r then
    emit (RegDestroy data type);;
    promise_resolve VUndefined
  else if loaded r then
    emit (RegDestroy (_data r) (_type r));;
    p <- promise_resolve data;;
    update this (fun r => set_promise (Some p) (set_data data (set_type type r)));;
    _triggerNeedsDraw this;;
    ret p
  else
    match _promise r with
    | None => throw (TypeError "Cannot read properties of null (reading 'then')")
    | Some p => then_ p (CbOverwrite this data type)
    end.

Definition setDataAs (this : nat) (data type : jsval) : M World nat :=
  console_assert (negb (strict_eq data VUndefined))
    "[CacheRecord.setDataAs] needs valid data to set!";;
  r <- this_ this;;
  match _conversionJobQueue r with
  | Some q =>
      promise <- new_promise Pending;;
      update this (set_queue (Some (q ++ [JobOverwrite data type promise])));;
      ret promise
  | None => _overwriteData this data type
  end.

(** The inner function [convert(x, i)] of [_convert]; [conversionPath],
    [from] and [originalData] are the variables it closes over. *)
Definition convert (this : nat) (conversionPath : list Edge)
    (from originalData x : jsval) (i : nat) : M World nat :=
  match conversionPath !! i with
  | None =>                                   (* i >= stepCount *)
      update this (fun r => set_loaded true (set_data x r));;
      _checkAwaitsConvert this;;
      promise_resolve x
  | Some edge =>
      emit (RegTransform (origin_value edge) (target_value edge) x);;
      p <- promise_resolve (transform edge x);;
      then_ p (CbConvert this conversionPath from originalData x i)
  end.

Definition _convert (this : nat) (from to : jsval) : M World unit :=
  w <- get;;
  emit (RegGetConversionPath from to);;
  match getConversionPath (convertor w) from to with
  | None =>
      console_error "[OpenSeadragon.convertor.convert] Conversion conversion cannot be done!"
  | Some conversionPath =>
      r <- this_ this;;
      let originalData := _data r in
      update this (fun r => set_type to (set_data VUndefined (set_loaded false r)));;
      p <- convert this conversionPath from originalData originalData 0;;
      update this (set_promise (Some p))
  end.

(** [transformTo(type = this._type)]; the result is [None] when the method
    returns a null [this._promise]. *)
Definition transformTo (this : nat) (type : jsval) : M World (option nat) :=
  r <- this_ this;;
  let type := if strict_eq type VUndefined then _type r else type in
  if negb (loaded r) || negb (strict_eq type (_type r)) then
    if negb (loaded r) then
      promise <- new_promise Pending;;
      update this (fun r =>
        set_queue (Some (default [] (_conversionJobQueue r) ++ [JobTransform type promise])) r);;
      ret (Some promise)
    else
      _convert this (_type r) type;;
      r <- this_ this;;
      ret (_promise r)
  else ret (_promise r).

(** [get data()] and [get type()] *)
Definition data (this : nat) : M World jsval :=
  r <- this_ this;; ret (_data r).
Definition type (this : nat) : M World jsval :=
  r <- this_ this;; ret (_type r).

(** The two deprecated accessors start a conversion and read [this.data] in
    the same turn. *)
Definition getImage (this : nat) : M World jsval :=
  console_error "[CacheRecord.getImage] options.image is deprecated.";;
  _ <- transformTo this (VStr "image");;
  data this.

Definition getRenderedContext (this : nat) : M World jsval :=
  console_error
    "[CacheRecord.getRenderedContext] options.getRenderedContext  is deprecated.";;
  _ <- transformTo this (VStr "context2d");;
  data this.

Definition destroy (this : nat) : M World unit :=
  update this (fun r => set_destroyed true (set_queue None r));;
  r <- this_ this;;
  (if loaded r then
     emit (RegDestroy (_data r) (_type r));;
     update this (fun r => set_promise None (set_type VNull (set_data VNull (set_tiles None r))))
   else
     let oldType := _type r in
     match _promise r with
     | None => throw (TypeError "Cannot read properties of null (reading 'then')")
     | Some p => _ <- then_ p (CbDestroy this oldType);; ret tt
     end);;
  update this (set_loaded false).

Definition removeTile (this : nat) (tile : Tile.t) : M World bool :=
  r <- this_ this;;
  if _destroyed r then ret false
  else
    match _tiles r with
    | None => throw (TypeError "Cannot read properties of null (reading 'length')")
    | Some ts =>
        match find_index (Tile.same tile) ts with
        | Some i =>
            update this (set_tiles (Some (delete i ts)));;
            ret true
        | None =>
            console_warn "[CacheRecord.removeTile] trying to remove unknown tile";;
            ret false
        end
    end.

(** [this._tiles.push(tile)] *)
Definition push_tile (this : nat) (tile : Tile.t) : M World unit :=
  r <- this_ this;;
  match _tiles r with
  | None => throw (TypeError "Cannot read properties of null (reading 'push')")
  | Some ts => update this (set_tiles (Some (ts ++ [tile])))
  end.

Definition addTile (this : nat) (tile : Tile.t) (data type : jsval) : M World unit :=
  r <- this_ this;;
  if _destroyed r then ret tt
  else
    match _tiles r with
    | None => throw (TypeError "Cannot read properties of null (reading 'includes')")
    | Some ts =>
        (if existsb (Tile.same tile) ts then
           _ <- removeTile this tile;; ret tt
         else if negb (loaded r) then
           p <- promise_resolve data;;
           update this (fun r =>
             set_loaded true (set_data data (set_promise (Some p) (set_type type r))))
         else ret tt);;
        push_tile this tile
    end.

(** [this._tiles ? this._tiles.length : 0] *)
Definition tileCount (r : CacheRecord) : nat :=
  match _tiles r with
  | Some ts => length ts
  | None => 0%nat
  end.

Definition getTileCount (this : nat) : M World nat :=
  r <- this_ this;;
  ret (tileCount r).

(** *** Deferred code: queued jobs, promise reactions, timers *)

(** The bodies of the closures pushed on [_conversionJobQueue]. *)
Definition run_job (this : nat) (j : job) : M World unit :=
  match j with
  | JobOverwrite data type resolver =>
      p <- _overwriteData this data type;;
      resolve resolver (Follow p)
  | JobTransform type resolver =>
      r <- this_ this;;
      if _destroyed r then ret tt
      else if negb (strict_eq type (_type r)) then
        _convert this (_type r) type;;
        r <- this_ this;;
        match _promise r with
        | None => throw (TypeError "Cannot read properties of null (reading 'then')")
        | Some p => _ <- then_ p (CbJobConverted resolver);; ret tt
        end
      else
        match _promise r with
        | None => throw (TypeError "Cannot read properties of null (reading 'then')")
        | Some p => _ <- then_ p (CbJobSameType this resolver);; ret tt
        end
  end.

(** The callback [_checkAwaitsConvert] hands to [setTimeout]. *)
Definition timer_body (this : nat) : M World unit :=
  r <- this_ this;;
  match _conversionJobQueue r with
  | None => ret tt
  | Some q =>
      if _destroyed r then ret tt
      else
        let rest := delete 0%nat q in
        update this (set_queue (match rest with [] => None | _ => Some rest end));;
        match q !! 0%nat with
        | None => throw (TypeError "job is not a function")
        | Some j => run_job this j
        end
  end.

(** The body of each [then] callback, applied to the value [v] its promise
    was fulfilled with; the result is what the callback returns. *)
Definition callback_body (c : callback) (v : jsval) : M World resolution :=
  match c with
  | CbConvert this conversionPath from originalData x i =>
      if negb (truthy v) then
        console_error "[OpenSeadragon.convertor.convert] data mid result falsey value";;
        update this (fun r => set_loaded true (set_type from (set_data from r)));;
        ret (Value originalData)
      else
        match conversionPath !! i with
        | None => throw Dangling
        | Some edge =>
            emit (RegDestroy x (origin_value edge));;
            p <- convert this conversionPath from originalData v (S i);;
            ret (Follow p)
        end
  | CbDestroy this oldType =>
      emit (RegDestroy v oldType);;
      r <- this_ this;;
      (if negb (_destroyed r) then ret tt
       else update this (fun r =>
              set_promise None (set_type VNull (set_data VNull (set_tiles None r)))));;
      ret (Value VUndefined)
  | CbOverwrite this data type =>
      r <- this_ this;;
      emit (RegDestroy v (_type r));;
      p <- promise_resolve data;;
      update this (fun r => set_promise (Some p) (set_data data (set_type type r)));;
      _triggerNeedsDraw this;;
      ret (Value v)
  | CbJobConverted resolver =>
      resolve resolver (Value v);;
      ret (Value VUndefined)
  | CbJobSameType this resolver =>
      _checkAwaitsConvert this;;
      resolve resolver (Value v);;
      ret (Value VUndefined)
  | CbAdopt => ret (Value v)
  end.

(** Run the reaction [rc], whose promise is in state [st]. *)
Definition run_reaction (rc : reaction) (st : pstate) : M World unit :=
  match st with
  | Pending => ret tt
  | Rejected e => settle (derived rc) (Rejected e)
  | Fulfilled v =>
      fun w => match callback_body (cb rc) v w with
               | (Ret res, w') => resolve (derived rc) res w'
               | (Throw e, w') => settle (derived rc) (Rejected e) w'
               end
  end.

Definition settled (w : World) (rc : reaction) : bool :=
  match promises w !! awaited rc with
  | Some (Fulfilled _) | Some (Rejected _) => true
  | _ => false
  end.

(** One turn of the event loop: the oldest reaction whose promise is
    settled, or else the oldest timer.  [false] when there is nothing to run.
    An exception in a timer callback reaches no caller. *)
Definition tick : M World bool :=
  w <- get;;
  match find_index (settled w) (reactions w) with
  | Some k =>
      match reactions w !! k with
      | Some rc =>
          modify (fun w => set_reactions (delete k (reactions w)) w);;
          run_reaction rc (default Pending (promises w !! awaited rc));;
          ret true
      | None => ret false
      end
  | None =>
      match timers w with
      | [] => ret false
      | this :: rest =>
          modify (fun w => set_timers rest w);;
          (fun w => (Ret true, snd (timer_body this w)))
      end
  end.

(** Let the event loop run for at most [fuel] turns. *)
Fixpoint run (fuel : nat) : M World unit :=
  match fuel with
  | O => ret tt
  | S n => b <- tick;; if b then run n else ret tt
  end.

(** ** TileCache *)

(** [_cachesLoaded] and [_zombiesLoaded] are arrays used as objects with
    string keys; their own properties are kept in for-in order, which is
    insertion order for keys that are not array indices. *)
Fixpoint prop_get {V} (k : string) (o : list (string * V)) : option V :=
  match o with
  | [] => None
  | (k', v) :: o' => if String.eqb k k' then Some v else prop_get k o'
  end.

(** [o[k] = v] *)
Fixpoint prop_set {V} (k : string) (v : V) (o : list (string * V)) : list (string * V) :=
  match o with
  | [] => [(k, v)]
  | (k', v') :: o' =>
      if String.eqb k k' then (k, v) :: o' else (k', v') :: prop_set k v o'
  end.

(** [delete o[k]] *)
Fixpoint prop_delete {V} (k : string) (o : list (string * V)) : list (string * V) :=
  match o with
  | [] => []
  | (k', v') :: o' =>
      if String.eqb k k' then prop_delete k o' else (k', v') :: prop_delete k o'
  end.

(** [a[i] = v] for [i <= a.length] (the cache writes nowhere else). *)
Definition array_set {A} (i : nat) (v : A) (a : list A) : list A :=
  if (i <? length a)%nat then <[i := v]> a else a ++ [v].

Record TileCache := mkTileCache {
  _maxCacheItemCount : Z;
  _tilesLoaded : list Tile.t;
  _zombiesLoaded : list (string * nat);
  _zombiesLoadedCount : Z;
  _cachesLoaded : list (string * nat);
  _cachesLoadedCount : Z
}.

Definition set_tilesLoaded v (c : TileCache) :=
  mkTileCache (_maxCacheItemCount c) v (_zombiesLoaded c) (_zombiesLoadedCount c)
              (_cachesLoaded c) (_cachesLoadedCount c).
Definition set_zombies v n (c : TileCache) :=
  mkTileCache (_maxCacheItemCount c) (_tilesLoaded c) v n
              (_cachesLoaded c) (_cachesLoadedCount c).
Definition set_caches v n (c : TileCache) :=
  mkTileCache (_maxCacheItemCount c) (_tilesLoaded c) (_zombiesLoaded c) (_zombiesLoadedCount c)
              v n.

(** [new $.TileCache({maxImageCacheCount})] *)
Definition new_TileCache (maxImageCacheCount : Z) : TileCache :=
  mkTileCache maxImageCacheCount [] [] 0 [] 0.

(** A tile cache together with the store its records live in. *)
Record Sys := mkSys { cache : TileCache; world : World }.

Definition liftW {A} (m : M World A) : M Sys A :=
  fun s => let (o, w) := m (world s) in (o, mkSys (cache s) w).
Definition this_cache : M Sys TileCache := fun s => (Ret (cache s), s).
Definition update_cache (f : TileCache -> TileCache) : M Sys unit :=
  modify (fun s => mkSys (f (cache s)) (world s)).

Module Options.
Record t := mk {
  tile : Tile.t;
  cacheKey : option string;    (* [None]: not given *)
  image : jsval;
  data : jsval;
  dataType : jsval;
  cutoff : option Z
}.
End Options.

Definition numTilesLoaded (c : TileCache) : nat := length (_tilesLoaded c).
Definition numCachesLoaded (c : TileCache) : Z :=
  _zombiesLoadedCount c + _cachesLoadedCount c.

(** [this._cachesLoaded[key] || this._zombiesLoaded[key]] *)
Definition getCacheRecord (c : TileCache) (cacheKey : string) : option nat :=
  match prop_get cacheKey (_cachesLoaded c) with
  | Some r => Some r
  | None => prop_get cacheKey (_zombiesLoaded c)
  end.

Definition unloadCacheForTile (tile : Tile.t) (key : string) (destroy_ : bool) : M Sys bool :=
  c <- this_cache;;
  match prop_get key (_cachesLoaded c) with
  | Some cacheRecord =>
      removed <- liftW (removeTile cacheRecord tile);;
      if removed then
        n <- liftW (getTileCount cacheRecord);;
        (if (n =? 0)%nat then
           (if destroy_ then liftW (destroy cacheRecord)
            else update_cache (fun c =>
                   set_zombies (prop_set key cacheRecord (_zombiesLoaded c))
                               (_zombiesLoadedCount c + 1) c));;
           update_cache (fun c =>
             set_caches (prop_delete key (_cachesLoaded c)) (_cachesLoadedCount c - 1) c)
         else ret tt);;
        ret true
      else
        liftW (console_error
          "[TileCache.unloadCacheForTile] System tried to delete tile from cache it does not belong to!");;
        ret false
  | None =>
      liftW (console_warn "[TileCache.unloadCacheForTile] Attempting to delete missing cache!");;
      ret false
  end.

(** [for (let key in tile._caches) this.unloadCacheForTile(tile, key, destroy)] *)
Fixpoint unload_caches (tile : Tile.t) (keys : list string) (destroy_ : bool) : M Sys unit :=
  match keys with
  | [] => ret tt
  | key :: keys' =>
      _ <- unloadCacheForTile tile key destroy_;;
      unload_caches tile keys' destroy_
  end.

Definition unloadTile (tile : Tile.t) (destroy_ : bool) (deleteAtIndex : option nat)
  : M Sys unit :=
  unload_caches tile (Tile._caches tile) destroy_;;
  match deleteAtIndex with
  | Some i => update_cache (fun c => set_tilesLoaded (delete i (_tilesLoaded c)) c)
  | None => ret tt
  end;;
  liftW (emit (TileUnload (Tile.id tile)));;
  liftW (emit (TileUnloaded (Tile.id tile) (TiledImage.id (Tile.tiledImage tile)) destroy_)).

(** The victim scan of [cacheTile]: indices [n-1] down to [0] of
    [tilesLoaded]; [worst] is the pair [(worstTile, worstTileIndex)],
    [None] while [worstTile] is null. *)
Fixpoint scan_worst (tilesLoaded : list Tile.t) (cutoff : Z) (n : nat)
    (worst : option (Tile.t * nat)) : option (Tile.t * nat) :=
  match n with
  | O => worst
  | S i =>
      match tilesLoaded !! i with
      | None => scan_worst tilesLoaded cutoff i worst
      | Some prevTile =>
          if (Tile.level prevTile <=? cutoff) || Tile.beingDrawn prevTile then
            scan_worst tilesLoaded cutoff i worst
          else
            match worst with
            | None => scan_worst tilesLoaded cutoff i (Some (prevTile, i))
            | Some (worstTile, _) =>
                let prevTime := Tile.lastTouchTime prevTile in
                let worstTime := Tile.lastTouchTime worstTile in
                let prevLevel := Tile.level prevTile in
                let worstLevel := Tile.level worstTile in
                if (prevTime <? worstTime) ||
                   ((prevTime =? worstTime) && (prevLevel >? worstLevel)) then
                  scan_worst tilesLoaded cutoff i (Some (prevTile, i))
                else scan_worst tilesLoaded cutoff i worst
            end
      end
  end.

Definition overflows (c : TileCache) : bool :=
  _cachesLoadedCount c + _zombiesLoadedCount c >? _maxCacheItemCount c.

(** [options.cacheKey || theTile.cacheKey] *)
Definition cacheKey_of (options : Options.t) : string :=
  match Options.cacheKey options with
  | Some k => if String.eqb k "" then Tile.cacheKey (Options.tile options) else k
  | None => Tile.cacheKey (Options.tile options)
  end.

Definition data_required : string :=
  "[TileCache.cacheTile] options.data is required to create an CacheRecord".

(** First part of [cacheTile]: find or create the record and attach the
    tile.  Returns [cacheRecord]. *)
Definition cacheTile_attach (options : Options.t) : M Sys nat :=
  let theTile := Options.tile options in
  liftW (console_assert (negb (String.eqb (Tile.cacheKey theTile) ""))
    "[TileCache.cacheTile] options.tile.cacheKey is required");;
  c <- this_cache;;
  let cacheKey := cacheKey_of options in
  found <-
    match getCacheRecord c cacheKey with
    | None =>
        data <-
          (if strict_eq (Options.data options) VUndefined then
             liftW (console_error
               "[TileCache.cacheTile] options.image was renamed to options.data.");;
             ret (Options.image options)
           else ret (Options.data options));;
        liftW (console_assert
          (negb (strict_eq data VUndefined) && negb (strict_eq data VNull)
           && negb (strict_eq data (VBool false)))
          data_required);;
        cacheRecord <- liftW new_CacheRecord;;
        update_cache (fun c =>
          set_caches (prop_set cacheKey cacheRecord (_cachesLoaded c))
                     (_cachesLoadedCount c + 1) c);;
        ret (cacheRecord, data)
    | Some cacheRecord =>
        r <- liftW (this_ cacheRecord);;
        (if _destroyed r then
           liftW (revive cacheRecord);;
           update_cache (fun c =>
             set_zombies (prop_delete cacheKey (_zombiesLoaded c))
                         (_zombiesLoadedCount c - 1) c)
         else ret tt);;
        ret (cacheRecord, Options.data options)
    end;;
  let cacheRecord := fst found in
  let data := snd found in
  dataType <-
    (if negb (truthy (Options.dataType options)) then
       liftW (console_error "[TileCache.cacheTile] options.dataType is newly required.");;
       liftW (emit (RegGuessType data));;
       w <- liftW get;;
       ret (guessType (convertor w) data)
     else ret (Options.dataType options));;
  liftW (addTile cacheRecord theTile data dataType);;
  (if String.eqb cacheKey (Tile.cacheKey theTile) then
     liftW (emit (NeedsDraw (TiledImage.id (Tile.tiledImage theTile))))
   else ret tt);;
  ret cacheRecord.

(** Second part: the eviction pass.  Returns [worstTileIndex], [None] for
    [-1]. *)
Definition cacheTile_evict (cutoff : Z) : M Sys (option nat) :=
  c <- this_cache;;
  if overflows c then
    if _zombiesLoadedCount c >? 0 then
      match _zombiesLoaded c with
      | (zombie, z) :: _ =>
          liftW (destroy z);;
          update_cache (fun c =>
            set_zombies (prop_delete zombie (_zombiesLoaded c)) (_zombiesLoadedCount c - 1) c);;
          ret None
      | [] => ret None
      end
    else
      match scan_worst (_tilesLoaded c) cutoff (length (_tilesLoaded c)) None with
      | Some (worstTile, worstTileIndex) =>
          unloadTile worstTile true None;;
          ret (Some worstTileIndex)
      | None => ret None
      end
  else ret None.

(** Third part: record the tile in [_tilesLoaded]. *)
Definition cacheTile_record (theTile : Tile.t) (length0 : nat) (worstTileIndex : option nat)
  : M Sys unit :=
  let insertionIndex := default length0 worstTileIndex in
  if (Tile.getCacheSize theTile =? 0)%nat then
    update_cache (fun c => set_tilesLoaded (array_set insertionIndex theTile (_tilesLoaded c)) c)
  else
    match worstTileIndex with
    | Some _ => update_cache (fun c => set_tilesLoaded (delete insertionIndex (_tilesLoaded c)) c)
    | None => ret tt
    end.

Definition cacheTile (options : Options.t) : M Sys nat :=
  c <- this_cache;;
  let cutoff := default 0 (Options.cutoff options) in
  let length0 := length (_tilesLoaded c) in
  cacheRecord <- cacheTile_attach options;;
  worstTileIndex <- cacheTile_evict cutoff;;
  cacheTile_record (Options.tile options) length0 worstTileIndex;;
  ret cacheRecord.

(** [for (let zombie in this._zombiesLoaded) { destroy; delete }] over the
    properties [zs] the loop started with. *)
Fixpoint destroy_zombies (zs : list (string * nat)) : M Sys unit :=
  match zs with
  | [] => ret tt
  | (zombie, z) :: zs' =>
      liftW (destroy z);;
      update_cache (fun c =>
        set_zombies (prop_delete zombie (_zombiesLoaded c)) (_zombiesLoadedCount c) c);;
      destroy_zombies zs'
  end.

(** The backward loop of [clearTilesFor] over indices [n-1] down to [0]. *)
Fixpoint clear_loop (tiledImage : TiledImage.t) (cacheOverflows : bool) (n : nat)
  : M Sys unit :=
  match n with
  | O => ret tt
  | S i =>
      c <- this_cache;;
      match _tilesLoaded c !! i with
      | None => throw (TypeError "Cannot read properties of undefined (reading 'tiledImage')")
      | Some tile =>
          (if Nat.eqb (TiledImage.id (Tile.tiledImage tile)) (TiledImage.id tiledImage) then
             if negb (Tile.loaded tile) then
               update_cache (fun c => set_tilesLoaded (delete i (_tilesLoaded c)) c)
             else
               unloadTile tile
                 (negb (TiledImage._zombieCache tiledImage) || cacheOverflows) (Some i)
           else ret tt);;
          clear_loop tiledImage cacheOverflows i
      end
  end.

Definition clearTilesFor (tiledImage : TiledImage.t) : M Sys unit :=
  c <- this_cache;;
  cacheOverflows <-
    (if TiledImage._zombieCache tiledImage && overflows c && (_zombiesLoadedCount c >? 0) then
       destroy_zombies (_zombiesLoaded c);;
       update_cache (fun c => set_zombies (_zombiesLoaded c) 0 c);;
       c <- this_cache;;
       ret (_cachesLoadedCount c >? _maxCacheItemCount c)
     else ret (overflows c));;
  clear_loop tiledImage cacheOverflows (length (_tilesLoaded c)).

(** *** Sequences of cache operations *)

Inductive op :=
| OpCacheTile (options : Options.t)
| OpUnloadCacheForTile (tile : Tile.t) (key : string) (destroy_ : bool)
| OpUnloadTile (tile : Tile.t) (destroy_ : bool) (deleteAtIndex : option nat)
| OpClearTilesFor (tiledImage : TiledImage.t).

Definition run_op (o : op) : M Sys unit :=
  match o with
  | OpCacheTile options => _ <- cacheTile options;; ret tt
  | OpUnloadCacheForTile tile key d => _ <- unloadCacheForTile tile key d;; ret tt
  | OpUnloadTile tile d i => unloadTile tile d i
  | OpClearTilesFor ti => clearTilesFor ti
  end.

Fixpoint run_ops (ops : list op) : M Sys unit :=
  match ops with
  | [] => ret tt
  | o :: ops' => run_op o;; run_ops ops'
  end.

(** An empty store around the registry [c], and a new cache in it. *)
Definition empty_world (c : Convertor) : World := mkWorld [] [] [] [] c [].
Definition initial (maxImageCacheCount : Z) (c : Convertor) : Sys :=
  mkSys (new_TileCache maxImageCacheCount) (empty_world c).

(** The state [s'] is reached from a new cache by a sequence of operations
    that all returned. *)
Definition reachable (s' : Sys) : Prop :=
  exists maxImageCacheCount c ops,
    run_ops ops (initial maxImageCacheCount c) = (Ret tt, s').

(** The record object behind a reference. *)
Definition record_at (s : Sys) (r : nat) : option CacheRecord := records (world s) !! r.

(** ** Scenarios

    The concrete values of the specification's scenarios: format tags, three
    payloads, one tiled image, a few conversion edges and registries. *)
Module Scenario.
Definition raw : jsval := VStr "raw".
Definition png : jsval := VStr "png".
Definition ctx : jsval := VStr "context2d".
Definition D1 : jsval := VObj 1.
Definition D2 : jsval := VObj 2.
Definition D3 : jsval := VObj 3.
Definition D4 : jsval := VObj 4.
Definition image0 : TiledImage.t := TiledImage.mk 0 true.

(** A tile as the cache sees it at the time of a call: [caches] are the keys
    of the records it is attached to so far. *)
Definition tile (id : nat) (key : string) (lvl time : Z) (caches : list string) : Tile.t :=
  Tile.mk id key lvl false time image0 true caches (length caches).

(** [cacheTile({tile, data, dataType: "raw"})] *)
Definition options (t : Tile.t) (d : jsval) : Options.t :=
  Options.mk t None VUndefined d raw None.

(** An edge whose transform resolves with [undefined], and two that work. *)
Definition encode (x : jsval) : jsval :=
  match x with
  | VObj n => VObj (100 + n)
  | _ => VNull
  end.
Definition edge_fails : Edge := mkEdge raw png (fun _ => VUndefined).
Definition edge_png : Edge := mkEdge raw png encode.
Definition edge_ctx : Edge := mkEdge png ctx encode.

(** The registry that knows the route [path] from [from0] to [to0] and no
    other. *)
Definition route (path : list Edge) (from0 to0 : jsval) : Convertor :=
  mkConvertor
    (fun from to => if strict_eq from from0 && strict_eq to to0 then Some path else None)
    (fun _ => raw).
Definition no_route : Convertor := mkConvertor (fun _ _ => None) (fun _ => raw).

(** One record, number 0, holding [D1] in format [raw] for tile 1. *)
Definition one_record (c : Convertor) : World :=
  after (this <- new_CacheRecord;; addTile this (tile 1 "A" 2 10 []) D1 raw) (empty_world c).

(** S3: two tiles share key A, both are unloaded without destruction, a
    third tile asks for key A. *)
Definition zombie_A : Sys :=
  after (run_ops [OpCacheTile (options (tile 1 "A" 2 10 []) D1);
                  OpCacheTile (options (tile 2 "A" 2 10 []) D2);
                  OpUnloadTile (tile 1 "A" 2 10 ["A"]) false None;
                  OpUnloadTile (tile 2 "A" 2 10 ["A"]) false None])
        (initial 3 no_route).
Definition revive_A : Options.t := options (tile 3 "A" 2 10 []) D3.
(** A loaded record holding [d] in format [raw] for the tiles [ts]. *)
Definition holding (ts : list Tile.t) (d : jsval) (p : nat) : CacheRecord :=
  mkCacheRecord (Some ts) d raw true (Some p) false None.

(** S5: capacity 3 and three live tiles with (lastTouchTime, level) =
    (10, 2), (10, 5), (20, 2), each attached to a record of its own. *)
Definition tA : Tile.t := tile 1 "A" 2 10 ["A"].
Definition tB : Tile.t := tile 2 "B" 5 10 ["B"].
Definition tC : Tile.t := tile 3 "C" 2 20 ["C"].
Definition three_live : Sys :=
  mkSys (mkTileCache 3 [tA; tB; tC] [] 0 [("A", 0%nat); ("B", 1%nat); ("C", 2%nat)] 3)
        (mkWorld [holding [tA] D1 0; holding [tB] D2 1; holding [tC] D3 2]
                 [Fulfilled D1; Fulfilled D2; Fulfilled D3] [] [] no_route []).

(** S4: the same three live records and one zombie under key Z. *)
Definition three_live_one_zombie : Sys :=
  mkSys (mkTileCache 3 [tA; tB; tC] [("Z", 3%nat)] 1
                     [("A", 0%nat); ("B", 1%nat); ("C", 2%nat)] 3)
        (mkWorld [holding [tA] D1 0; holding [tB] D2 1; holding [tC] D3 2; holding [] D4 3]
                 [Fulfilled D1; Fulfilled D2; Fulfilled D3; Fulfilled D4] [] [] no_route []).

(** A fourth tile with a key of its own. *)
Definition fourth : Options.t := options (tile 4 "D" 3 30 []) D4.
End Scenario.

(** Further examples: states the cache operations reach from a new cache, and
    a registry with two routes. *)
Module Example.
(** A tile of image 0 that lists [key] among its caches and whose cache size
    still reads 0 when the cache records it. *)
Definition tile (id : nat) (key : string) : Tile.t :=
  Tile.mk id key 2 false 10 Scenario.image0 true [key] 0.
(** One tile under key A. *)
Definition one_tile : Sys :=
  after (run_ops [OpCacheTile (Scenario.options (tile 1 "A") Scenario.D1)])
        (initial 3 Scenario.no_route).
(** Two tiles sharing the record of key A. *)
Definition shared : Sys :=
  after (run_ops [OpCacheTile (Scenario.options (tile 1 "A") Scenario.D1);
                  OpCacheTile (Scenario.options (tile 2 "A") Scenario.D2)])
        (initial 3 Scenario.no_route).
(** The registry that converts [raw] to [png] and [png] to [context2d], one
    edge each. *)
Definition two_routes : Convertor :=
  mkConvertor
    (fun from to =>
       if strict_eq from Scenario.raw && strict_eq to Scenario.png then Some [Scenario.edge_png]
       else if strict_eq from Scenario.png && strict_eq to Scenario.ctx
            then Some [Scenario.edge_ctx]
            else None)
    (fun _ => Scenario.raw).
End Example.

(** ** Properties of invariants over cache states *)

(** Every record of the live map counts at least one tile. *)
Definition live_counted (s : Sys) : Prop :=
  forall k ref, prop_get k (_cachesLoaded (cache s)) = Some ref ->
    exists r, record_at s ref = Some r /\ (1 <= tileCount r)%nat.

(** Every record of the zombie map counts no tile and is not destroyed. *)
Definition zombies_idle (s : Sys) : Prop :=
  forall k ref, prop_get k (_zombiesLoaded (cache s)) = Some ref ->
    exists r, record_at s ref = Some r /\ tileCount r = 0%nat /\ _destroyed r = false.

(** A tile the victim scan may choose: above the cutoff and not being drawn. *)
Definition admissible (cutoff : Z) (t : Tile.t) : bool :=
  negb ((Tile.level t <=? cutoff) || Tile.beingDrawn t).

(** [(lastTouchTime a, - level a)] is at most [(lastTouchTime b, - level b)]
    in the lexicographic order. *)
Definition lex_le (a b : Tile.t) : Prop :=
  Tile.lastTouchTime a < Tile.lastTouchTime b \/
  (Tile.lastTouchTime a = Tile.lastTouchTime b /\ - Tile.level a <= - Tile.level b).

(** The zombie count agrees with the zombie map, whose keys are distinct, and
    [destroy()] can run on every zombie record: it is loaded or has a ready
    handle to chain on. *)
Definition zombies_consistent (s : Sys) : Prop :=
  _zombiesLoadedCount (cache s) = Z.of_nat (length (_zombiesLoaded (cache s))) /\
  NoDup (map fst (_zombiesLoaded (cache s))) /\
  forall k z, In (k, z) (_zombiesLoaded (cache s)) ->
    exists r, record_at s z = Some r /\ (loaded r = true \/ is_Some (_promise r)).

(** The events of a trace that report the unloading of a tile. *)
Definition unloaded_tiles (tr : list event) : list nat :=
  omap (fun e => match e with TileUnloaded t _ _ => Some t | _ => None end) tr.

(** The value a route produces from [x], and whether every edge on the way
    resolves with a truthy value. *)
Fixpoint converted (path : list Edge) (x : jsval) : jsval :=
  match path with
  | [] => x
  | e :: path' => converted path' (transform e x)
  end.

Fixpoint all_truthy (path : list Edge) (x : jsval) : bool :=
  match path with
  | [] => true
  | e :: path' => truthy (transform e x) && all_truthy path' (transform e x)
  end.

(** The adoption reactions that link the promises [d0; d1; ...; dk] of a
    conversion: each [d(j+1)] hands its value down to [dj]. *)
Fixpoint links (ds : list nat) : list reaction :=
  match ds with
  | a :: (b :: _) as ds' => mkReaction b CbAdopt a :: links ds'
  | _ => []
  end.

(** *** The representation invariant of the cache *)

(** A record as the cache operations leave it in a map: populated and not
    destroyed. *)
Definition sound_record (r : CacheRecord) : Prop :=
  _destroyed r = false /\ loaded r = true /\ is_Some (_tiles r).

(** Both counts agree with their maps; a key has one record, in one map; two
    keys never share a record; every record of a map is sound and every live
    record counts a tile. *)
Record well_formed (s : Sys) : Prop := mkWellFormed {
  wf_live_count :
    _cachesLoadedCount (cache s) = Z.of_nat (length (_cachesLoaded (cache s)));
  wf_zombie_count :
    _zombiesLoadedCount (cache s) = Z.of_nat (length (_zombiesLoaded (cache s)));
  wf_live_keys : NoDup (map fst (_cachesLoaded (cache s)));
  wf_zombie_keys : NoDup (map fst (_zombiesLoaded (cache s)));
  wf_disjoint : forall k,
    is_Some (prop_get k (_cachesLoaded (cache s))) ->
    prop_get k (_zombiesLoaded (cache s)) = None;
  wf_unshared : forall k1 k2 ref,
    getCacheRecord (cache s) k1 = Some ref ->
    getCacheRecord (cache s) k2 = Some ref -> k1 = k2;
  wf_sound : forall k ref,
    getCacheRecord (cache s) k = Some ref ->
    exists r, record_at s ref = Some r /\ sound_record r;
  wf_live_counted : live_counted s
}.

(** The state with the zombie count set to the size of the zombie map; the
    zombie loop of [clearTilesFor] fixes the count only after the loop. *)
Definition recount (s : Sys) : Sys :=
  mkSys (set_zombies (_zombiesLoaded (cache s))
                     (Z.of_nat (length (_zombiesLoaded (cache s)))) (cache s))
        (world s).

(** ** Vocabulary of the further properties *)

(** The test of [clearTilesFor]: the tile belongs to [tiledImage]. *)
Definition of_image (tiledImage : TiledImage.t) (t : Tile.t) : bool :=
  Nat.eqb (TiledImage.id (Tile.tiledImage t)) (TiledImage.id tiledImage).

(** The payload and the format [cacheTile] gives to a record it creates. *)
Definition payload_of (options : Options.t) : jsval :=
  if strict_eq (Options.data options) VUndefined then Options.image options
  else Options.data options.
Definition format_of (options : Options.t) (c : Convertor) (data : jsval) : jsval :=
  if negb (truthy (Options.dataType options)) then guessType c data
  else Options.dataType options.

(** What the attaching part logs before and after [addTile]. *)
Definition key_events (options : Options.t) : list event :=
  if negb (String.eqb (Tile.cacheKey (Options.tile options)) "") then []
  else [Log LAssert "[TileCache.cacheTile] options.tile.cacheKey is required"].
Definition data_events (options : Options.t) : list event :=
  (if strict_eq (Options.data options) VUndefined then
     [Log LError "[TileCache.cacheTile] options.image was renamed to options.data."]
   else []) ++
  (if negb (strict_eq (payload_of options) VUndefined)
      && negb (strict_eq (payload_of options) VNull)
      && negb (strict_eq (payload_of options) (VBool false))
   then [] else [Log LAssert data_required]).
Definition format_events (options : Options.t) (data : jsval) : list event :=
  if negb (truthy (Options.dataType options)) then
    [Log LError "[TileCache.cacheTile] options.dataType is newly required.";
     RegGuessType data]
  else [].
Definition draw_events (options : Options.t) : list event :=
  if String.eqb (cacheKey_of options) (Tile.cacheKey (Options.tile options))
  then [NeedsDraw (TiledImage.id (Tile.tiledImage (Options.tile options)))] else [].

(** The timer [_checkAwaitsConvert] sets for the record [rc]. *)
Definition awaits_convert (this : nat) (rc : CacheRecord) : list nat :=
  match _conversionJobQueue rc with
  | Some _ => if _destroyed rc then [] else [this]
  | None => []
  end.

(** * Properties *)

(** ** The store *)

Lemma run_returns {S A} (m : M S A) s a :
  result m s = Ret a -> m s = (Ret a, after m s).
Proof. unfold result, after. destruct (m s). cbn. now intros ->. Qed.

Lemma this_at w this r :
  records w !! this = Some r -> this_ this w = (Ret r, w).
Proof. intros H. unfold this_. now rewrite H. Qed.

Lemma update_at w this r f :
  records w !! this = Some r ->
  update this f w = (Ret tt, set_records (<[this := f r]> (records w)) w).
Proof. intros H. unfold update, bind. now rewrite (this_at _ _ _ H). Qed.

Lemma lookup_updated (l : list CacheRecord) this r r' :
  l !! this = Some r -> <[this := r']> l !! this = Some r'.
Proof. intros H. apply list_lookup_insert_eq. eapply lookup_lt_Some; eauto. Qed.

(** ** CacheRecord.addTile *)

Lemma addTile_loaded w this r ts tile data type :
  records w !! this = Some r -> loaded r = true -> _destroyed r = false ->
  _tiles r = Some ts -> existsb (Tile.same tile) ts = false ->
  addTile this tile data type w
  = (Ret tt, set_records (<[this := set_tiles (Some (ts ++ [tile])) r]> (records w)) w).
Proof.
  intros Hr Hl Hd Ht Hn.
  unfold addTile, bind. rewrite (this_at _ _ _ Hr), Hd, Ht, Hn, Hl. cbn.
  unfold push_tile, bind. rewrite (this_at _ _ _ Hr), Ht.
  now apply update_at.
Qed.

(** C7. On a record in the loaded state (loaded, not destroyed) holding
    payload D1, [addTile(tile2, D2, type2)] with a tile that is not attached
    yet returns normally, ignores D2 and type2 (payload, format, loaded flag
    and ready handle are unchanged), appends the tile, and the tile count
    grows by one. *)
Theorem addTile_keeps_payload w this r ts tile2 D2 type2 :
  records w !! this = Some r ->
  loaded r = true -> _destroyed r = false -> _tiles r = Some ts ->
  existsb (Tile.same tile2) ts = false ->
  exists r',
    result (addTile this tile2 D2 type2) w = Ret tt /\
    records (after (addTile this tile2 D2 type2) w) !! this = Some r' /\
    _data r' = _data r /\ _type r' = _type r /\
    loaded r' = true /\ _promise r' = _promise r /\
    _tiles r' = Some (ts ++ [tile2]) /\
    tileCount r' = S (tileCount r).
Proof.
  intros Hr Hl Hd Ht Hn.
  exists (set_tiles (Some (ts ++ [tile2])) r).
  unfold result, after. rewrite (addTile_loaded _ _ _ _ _ _ _ Hr Hl Hd Ht Hn). cbn.
  repeat split; try assumption.
  - eapply lookup_updated; eauto.
  - unfold tileCount. cbn. rewrite Ht, length_app. cbn. lia.
Qed.

Lemma addTile_keeps_payload_witness :
  exists r',
    records (after (addTile 0 (Scenario.tile 2 "A" 2 10 []) Scenario.D2 Scenario.png)
                   (Scenario.one_record Scenario.no_route)) !! 0%nat = Some r' /\
    _data r' = Scenario.D1 /\ _type r' = Scenario.raw /\ tileCount r' = 2%nat.
Proof.
  destruct (addTile_keeps_payload (Scenario.one_record Scenario.no_route) 0
              (mkCacheRecord (Some [Scenario.tile 1 "A" 2 10 []]) Scenario.D1 Scenario.raw
                             true (Some 0%nat) false None)
              [Scenario.tile 1 "A" 2 10 []] (Scenario.tile 2 "A" 2 10 [])
              Scenario.D2 Scenario.png)
    as (r' & _ & H1 & H2 & H3 & _ & _ & _ & H4); try reflexivity.
  exists r'. repeat split; assumption.
Defined.

(** A destroyed record is outside the loaded state: [addTile] returns at
    its first guard and changes nothing. *)
Lemma addTile_destroyed_noop w this r tile data type :
  records w !! this = Some r -> _destroyed r = true ->
  addTile this tile data type w = (Ret tt, w).
Proof.
  intros Hr Hd. unfold addTile, bind. now rewrite (this_at _ _ _ Hr), Hd.
Qed.

(** ** CacheRecord._convert *)

(** C6, as amended.  When the registry answers no path at all (the falsy
    [undefined], which is what [_convert] tests for), [_convert] asks the
    registry once, logs one error and leaves the whole store as it is: every
    record keeps its payload, format, loaded flag and ready handle, and no
    promise, reaction or timer is created. *)
Theorem convert_no_route_noop w this from to :
  getConversionPath (convertor w) from to = None ->
  result (_convert this from to) w = Ret tt /\
  records (after (_convert this from to) w) = records w /\
  promises (after (_convert this from to) w) = promises w /\
  reactions (after (_convert this from to) w) = reactions w /\
  timers (after (_convert this from to) w) = timers w /\
  trace (after (_convert this from to) w)
  = trace w ++ [RegGetConversionPath from to;
                Log LError "[OpenSeadragon.convertor.convert] Conversion conversion cannot be done!"].
Proof.
  intros H. unfold result, after, _convert, bind, get, emit, modify, console_error.
  cbn. rewrite H. cbn. rewrite <- app_assoc. repeat split; reflexivity.
Qed.

Lemma convert_no_route_noop_witness :
  getConversionPath (convertor (Scenario.one_record Scenario.no_route))
                    Scenario.raw Scenario.png = None /\
  records (after (_convert 0 Scenario.raw Scenario.png) (Scenario.one_record Scenario.no_route))
  = records (Scenario.one_record Scenario.no_route).
Proof.
  split; [reflexivity |].
  apply (convert_no_route_noop (Scenario.one_record Scenario.no_route) 0%nat
           Scenario.raw Scenario.png).
  reflexivity.
Defined.

(** C6, as stated, fails: an empty array of edges is truthy, so [_convert]
    goes on and relabels the record with the target format although nothing
    was converted. *)
Lemma convert_empty_path_relabels :
  let w := Scenario.one_record (Scenario.route [] Scenario.raw Scenario.png) in
  getConversionPath (convertor w) Scenario.raw Scenario.png = Some [] /\
  (_type <$> records w !! 0%nat) = Some Scenario.raw /\
  (_type <$> records (after (_convert 0 Scenario.raw Scenario.png) w) !! 0%nat)
  = Some Scenario.png /\
  records (after (_convert 0 Scenario.raw Scenario.png) w) <> records w.
Proof.
  cbv zeta. repeat split; try reflexivity.
  intros H. apply (f_equal (fun l => _type <$> l !! 0%nat)) in H.
  vm_compute in H. discriminate H.
Qed.

(** The callback of a conversion step that receives a falsy value: it logs,
    writes the source format into both [_data] and [_type], sets [loaded], and
    returns the original data. *)
Lemma convert_falsy_callback w this r path from originalData x i y :
  records w !! this = Some r -> truthy y = false ->
  callback_body (CbConvert this path from originalData x i) y w
  = (Ret (Value originalData),
     set_records (<[this := set_loaded true (set_type from (set_data from r))]> (records w))
       (set_trace (trace w ++
          [Log LError "[OpenSeadragon.convertor.convert] data mid result falsey value"]) w)).
Proof.
  intros Hr Hy. unfold callback_body. rewrite Hy. cbn.
  unfold bind, console_error, emit, modify. cbn.
  erewrite update_at by (cbn; eassumption). reflexivity.
Qed.

(** C3, at the failing input.  Record 0 holds D1 in format raw; the only
    edge to png resolves with [undefined].  The eventual returned by
    [transformTo("png")] resolves with D1, the format is raw again and
    [loaded] is true, but the payload is the string "raw", not D1. *)
Theorem convert_falsy_loses_payload :
  let w0 := Scenario.one_record (Scenario.route [Scenario.edge_fails] Scenario.raw Scenario.png) in
  let w1 := after (_ <- transformTo 0 Scenario.png;; run 8) w0 in
  (_data <$> records w0 !! 0%nat) = Some Scenario.D1 /\
  result (transformTo 0 Scenario.png) w0 = Ret (Some 2%nat) /\
  promises w1 !! 2%nat = Some (Fulfilled Scenario.D1) /\
  reactions w1 = [] /\
  (_type <$> records w1 !! 0%nat) = Some Scenario.raw /\
  (loaded <$> records w1 !! 0%nat) = Some true /\
  (_data <$> records w1 !! 0%nat) = Some (VStr "raw") /\
  (_data <$> records w1 !! 0%nat) <> Some Scenario.D1.
Proof.
  cbv zeta. repeat split; try (vm_compute; reflexivity).
  vm_compute. discriminate.
Qed.

(** ** CacheRecord.destroy *)

Lemma new_CacheRecord_fresh w :
  new_CacheRecord w
  = (Ret (length (records w)),
     set_records (records w ++ [mkCacheRecord (Some []) VNull VNull false None false None]) w).
Proof.
  unfold new_CacheRecord, bind, get, modify, revive. cbn.
  assert (H : (records w ++ [blank]) !! length (records w) = Some blank).
  { rewrite lookup_app_r by lia. now rewrite Nat.sub_diag. }
  unfold bind. rewrite (this_at _ _ blank) by (cbn; exact H). cbn.
  erewrite update_at by (cbn; exact H). cbn.
  rewrite insert_app_r_alt by lia. rewrite Nat.sub_diag. reflexivity.
Qed.

(** C9, at the failing input.  [destroy()] on a record that was constructed
    and never populated throws a TypeError to its caller: [_promise] is null
    and the branch for a record that is not loaded calls [then] on it.  The
    record is left marked destroyed. *)
Theorem destroy_fresh_record_throws w :
  let this := length (records w) in
  let w1 := after new_CacheRecord w in
  result new_CacheRecord w = Ret this /\
  result (destroy this) w1
  = Throw (TypeError "Cannot read properties of null (reading 'then')") /\
  (_destroyed <$> records (after (destroy this) w1) !! this) = Some true.
Proof.
  cbv zeta. unfold result, after. rewrite new_CacheRecord_fresh. cbn.
  assert (H : (records w ++ [mkCacheRecord (Some []) VNull VNull false None false None])
                !! length (records w)
              = Some (mkCacheRecord (Some []) VNull VNull false None false None)).
  { rewrite lookup_app_r by lia. now rewrite Nat.sub_diag. }
  unfold destroy, bind.
  erewrite update_at by (cbn; exact H). cbn.
  erewrite this_at by (cbn; eapply lookup_updated; exact H). cbn.
  split; [reflexivity |]. split; [reflexivity |].
  erewrite lookup_updated by exact H. reflexivity.
Qed.

(** [setDataAs] on such a record throws in the same way. *)
Lemma setDataAs_fresh_record_throws w data type :
  result (setDataAs (length (records w)) data type) (after new_CacheRecord w)
  = Throw (TypeError "Cannot read properties of null (reading 'then')").
Proof.
  unfold result, after. rewrite new_CacheRecord_fresh. cbn [snd].
  assert (H : (records w ++ [mkCacheRecord (Some []) VNull VNull false None false None])
                !! length (records w)
              = Some (mkCacheRecord (Some []) VNull VNull false None false None)).
  { rewrite lookup_app_r by lia. now rewrite Nat.sub_diag. }
  unfold setDataAs. unfold bind at 1.
  assert (Hlog : forall b msg w0, records (snd (console_assert b msg w0)) = records w0)
    by (intros [] ? ?; reflexivity).
  destruct (console_assert (negb (strict_eq data VUndefined))
              "[CacheRecord.setDataAs] needs valid data to set!"
              (set_records
                 (records w ++ [mkCacheRecord (Some []) VNull VNull false None false None]) w))
    as [[[]|e] w1] eqn:Hca.
  - assert (Hw1 : records w1
                  = records w ++ [mkCacheRecord (Some []) VNull VNull false None false None]).
    { pose proof (Hlog (negb (strict_eq data VUndefined))
                       "[CacheRecord.setDataAs] needs valid data to set!"
                       (set_records
                          (records w ++
                           [mkCacheRecord (Some []) VNull VNull false None false None]) w)) as Hl.
      rewrite Hca in Hl. exact Hl. }
    unfold bind at 1. erewrite this_at by (rewrite Hw1; exact H). cbn.
    unfold _overwriteData, bind. erewrite this_at by (rewrite Hw1; exact H). reflexivity.
  - unfold console_assert, when in Hca. destruct (negb _) in Hca; discriminate Hca.
Qed.

(** ** TileCache: the victim scan *)

Ltac last_index j i :=
  let H := fresh "Hlt" in
  assert (j = i \/ (j < i)%nat) as [->|H] by lia.

(** The scan over indices below [n], started with candidate [worst], ends on
    an admissible tile that is lexicographically least among [worst] and the
    admissible tiles below [n]; it ends without a tile only if there is none. *)
Lemma scan_worst_spec tiles cutoff n : forall worst,
  (forall w i, worst = Some (w, i) -> tiles !! i = Some w /\ admissible cutoff w = true) ->
  match scan_worst tiles cutoff n worst with
  | Some (v, i) =>
      tiles !! i = Some v /\ admissible cutoff v = true /\
      (forall j t, (j < n)%nat -> tiles !! j = Some t ->
                   admissible cutoff t = true -> lex_le v t) /\
      (forall w i', worst = Some (w, i') -> lex_le v w)
  | None =>
      worst = None /\
      forall j t, (j < n)%nat -> tiles !! j = Some t -> admissible cutoff t = false
  end.
Proof.
  induction n as [|i IH]; intros worst Hw; cbn [scan_worst].
  - destruct worst as [[w iw]|].
    + destruct (Hw w iw eq_refl) as [H1 H2]. repeat split; auto; try lia.
      intros w' i' [= <- <-]. unfold lex_le. lia.
    + split; [reflexivity | intros; lia].
  - destruct (tiles !! i) as [prevTile|] eqn:Hi.
    2:{ specialize (IH worst Hw).
        destruct (scan_worst tiles cutoff i worst) as [[v iv]|].
        - destruct IH as (H1 & H2 & H3 & H4). repeat split; auto.
          intros j t Hj Ht. last_index j i; [congruence | eauto].
        - destruct IH as [H1 H2]. split; auto.
          intros j t Hj Ht. last_index j i; [congruence | eauto]. }
    destruct ((Tile.level prevTile <=? cutoff) || Tile.beingDrawn prevTile) eqn:Hadm.
    { specialize (IH worst Hw).
      assert (Hna : admissible cutoff prevTile = false)
        by (unfold admissible; now rewrite Hadm).
      destruct (scan_worst tiles cutoff i worst) as [[v iv]|].
      - destruct IH as (H1 & H2 & H3 & H4). repeat split; auto.
        intros j t Hj Ht Ha. last_index j i; [congruence | eauto].
      - destruct IH as [H1 H2]. split; auto.
        intros j t Hj Ht. last_index j i; [congruence | eauto]. }
    assert (Ha : admissible cutoff prevTile = true)
      by (unfold admissible; now rewrite Hadm).
    destruct worst as [[worstTile iw]|].
    + destruct (Hw worstTile iw eq_refl) as [Hw1 Hw2].
      destruct ((Tile.lastTouchTime prevTile <? Tile.lastTouchTime worstTile)
                || ((Tile.lastTouchTime prevTile =? Tile.lastTouchTime worstTile)
                    && (Tile.level prevTile >? Tile.level worstTile))) eqn:Hcmp.
      * assert (Hle : lex_le prevTile worstTile).
        { unfold lex_le. apply orb_true_iff in Hcmp as [H|H]; [left; lia|].
          apply andb_true_iff in H as [H1 H2]. right. lia. }
        specialize (IH (Some (prevTile, i))).
        destruct (scan_worst tiles cutoff i (Some (prevTile, i))) as [[v iv]|].
        -- destruct IH as (H1 & H2 & H3 & H4); [intros ? ? [= <- <-]; auto|].
           specialize (H4 _ _ eq_refl).
           repeat split; auto.
           ++ intros j t Hj Ht Hat. last_index j i; [|eauto].
              replace t with prevTile by congruence. exact H4.
           ++ intros w i' [= <- <-]. unfold lex_le in *. lia.
        -- destruct IH as [H1 _]; [intros ? ? [= <- <-]; auto|]. discriminate.
      * assert (Hle : lex_le worstTile prevTile).
        { unfold lex_le. apply orb_false_iff in Hcmp as [H1 H2].
          apply andb_false_iff in H2. lia. }
        specialize (IH (Some (worstTile, iw)) Hw).
        destruct (scan_worst tiles cutoff i (Some (worstTile, iw))) as [[v iv]|].
        -- destruct IH as (H1 & H2 & H3 & H4).
           specialize (H4 _ _ eq_refl).
           repeat split; auto.
           ++ intros j t Hj Ht Hat. last_index j i; [|eauto].
              replace t with prevTile by congruence. unfold lex_le in *. lia.
           ++ intros w i' [= <- <-]. exact H4.
        -- destruct IH as [H1 _]. discriminate.
    + specialize (IH (Some (prevTile, i))).
      destruct (scan_worst tiles cutoff i (Some (prevTile, i))) as [[v iv]|].
      * destruct IH as (H1 & H2 & H3 & H4); [intros ? ? [= <- <-]; auto|].
        specialize (H4 _ _ eq_refl).
        repeat split; auto; [|discriminate].
        intros j t Hj Ht Hat. last_index j i; [|eauto].
        replace t with prevTile by congruence. exact H4.
      * destruct IH as [H1 _]; [intros ? ? [= <- <-]; auto|]. discriminate.
Qed.


(** ** TileCache: zombies are evicted first *)

Lemma liftW_run {A} (m : M World A) s o w' :
  m (world s) = (o, w') -> liftW m s = (o, mkSys (cache s) w').
Proof. intros H. unfold liftW. now rewrite H. Qed.

Lemma prop_delete_absent {V} k (o : list (string * V)) :
  ~ In k (map fst o) -> prop_delete k o = o.
Proof.
  induction o as [|[k' v] o IH]; cbn; intros H; [reflexivity|].
  destruct (String.eqb k k') eqn:E.
  - apply String.eqb_eq in E. subst. tauto.
  - f_equal. apply IH. tauto.
Qed.

Lemma prop_delete_head {V} k (v : V) o :
  NoDup (map fst ((k, v) :: o)) -> prop_delete k ((k, v) :: o) = o.
Proof.
  intros H. cbn. rewrite String.eqb_refl. apply prop_delete_absent.
  cbn in H. apply NoDup_cons in H as [H _].
  intros Hin. apply H. now apply list_elem_of_In.
Qed.

(** [destroy()] returns on a record that is loaded or has a ready handle; it
    changes that record only, marks it destroyed, and unloads no tile. *)
Lemma destroy_runs w this r :
  records w !! this = Some r ->
  loaded r = true \/ is_Some (_promise r) ->
  exists w' r',
    destroy this w = (Ret tt, w') /\
    records w' = <[this := r']> (records w) /\
    _destroyed r' = true /\ loaded r' = false /\
    unloaded_tiles (trace w') = unloaded_tiles (trace w).
Proof.
  intros Hr Hok. unfold destroy, bind.
  rewrite (update_at _ _ _ _ Hr).
  erewrite this_at by (cbn; eapply lookup_updated; exact Hr).
  cbn. destruct (loaded r) eqn:Hl.
  - unfold bind, emit, modify. cbn.
    erewrite update_at by (cbn; eapply lookup_updated; exact Hr). cbn.
    erewrite update_at by (cbn; eapply lookup_updated; eapply lookup_updated; exact Hr).
    cbn. rewrite !list_insert_insert_eq.
    eexists _, _. split; [reflexivity|]. cbn. split; [reflexivity|].
    cbn. repeat split.
    unfold unloaded_tiles. rewrite omap_app. cbn. now rewrite app_nil_r.
  - destruct Hok as [Hok|[p Hp]]; [discriminate|]. rewrite Hp.
    unfold then_, new_promise, bind, modify, ret. cbn.
    erewrite update_at by (cbn; eapply lookup_updated; exact Hr). cbn.
    rewrite !list_insert_insert_eq.
    eexists _, _. split; [reflexivity|]. cbn. split; [reflexivity|].
    cbn. repeat split.
Qed.


(** ** TileCache.cacheTile on a key that has a record *)

Lemma find_index_existsb {A} (f : A -> bool) l :
  existsb f l = true -> exists i, find_index f l = Some i.
Proof.
  induction l as [|a l IH]; cbn; [discriminate|].
  destruct (f a); [eauto|]. cbn. intros H. destruct (IH H) as [i ->]. cbn. eauto.
Qed.

(** [addTile] on a record that is not destroyed attaches the tile, whatever
    the data; a loaded record keeps its payload and format. *)
Lemma addTile_attaches w this r ts tile data type :
  records w !! this = Some r -> _destroyed r = false -> _tiles r = Some ts ->
  exists w' r' ts',
    addTile this tile data type w = (Ret tt, w') /\
    records w' = <[this := r']> (records w) /\
    _tiles r' = Some (ts' ++ [tile]) /\ _destroyed r' = false /\
    (loaded r = true -> _data r' = _data r /\ _type r' = _type r) /\
    (loaded r = true \/ existsb (Tile.same tile) ts = false -> loaded r' = true) /\
    trace w' = trace w /\ convertor w' = convertor w.
Proof.
  intros Hr Hd Ht. unfold addTile, bind. rewrite (this_at _ _ _ Hr), Hd, Ht.
  destruct (existsb (Tile.same tile) ts) eqn:Hin.
  - destruct (find_index_existsb _ _ Hin) as [i Hi].
    unfold removeTile, bind. rewrite (this_at _ _ _ Hr), Hd, Ht, Hi.
    rewrite (update_at _ _ _ _ Hr). cbn.
    unfold push_tile, bind.
    erewrite this_at by (cbn; eapply lookup_updated; exact Hr). cbn.
    erewrite update_at by (cbn; eapply lookup_updated; exact Hr). cbn.
    rewrite list_insert_insert_eq.
    eexists _, _, _. split; [reflexivity|]. cbn. split; [reflexivity|].
    cbn. repeat split; auto. intros [H|H]; [exact H | discriminate H].
  - destruct (loaded r) eqn:Hl; cbn.
    + unfold push_tile, bind. rewrite (this_at _ _ _ Hr), Ht.
      rewrite (update_at _ _ _ _ Hr).
      eexists _, _, _. split; [reflexivity|]. cbn. split; [reflexivity|].
      cbn. repeat split; auto.
    + unfold bind, promise_resolve, new_promise. cbn.
      erewrite update_at by (cbn; exact Hr). cbn.
      unfold push_tile, bind.
      erewrite this_at by (cbn; eapply lookup_updated; exact Hr). cbn. rewrite Ht.
      erewrite update_at by (cbn; eapply lookup_updated; exact Hr). cbn.
      rewrite list_insert_insert_eq.
      eexists _, _, _. split; [reflexivity|]. cbn. split; [reflexivity|].
      cbn. repeat split; auto; discriminate.
Qed.

Lemma logged_nil w : logged [] w = w.
Proof. destruct w. unfold logged, set_trace. cbn. now rewrite app_nil_r. Qed.

Lemma logged_logged d1 d2 w : logged d2 (logged d1 w) = logged (d1 ++ d2) w.
Proof. unfold logged, set_trace. cbn. now rewrite app_assoc. Qed.

Lemma liftW_assert b msg s :
  liftW (console_assert b msg) s
  = (Ret tt, mkSys (cache s) (logged (if b then [] else [Log LAssert msg]) (world s))).
Proof.
  unfold liftW, console_assert, when. destruct b; cbn; [|reflexivity].
  now rewrite logged_nil.
Qed.



(** The rest of [cacheTile_attach] once [cacheRecord] is known. *)
Lemma attach_tail c w options ref r ts data :
  records w !! ref = Some r -> _destroyed r = false -> _tiles r = Some ts ->
  exists w' r' ts' delta,
    (dataType <-
       (if negb (truthy (Options.dataType options)) then
          liftW (console_error "[TileCache.cacheTile] options.dataType is newly required.");;
          liftW (emit (RegGuessType data));;
          w <- liftW get;;
          ret (guessType (convertor w) data)
        else ret (Options.dataType options));;
     liftW (addTile ref (Options.tile options) data dataType);;
     (if String.eqb (cacheKey_of options) (Tile.cacheKey (Options.tile options)) then
        liftW (emit (NeedsDraw (TiledImage.id (Tile.tiledImage (Options.tile options)))))
      else ret tt);;
     ret ref) (mkSys c w)
    = (Ret ref, mkSys c w') /\
    records w' = <[ref := r']> (records w) /\
    _tiles r' = Some (ts' ++ [Options.tile options]) /\ _destroyed r' = false /\
    (loaded r = true -> _data r' = _data r /\ _type r' = _type r) /\
    (loaded r = true \/ existsb (Tile.same (Options.tile options)) ts = false ->
     loaded r' = true) /\
    trace w' = trace w ++ delta /\ ~ In (Log LAssert data_required) delta.
Proof.
  intros Hr Hd Ht.
  set (d2 := if negb (truthy (Options.dataType options)) then
               [Log LError "[TileCache.cacheTile] options.dataType is newly required.";
                RegGuessType data]
             else []).
  set (dataType := if negb (truthy (Options.dataType options)) then
                     guessType (convertor w) data
                   else Options.dataType options).
  destruct (addTile_attaches (logged d2 w) ref r ts (Options.tile options) data dataType)
    as (w' & r' & ts' & Hadd & Hrecs & Htiles & Hdes & Hkeep & Hload & Htr & _); auto.
  set (d3 := if String.eqb (cacheKey_of options) (Tile.cacheKey (Options.tile options))
             then [NeedsDraw (TiledImage.id (Tile.tiledImage (Options.tile options)))] else []).
  exists (logged d3 w'), r', ts', (d2 ++ d3).
  split.
  { unfold bind at 1.
    assert (Hdt : (if negb (truthy (Options.dataType options))
         then
          liftW
            (console_error "[TileCache.cacheTile] options.dataType is newly required.");;
          liftW (emit (RegGuessType data));;
          w0 <- liftW get;;
          ret (guessType (convertor w0) data)
         else ret (Options.dataType options))
        (mkSys c w)
        = (Ret dataType, mkSys c (logged d2 w))).
    { subst d2 dataType. destruct (negb (truthy (Options.dataType options))).
      - cbn. unfold logged, set_trace. cbn. now rewrite <- !app_assoc.
      - cbn. now rewrite logged_nil. }
    rewrite Hdt. unfold bind at 1. erewrite liftW_run by exact Hadd.
    unfold bind at 1. subst d3.
    destruct (String.eqb (cacheKey_of options) (Tile.cacheKey (Options.tile options))).
    - reflexivity.
    - cbn. now rewrite logged_nil. }
  split; [exact Hrecs|]. split; [exact Htiles|]. split; [exact Hdes|].
  split; [exact Hkeep|]. split; [exact Hload|]. split.
  { cbn. rewrite Htr. cbn. now rewrite <- !app_assoc. }
  intros Hin. apply in_app_or in Hin as [Hin|Hin].
  { unfold d2 in Hin.
    destruct (negb (truthy (Options.dataType options))); cbn in Hin; intuition discriminate. }
  unfold d3 in Hin.
  destruct (String.eqb (cacheKey_of options) (Tile.cacheKey (Options.tile options)));
    cbn in Hin; intuition discriminate.
Qed.

(** [cacheTile_attach] on a key whose record is not destroyed: the cache
    object itself does not change. *)
Lemma cacheTile_attach_found s options ref r ts :
  getCacheRecord (cache s) (cacheKey_of options) = Some ref ->
  record_at s ref = Some r -> _destroyed r = false -> _tiles r = Some ts ->
  exists w' r' ts' delta,
    cacheTile_attach options s = (Ret ref, mkSys (cache s) w') /\
    records w' = <[ref := r']> (records (world s)) /\
    _tiles r' = Some (ts' ++ [Options.tile options]) /\ _destroyed r' = false /\
    (loaded r = true -> _data r' = _data r /\ _type r' = _type r) /\
    (loaded r = true \/ existsb (Tile.same (Options.tile options)) ts = false ->
     loaded r' = true) /\
    trace w' = trace (world s) ++ delta /\ ~ In (Log LAssert data_required) delta.
Proof.
  intros Hfound Hr Hd Ht. unfold record_at in Hr.
  unfold cacheTile_attach. unfold bind at 1. rewrite liftW_assert.
  set (d1 := if negb (String.eqb (Tile.cacheKey (Options.tile options)) "") then []
             else [Log LAssert "[TileCache.cacheTile] options.tile.cacheKey is required"]).
  unfold bind at 1. cbn [this_cache cache world fst snd]. rewrite Hfound.
  unfold bind at 1. unfold bind at 1. unfold bind at 1.
  erewrite liftW_run by (apply this_at; cbn; exact Hr).
  cbn [cache world fst snd]. rewrite Hd. cbn [ret fst snd cache world].
  destruct (attach_tail (cache s) (logged d1 (world s)) options ref r ts (Options.data options))
    as (w' & r' & ts' & delta & Hrun & Hrecs & Htiles & Hdes & Hkeep & Hload & Htr & Hdelta);
    auto.
  exists w', r', ts', (d1 ++ delta).
  split; [exact Hrun|]. split; [exact Hrecs|]. split; [exact Htiles|].
  split; [exact Hdes|]. split; [exact Hkeep|]. split; [exact Hload|]. split.
  { rewrite Htr. cbn. now rewrite <- app_assoc. }
  intros Hin. apply in_app_or in Hin as [Hin|Hin]; [|tauto].
  unfold d1 in Hin.
  destruct (negb (String.eqb (Tile.cacheKey (Options.tile options)) "")); cbn in Hin;
    intuition discriminate.
Qed.



(** ** The representation invariant is kept by every operation *)

(** *** The laws of the property maps *)

Section PropertyMaps.
Context {V : Type}.
Implicit Types (k : string) (v : V) (o : list (string * V)).

Lemma get_set_eq k (v : V) o : prop_get k (prop_set k v o) = Some v.
Proof.
  induction o as [|[k' v'] o IH]; cbn.
  - now rewrite String.eqb_refl.
  - destruct (String.eqb k k') eqn:E; cbn; rewrite ?String.eqb_refl, ?E; auto.
Qed.

Lemma get_set_ne k k' (v : V) o :
  k <> k' -> prop_get k' (prop_set k v o) = prop_get k' o.
Proof.
  intros Hne. induction o as [|[k0 v0] o IH]; cbn.
  - apply String.eqb_neq in Hne. rewrite String.eqb_sym in Hne. now rewrite Hne.
  - destruct (String.eqb k k0) eqn:E; cbn.
    + apply String.eqb_eq in E. subst k0.
      apply String.eqb_neq in Hne. rewrite String.eqb_sym in Hne. now rewrite Hne.
    + now rewrite IH.
Qed.

Lemma get_delete_eq k (o : list (string * V)) : prop_get k (prop_delete k o) = None.
Proof.
  induction o as [|[k' v'] o IH]; cbn; [reflexivity|].
  destruct (String.eqb k k') eqn:E; cbn; rewrite ?E; auto.
Qed.

Lemma get_delete_ne k k' (o : list (string * V)) :
  k <> k' -> prop_get k' (prop_delete k o) = prop_get k' o.
Proof.
  intros Hne. induction o as [|[k0 v0] o IH]; cbn; [reflexivity|].
  destruct (String.eqb k k0) eqn:E; cbn.
  - apply String.eqb_eq in E. subst k0.
    apply String.eqb_neq in Hne. rewrite String.eqb_sym in Hne. now rewrite Hne.
  - now rewrite IH.
Qed.

Lemma get_None_keys k (o : list (string * V)) :
  prop_get k o = None <-> ~ In k (map fst o).
Proof.
  induction o as [|[k' v'] o IH]; cbn; [tauto|].
  destruct (String.eqb k k') eqn:E.
  - apply String.eqb_eq in E. subst. split; [discriminate | tauto].
  - apply String.eqb_neq in E. rewrite IH. split; [intros H [H'|H']; auto | tauto].
Qed.

Lemma In_get k (v : V) o :
  NoDup (map fst o) -> In (k, v) o -> prop_get k o = Some v.
Proof.
  induction o as [|[k' v'] o IH]; cbn; [tauto|].
  intros [Hk Hnd]%NoDup_cons [[= -> ->]|Hin].
  - now rewrite String.eqb_refl.
  - destruct (String.eqb k k') eqn:E; [|auto].
    apply String.eqb_eq in E. subst. exfalso. apply Hk, list_elem_of_In.
    change k' with (fst (k', v)). now apply in_map.
Qed.

Lemma prop_set_fresh k (v : V) o :
  prop_get k o = None -> prop_set k v o = o ++ [(k, v)].
Proof.
  induction o as [|[k' v'] o IH]; cbn; [reflexivity|].
  destruct (String.eqb k k'); [discriminate|]. intros H. now rewrite IH.
Qed.

Lemma keys_delete k (o : list (string * V)) k' :
  In k' (map fst (prop_delete k o)) -> In k' (map fst o).
Proof.
  induction o as [|[k0 v0] o IH]; cbn; [tauto|].
  destruct (String.eqb k k0); cbn; tauto.
Qed.

Lemma NoDup_delete k (o : list (string * V)) :
  NoDup (map fst o) -> NoDup (map fst (prop_delete k o)).
Proof.
  induction o as [|[k0 v0] o IH]; cbn; [auto|].
  intros [Hk Hnd]%NoDup_cons. destruct (String.eqb k k0); cbn; [auto|].
  apply NoDup_cons. split; [|auto].
  intros Hin%list_elem_of_In%keys_delete. now apply Hk, list_elem_of_In.
Qed.

Lemma length_delete k (v : V) o :
  NoDup (map fst o) -> prop_get k o = Some v ->
  S (length (prop_delete k o)) = length o.
Proof.
  induction o as [|[k0 v0] o IH]; cbn; [discriminate|].
  intros [Hk Hnd]%NoDup_cons. destruct (String.eqb k k0) eqn:E.
  - intros _. apply String.eqb_eq in E. subst k0.
    rewrite prop_delete_absent; [reflexivity|].
    intros Hin. now apply Hk, list_elem_of_In.
  - intros H. cbn. f_equal. auto.
Qed.

Lemma NoDup_set_fresh k (v : V) o :
  NoDup (map fst o) -> prop_get k o = None -> NoDup (map fst (prop_set k v o)).
Proof.
  intros Hnd Hk. rewrite prop_set_fresh by assumption.
  rewrite map_app. cbn. apply NoDup_app. split; [assumption|].
  split; [|apply NoDup_singleton].
  intros x Hx [->|[]]%list_elem_of_In. apply get_None_keys in Hk.
  now apply Hk, list_elem_of_In.
Qed.

End PropertyMaps.

(** The invariant reads the two maps, the two counts and the record heap
    only. *)
Lemma wf_frame s s' :
  well_formed s ->
  _cachesLoaded (cache s') = _cachesLoaded (cache s) ->
  _cachesLoadedCount (cache s') = _cachesLoadedCount (cache s) ->
  _zombiesLoaded (cache s') = _zombiesLoaded (cache s) ->
  _zombiesLoadedCount (cache s') = _zombiesLoadedCount (cache s) ->
  records (world s') = records (world s) ->
  well_formed s'.
Proof.
  intros [] Hc1 Hc2 Hc3 Hc4 Hr.
  split; unfold live_counted, record_at, getCacheRecord in *;
    rewrite ?Hc1, ?Hc2, ?Hc3, ?Hc4, ?Hr; auto.
Qed.

Lemma removeTile_runs w this r ts tile :
  records w !! this = Some r -> _destroyed r = false -> _tiles r = Some ts ->
  (exists i, (i < length ts)%nat /\
     removeTile this tile w
     = (Ret true, set_records (<[this := set_tiles (Some (delete i ts)) r]> (records w)) w)) \/
  removeTile this tile w
  = (Ret false, logged [Log LWarn "[CacheRecord.removeTile] trying to remove unknown tile"] w).
Proof.
  intros Hr Hd Ht. unfold removeTile, bind. rewrite (this_at _ _ _ Hr), Hd, Ht.
  destruct (find_index (Tile.same tile) ts) as [i|] eqn:Hi.
  - left. exists i. rewrite (update_at _ _ _ _ Hr). split; [|reflexivity].
    clear -Hi. revert i Hi. induction ts as [|t ts IH]; cbn; [discriminate|].
    destruct (Tile.same tile t); intros i Hi.
    + injection Hi as <-. lia.
    + destruct (find_index (Tile.same tile) ts); [|discriminate].
      injection Hi as <-. specialize (IH _ eq_refl). lia.
  - right. reflexivity.
Qed.

Lemma getCacheRecord_live c k ref :
  prop_get k (_cachesLoaded c) = Some ref -> getCacheRecord c k = Some ref.
Proof. unfold getCacheRecord. now intros ->. Qed.

Lemma getCacheRecord_zombie s k ref :
  well_formed s -> prop_get k (_zombiesLoaded (cache s)) = Some ref ->
  getCacheRecord (cache s) k = Some ref.
Proof.
  intros Hwf Hz. unfold getCacheRecord.
  destruct (prop_get k (_cachesLoaded (cache s))) eqn:Hl; [|exact Hz].
  rewrite (wf_disjoint _ Hwf k) in Hz; [discriminate | eauto].
Qed.

Lemma sound_lookup s k ref :
  well_formed s -> getCacheRecord (cache s) k = Some ref ->
  exists r ts, records (world s) !! ref = Some r /\ _destroyed r = false /\
               loaded r = true /\ _tiles r = Some ts.
Proof.
  intros Hwf Hk. destruct (wf_sound _ Hwf k ref Hk) as (r & Hr & Hd & Hl & [ts Ht]).
  exists r, ts. auto.
Qed.

(** One record changes and stays sound. *)
Lemma wf_update s ref r r1 w' :
  well_formed s -> record_at s ref = Some r -> sound_record r1 ->
  (forall k, prop_get k (_cachesLoaded (cache s)) = Some ref -> (1 <= tileCount r1)%nat) ->
  records w' = <[ref := r1]> (records (world s)) ->
  well_formed (mkSys (cache s) w').
Proof.
  intros Hwf Hr Hs Hc Hrec. unfold record_at in Hr.
  destruct Hwf as [H1 H2 H3 H4 H5 H6 H7 H8].
  split; cbn; auto.
  - intros k ref' Hk. unfold record_at. cbn. rewrite Hrec.
    destruct (decide (ref = ref')) as [<-|Hne].
    + exists r1. split; [eapply lookup_updated; eauto | exact Hs].
    + rewrite list_lookup_insert_ne by exact Hne. exact (H7 k ref' Hk).
  - intros k ref' Hk. unfold record_at. cbn. rewrite Hrec.
    destruct (decide (ref = ref')) as [<-|Hne].
    + exists r1. split; [eapply lookup_updated; eauto | eauto].
    + rewrite list_lookup_insert_ne by exact Hne. exact (H8 k ref' Hk).
Qed.

(** A live record leaves the cache. *)
Lemma wf_drop_live s key ref r1 w' :
  well_formed s -> prop_get key (_cachesLoaded (cache s)) = Some ref ->
  records w' = <[ref := r1]> (records (world s)) ->
  well_formed
    (mkSys (set_caches (prop_delete key (_cachesLoaded (cache s)))
                       (_cachesLoadedCount (cache s) - 1) (cache s)) w').
Proof.
  intros Hwf Hk Hrec. pose proof (getCacheRecord_live _ _ _ Hk) as Hg.
  destruct Hwf as [H1 H2 H3 H4 H5 H6 H7 H8].
  assert (Hget : forall k ref',
            getCacheRecord (set_caches (prop_delete key (_cachesLoaded (cache s)))
                              (_cachesLoadedCount (cache s) - 1) (cache s)) k = Some ref' ->
            k <> key /\ getCacheRecord (cache s) k = Some ref').
  { intros k ref'. unfold getCacheRecord. cbn.
    destruct (decide (key = k)) as [<-|Hne].
    - rewrite get_delete_eq, (H5 key) by eauto. discriminate.
    - rewrite get_delete_ne by exact Hne. auto. }
  assert (Hother : forall k ref', k <> key -> getCacheRecord (cache s) k = Some ref' ->
                                  ref <> ref').
  { intros k ref' Hne Hk' <-. apply Hne. eapply H6; eauto. }
  split; cbn.
  - rewrite H1. pose proof (length_delete _ _ _ H3 Hk). lia.
  - exact H2.
  - now apply NoDup_delete.
  - exact H4.
  - intros k [x Hx]. apply H5. destruct (decide (key = k)) as [<-|Hne].
    + now rewrite get_delete_eq in Hx.
    + rewrite get_delete_ne in Hx by exact Hne. eauto.
  - intros k1 k2 ref' Ha Hb. apply Hget in Ha as [_ Ha]. apply Hget in Hb as [_ Hb]. eauto.
  - intros k ref' Ha. apply Hget in Ha as [Hne Ha].
    unfold record_at. cbn. rewrite Hrec.
    rewrite list_lookup_insert_ne by (eapply Hother; eauto). exact (H7 k ref' Ha).
  - intros k ref' Ha. cbn in Ha. destruct (decide (key = k)) as [<-|Hne].
    + now rewrite get_delete_eq in Ha.
    + rewrite get_delete_ne in Ha by exact Hne.
      unfold record_at. cbn. rewrite Hrec.
      rewrite list_lookup_insert_ne
        by (apply (Hother k ref'); [congruence | now apply getCacheRecord_live]).
      exact (H8 k ref' Ha).
Qed.

(** A live record becomes a zombie. *)
Lemma wf_to_zombie s key ref r1 w' :
  well_formed s -> prop_get key (_cachesLoaded (cache s)) = Some ref ->
  sound_record r1 ->
  records w' = <[ref := r1]> (records (world s)) ->
  well_formed
    (mkSys (set_caches (prop_delete key (_cachesLoaded (cache s)))
                       (_cachesLoadedCount (cache s) - 1)
              (set_zombies (prop_set key ref (_zombiesLoaded (cache s)))
                           (_zombiesLoadedCount (cache s) + 1) (cache s))) w').
Proof.
  intros Hwf Hk Hs Hrec. pose proof (getCacheRecord_live _ _ _ Hk) as Hg.
  destruct (sound_lookup _ _ _ Hwf Hg) as (r & ts & Hr & _).
  destruct Hwf as [H1 H2 H3 H4 H5 H6 H7 H8].
  assert (Hz : prop_get key (_zombiesLoaded (cache s)) = None) by (apply H5; eauto).
  assert (Hget : forall k,
            getCacheRecord (set_caches (prop_delete key (_cachesLoaded (cache s)))
                              (_cachesLoadedCount (cache s) - 1)
                              (set_zombies (prop_set key ref (_zombiesLoaded (cache s)))
                                 (_zombiesLoadedCount (cache s) + 1) (cache s))) k
            = getCacheRecord (cache s) k).
  { intros k. unfold getCacheRecord. cbn.
    destruct (decide (key = k)) as [<-|Hne].
    - now rewrite get_delete_eq, get_set_eq, Hk.
    - now rewrite get_delete_ne, get_set_ne by exact Hne. }
  split; cbn.
  - rewrite H1. pose proof (length_delete _ _ _ H3 Hk). lia.
  - rewrite prop_set_fresh by exact Hz. rewrite length_app. cbn. lia.
  - now apply NoDup_delete.
  - now apply NoDup_set_fresh.
  - intros k [x Hx]. destruct (decide (key = k)) as [<-|Hne].
    + now rewrite get_delete_eq in Hx.
    + rewrite get_delete_ne in Hx by exact Hne.
      rewrite get_set_ne by exact Hne. apply H5. eauto.
  - intros k1 k2 ref'. rewrite !Hget. apply H6.
  - intros k ref'. rewrite Hget. intros Ha.
    unfold record_at. cbn. rewrite Hrec.
    destruct (decide (ref = ref')) as [<-|Hne].
    + exists r1. split; [eapply lookup_updated; eauto | exact Hs].
    + rewrite list_lookup_insert_ne by exact Hne. exact (H7 k ref' Ha).
  - intros k ref' Ha. cbn in Ha. destruct (decide (key = k)) as [<-|Hne].
    + now rewrite get_delete_eq in Ha.
    + rewrite get_delete_ne in Ha by exact Hne.
      unfold record_at. cbn. rewrite Hrec.
      rewrite list_lookup_insert_ne.
      * exact (H8 k ref' Ha).
      * intros <-. apply Hne. eapply H6; [exact Hg | now apply getCacheRecord_live].
Qed.

(** A zombie record leaves the cache. *)
Lemma wf_drop_zombie s key ref r1 w' n :
  well_formed s -> prop_get key (_zombiesLoaded (cache s)) = Some ref ->
  records w' = <[ref := r1]> (records (world s)) ->
  n = Z.of_nat (length (prop_delete key (_zombiesLoaded (cache s)))) ->
  well_formed
    (mkSys (set_zombies (prop_delete key (_zombiesLoaded (cache s))) n (cache s)) w').
Proof.
  intros Hwf Hk Hrec Hn. pose proof (getCacheRecord_zombie _ _ _ Hwf Hk) as Hg.
  destruct Hwf as [H1 H2 H3 H4 H5 H6 H7 H8].
  assert (Hl : prop_get key (_cachesLoaded (cache s)) = None).
  { destruct (prop_get key (_cachesLoaded (cache s))) eqn:E; [|reflexivity].
    rewrite (H5 key) in Hk by eauto. discriminate. }
  assert (Hget : forall k ref',
            getCacheRecord (set_zombies (prop_delete key (_zombiesLoaded (cache s))) n
                              (cache s)) k = Some ref' ->
            k <> key /\ getCacheRecord (cache s) k = Some ref').
  { intros k ref'. unfold getCacheRecord. cbn.
    destruct (decide (key = k)) as [<-|Hne].
    - rewrite Hl, get_delete_eq. discriminate.
    - rewrite get_delete_ne by exact Hne. auto. }
  assert (Hother : forall k ref', k <> key -> getCacheRecord (cache s) k = Some ref' ->
                                  ref <> ref').
  { intros k ref' Hne Hk' <-. apply Hne. eapply H6; eauto. }
  split; cbn.
  - exact H1.
  - exact Hn.
  - exact H3.
  - now apply NoDup_delete.
  - intros k Hx. destruct (decide (key = k)) as [<-|Hne].
    + apply get_delete_eq.
    + rewrite get_delete_ne by exact Hne. now apply H5.
  - intros k1 k2 ref' Ha Hb. apply Hget in Ha as [_ Ha]. apply Hget in Hb as [_ Hb]. eauto.
  - intros k ref' Ha. apply Hget in Ha as [Hne Ha].
    unfold record_at. cbn. rewrite Hrec.
    rewrite list_lookup_insert_ne by (eapply Hother; eauto). exact (H7 k ref' Ha).
  - intros k ref' Ha. cbn in Ha.
    unfold record_at. cbn. rewrite Hrec.
    rewrite list_lookup_insert_ne.
    + exact (H8 k ref' Ha).
    + apply (Hother k ref'); [congruence | now apply getCacheRecord_live].
Qed.

(** A new record enters the live map. *)
Lemma wf_create s key r1 w' :
  well_formed s -> getCacheRecord (cache s) key = None ->
  sound_record r1 -> (1 <= tileCount r1)%nat ->
  records w' = records (world s) ++ [r1] ->
  well_formed
    (mkSys (set_caches (prop_set key (length (records (world s))) (_cachesLoaded (cache s)))
                       (_cachesLoadedCount (cache s) + 1) (cache s)) w').
Proof.
  intros Hwf Hk Hs Hc Hrec.
  assert (Hl : prop_get key (_cachesLoaded (cache s)) = None).
  { unfold getCacheRecord in Hk. now destruct (prop_get key (_cachesLoaded (cache s))). }
  assert (Hz : prop_get key (_zombiesLoaded (cache s)) = None).
  { unfold getCacheRecord in Hk. now rewrite Hl in Hk. }
  assert (Hlt : forall k ref, getCacheRecord (cache s) k = Some ref ->
                              (ref < length (records (world s)))%nat).
  { intros k ref Ha. destruct (wf_sound _ Hwf k ref Ha) as (r & Hr & _).
    eapply lookup_lt_Some; exact Hr. }
  destruct Hwf as [H1 H2 H3 H4 H5 H6 H7 H8].
  assert (Hget : forall k ref',
            getCacheRecord (set_caches
                              (prop_set key (length (records (world s)))
                                        (_cachesLoaded (cache s)))
                              (_cachesLoadedCount (cache s) + 1) (cache s)) k = Some ref' ->
            (k = key /\ ref' = length (records (world s))) \/
            (k <> key /\ getCacheRecord (cache s) k = Some ref')).
  { intros k ref'. unfold getCacheRecord. cbn.
    destruct (decide (key = k)) as [<-|Hne].
    - rewrite get_set_eq. intros [= <-]. now left.
    - rewrite get_set_ne by exact Hne. intros H. right. auto. }
  split; cbn.
  - rewrite prop_set_fresh by exact Hl. rewrite length_app. cbn. lia.
  - exact H2.
  - now apply NoDup_set_fresh.
  - exact H4.
  - intros k [x Hx]. destruct (decide (key = k)) as [<-|Hne]; [exact Hz|].
    rewrite get_set_ne in Hx by exact Hne. apply H5. eauto.
  - intros k1 k2 ref' Ha Hb.
    apply Hget in Ha as [[-> ->]|[Hn1 Ha]]; apply Hget in Hb as [[-> Hb]|[Hn2 Hb]]; auto.
    + apply Hlt in Hb. lia.
    + apply Hlt in Ha. lia.
    + eauto.
  - intros k ref' Ha. unfold record_at. cbn. rewrite Hrec.
    apply Hget in Ha as [[-> ->]|[Hne Ha]].
    + exists r1. rewrite lookup_app_r by lia. rewrite Nat.sub_diag. auto.
    + rewrite lookup_app_l by (eapply Hlt; eauto). exact (H7 k ref' Ha).
  - intros k ref' Ha. cbn in Ha. unfold record_at. cbn. rewrite Hrec.
    destruct (decide (key = k)) as [<-|Hne].
    + rewrite get_set_eq in Ha. injection Ha as <-.
      exists r1. rewrite lookup_app_r by lia. rewrite Nat.sub_diag. auto.
    + rewrite get_set_ne in Ha by exact Hne.
      rewrite lookup_app_l by (apply (Hlt k); now apply getCacheRecord_live).
      exact (H8 k ref' Ha).
Qed.

Lemma unloaded_logged d w :
  unloaded_tiles (trace (logged d w)) = unloaded_tiles (trace w) ++ unloaded_tiles d.
Proof. unfold unloaded_tiles. cbn. apply omap_app. Qed.

(** In a well-formed state [unloadCacheForTile] returns, keeps the invariant
    and reports no unloaded tile. *)
Lemma unloadCacheForTile_wf tile key d s :
  well_formed s ->
  exists b s', unloadCacheForTile tile key d s = (Ret b, s') /\ well_formed s' /\
               unloaded_tiles (trace (world s')) = unloaded_tiles (trace (world s)).
Proof.
  intros Hwf. unfold unloadCacheForTile. unfold bind at 1. cbn [this_cache].
  destruct (prop_get key (_cachesLoaded (cache s))) as [ref|] eqn:Hk.
  2:{ eexists _, _. split; [reflexivity|]. split.
      - eapply wf_frame; [exact Hwf | ..]; reflexivity.
      - cbn [world]. rewrite unloaded_logged. apply app_nil_r. }
  destruct (sound_lookup _ _ _ Hwf (getCacheRecord_live _ _ _ Hk))
    as (r & ts & Hr & Hd & Hl & Ht).
  unfold bind at 1.
  destruct (removeTile_runs (world s) ref r ts tile Hr Hd Ht) as [(i & Hi & Hrm)|Hrm];
    erewrite liftW_run by exact Hrm.
  2:{ eexists _, _. split; [reflexivity|]. split.
      - eapply wf_frame; [exact Hwf | ..]; reflexivity.
      - cbn [world cache]. rewrite !unloaded_logged. cbn. now rewrite !app_nil_r. }
  set (r1 := set_tiles (Some (delete i ts)) r).
  assert (Hs1 : sound_record r1) by (repeat split; cbn; eauto).
  unfold bind at 1. unfold bind at 1. unfold getTileCount, bind at 1.
  erewrite liftW_run by (erewrite this_at by (cbn; eapply lookup_updated; exact Hr); reflexivity).
  cbn [ret]. change (tileCount r1) with (length (delete i ts)).
  destruct (length (delete i ts) =? 0)%nat eqn:Hn.
  - (* the record counts no tile any more *)
    destruct d.
    + destruct (destroy_runs
                  (set_records (<[ref := r1]> (records (world s))) (world s)) ref r1)
        as (w2 & r2 & Hdes & Hrec2 & _ & _ & Htr2);
        [cbn; eapply lookup_updated; exact Hr | now left |].
      unfold bind at 1. erewrite liftW_run by exact Hdes.
      cbn in Hrec2. rewrite list_insert_insert_eq in Hrec2.
      eexists _, _. split; [reflexivity|].
      cbn [cache world]. split; [eapply wf_drop_live; eauto | exact Htr2].
    + eexists _, _. split; [reflexivity|].
      cbn [cache world]. split; [eapply (wf_to_zombie s key ref r1); eauto | reflexivity].
  - eexists _, _. split; [reflexivity|]. split; [|reflexivity].
    eapply (wf_update s ref r r1); eauto.
    intros _ _. change (tileCount r1) with (length (delete i ts)).
    apply Nat.eqb_neq in Hn. lia.
Qed.

Lemma unload_caches_wf tile d keys : forall s,
  well_formed s ->
  exists s', unload_caches tile keys d s = (Ret tt, s') /\ well_formed s' /\
             unloaded_tiles (trace (world s')) = unloaded_tiles (trace (world s)).
Proof.
  induction keys as [|key keys IH]; intros s Hwf; cbn [unload_caches].
  - eexists. split; [reflexivity | auto].
  - destruct (unloadCacheForTile_wf tile key d s Hwf) as (b & s1 & Hrun & Hwf1 & Htr1).
    unfold bind at 1. rewrite Hrun. rewrite <- Htr1. exact (IH s1 Hwf1).
Qed.

Lemma unloadTile_wf tile d idx s :
  well_formed s ->
  exists s', unloadTile tile d idx s = (Ret tt, s') /\ well_formed s' /\
             unloaded_tiles (trace (world s'))
             = unloaded_tiles (trace (world s)) ++ [Tile.id tile].
Proof.
  intros Hwf. unfold unloadTile.
  destruct (unload_caches_wf tile d (Tile._caches tile) s Hwf) as (s1 & Hrun & Hwf1 & Htr1).
  unfold bind at 1. rewrite Hrun. rewrite <- Htr1.
  destruct idx as [i|]; (eexists; split; [reflexivity|]); (split;
    [eapply wf_frame; [exact Hwf1 | ..]; reflexivity
    | cbn [world cache]; rewrite !unloaded_logged; cbn; now rewrite app_nil_r]).
Qed.

(** [cacheTile_attach] on a key without record: a new record enters the live
    map, populated with the data and counting the tile. *)
Lemma cacheTile_attach_new s options :
  getCacheRecord (cache s) (cacheKey_of options) = None ->
  exists w' r',
    cacheTile_attach options s
    = (Ret (length (records (world s))),
       mkSys (set_caches (prop_set (cacheKey_of options) (length (records (world s)))
                                   (_cachesLoaded (cache s)))
                         (_cachesLoadedCount (cache s) + 1) (cache s)) w') /\
    records w' = records (world s) ++ [r'] /\
    sound_record r' /\ (1 <= tileCount r')%nat.
Proof.
  intros Hnone.
  unfold cacheTile_attach. unfold bind at 1. rewrite liftW_assert.
  set (d1 := if negb (String.eqb (Tile.cacheKey (Options.tile options)) "") then []
             else [Log LAssert "[TileCache.cacheTile] options.tile.cacheKey is required"]).
  unfold bind at 1. cbn [this_cache cache world fst snd]. rewrite Hnone.
  unfold bind at 1. unfold bind at 1.
  set (data := if strict_eq (Options.data options) VUndefined then Options.image options
               else Options.data options).
  set (d2 := if strict_eq (Options.data options) VUndefined then
               [Log LError "[TileCache.cacheTile] options.image was renamed to options.data."]
             else []).
  assert (Hdata :
    (if strict_eq (Options.data options) VUndefined then
       liftW (console_error "[TileCache.cacheTile] options.image was renamed to options.data.");;
       ret (Options.image options)
     else ret (Options.data options))
      (mkSys (cache s) (logged d1 (world s)))
    = (Ret data, mkSys (cache s) (logged (d1 ++ d2) (world s)))).
  { subst data d2. destruct (strict_eq (Options.data options) VUndefined); cbn.
    - now rewrite logged_logged.
    - now rewrite app_nil_r. }
  rewrite Hdata. unfold bind at 1. rewrite liftW_assert. cbn [cache world].
  rewrite logged_logged.
  match goal with |- context [logged ((d1 ++ d2) ++ ?d) _] => set (d3 := d) end.
  unfold bind at 1. erewrite liftW_run by apply new_CacheRecord_fresh.
  cbn [cache world]. unfold bind at 1. cbn [update_cache modify cache world].
  cbn [ret fst snd].
  set (fresh := mkCacheRecord (Some []) VNull VNull false None false None).
  set (ref := length (records (logged ((d1 ++ d2) ++ d3) (world s)))).
  destruct (attach_tail
              (set_caches (prop_set (cacheKey_of options) ref (_cachesLoaded (cache s)))
                          (_cachesLoadedCount (cache s) + 1) (cache s))
              (set_records (records (logged ((d1 ++ d2) ++ d3) (world s)) ++ [fresh])
                           (logged ((d1 ++ d2) ++ d3) (world s)))
              options ref fresh [] data)
    as (w' & r' & ts' & delta & Hrun & Hrecs & Htiles & Hdes & _ & Hload & _);
    try reflexivity.
  { cbn. rewrite lookup_app_r by (subst ref; cbn; lia).
    subst ref. cbn. now rewrite Nat.sub_diag. }
  exists w', r'. split; [exact Hrun|]. split.
  { rewrite Hrecs. cbn. subst ref. cbn.
    rewrite insert_app_r_alt by lia. now rewrite Nat.sub_diag. }
  split.
  - split; [exact Hdes|]. split; [apply Hload; now right | eauto].
  - unfold tileCount. rewrite Htiles, length_app. cbn. lia.
Qed.

Lemma cacheTile_attach_wf options s :
  well_formed s ->
  exists ref s', cacheTile_attach options s = (Ret ref, s') /\ well_formed s' /\
                 _tilesLoaded (cache s') = _tilesLoaded (cache s) /\
                 (forall ref0, getCacheRecord (cache s) (cacheKey_of options) = Some ref0 ->
                               ref = ref0).
Proof.
  intros Hwf.
  destruct (getCacheRecord (cache s) (cacheKey_of options)) as [ref|] eqn:Hk.
  - destruct (sound_lookup _ _ _ Hwf Hk) as (r & ts & Hr & Hd & Hl & Ht).
    destruct (cacheTile_attach_found s options ref r ts Hk Hr Hd Ht)
      as (w' & r' & ts' & delta & Hrun & Hrecs & Htiles & Hdes & _ & Hload & _).
    exists ref, (mkSys (cache s) w'). split; [exact Hrun|].
    split; [|split; [reflexivity | now intros ref0 [= <-]]].
    eapply (wf_update s ref r r'); eauto.
    + split; [exact Hdes|]. split; [apply Hload; now left | eauto].
    + intros _ _. unfold tileCount. rewrite Htiles, length_app. cbn. lia.
  - destruct (cacheTile_attach_new s options Hk) as (w' & r' & Hrun & Hrecs & Hs & Hc).
    eexists _, _. split; [exact Hrun|].
    split; [|split; [reflexivity | discriminate]].
    eapply wf_create; eauto.
Qed.

Lemma get_head_zombie {V} k (v : V) o : prop_get k ((k, v) :: o) = Some v.
Proof. cbn. now rewrite String.eqb_refl. Qed.

(** In a well-formed state the eviction pass returns and keeps the
    invariant; it reports one unloaded tile, the victim of the scan, exactly
    when the cache overflows without zombie. *)
Lemma cacheTile_evict_wf cutoff s :
  well_formed s ->
  exists o s', cacheTile_evict cutoff s = (Ret o, s') /\ well_formed s' /\
    unloaded_tiles (trace (world s'))
    = unloaded_tiles (trace (world s)) ++
      (if overflows (cache s) && negb (_zombiesLoadedCount (cache s) >? 0) then
         match scan_worst (_tilesLoaded (cache s)) cutoff
                          (length (_tilesLoaded (cache s))) None with
         | Some (victim, _) => [Tile.id victim]
         | None => []
         end
       else []).
Proof.
  intros Hwf. unfold cacheTile_evict. unfold bind at 1. cbn [this_cache].
  destruct (overflows (cache s));
    [|eexists _, _; split; [reflexivity | split; [auto | now rewrite app_nil_r]]].
  destruct (_zombiesLoadedCount (cache s) >? 0); cbn [andb negb].
  - destruct (_zombiesLoaded (cache s)) as [|[zombie z] rest] eqn:Hz;
      [eexists _, _; split; [reflexivity | split; [auto | now rewrite app_nil_r]]|].
    assert (Hzk : prop_get zombie (_zombiesLoaded (cache s)) = Some z)
      by (rewrite Hz; apply get_head_zombie).
    destruct (sound_lookup _ _ _ Hwf (getCacheRecord_zombie _ _ _ Hwf Hzk))
      as (r & ts & Hr & Hd & Hl & Ht).
    destruct (destroy_runs (world s) z r Hr (or_introl Hl))
      as (w' & r' & Hdes & Hrecs & _ & _ & Htr).
    unfold bind at 1. erewrite liftW_run by exact Hdes.
    eexists _, _. split; [reflexivity|].
    cbn [cache world]. split; [|now rewrite app_nil_r].
    eapply wf_drop_zombie; eauto.
    pose proof (length_delete _ _ _ (wf_zombie_keys _ Hwf) Hzk) as Hlen.
    rewrite (wf_zombie_count _ Hwf). lia.
  - destruct (scan_worst (_tilesLoaded (cache s)) cutoff (length (_tilesLoaded (cache s)))
                         None) as [[worstTile worstTileIndex]|];
      [|eexists _, _; split; [reflexivity | split; [auto | now rewrite app_nil_r]]].
    destruct (unloadTile_wf worstTile true None s Hwf) as (s1 & Hrun & Hwf1 & Htr1).
    unfold bind at 1. rewrite Hrun.
    eexists _, _. split; [reflexivity|]. auto.
Qed.

(** In a well-formed state [cacheTile] returns the record its first part
    found or created, and keeps the invariant. *)
Lemma cacheTile_wf options s :
  well_formed s ->
  exists ref s1 s',
    cacheTile_attach options s = (Ret ref, s1) /\
    cacheTile options s = (Ret ref, s') /\ well_formed s' /\
    world s' = world (after (cacheTile_evict (default 0 (Options.cutoff options))) s1).
Proof.
  intros Hwf. unfold cacheTile. unfold bind at 1. cbn [this_cache].
  destruct (cacheTile_attach_wf options s Hwf) as (ref & s1 & Hatt & Hwf1 & _).
  unfold bind at 1. rewrite Hatt.
  destruct (cacheTile_evict_wf (default 0 (Options.cutoff options)) s1 Hwf1)
    as (o & s2 & Hev & Hwf2 & _).
  unfold bind at 1. rewrite Hev.
  unfold bind at 1. unfold cacheTile_record.
  exists ref, s1.
  destruct (Tile.getCacheSize (Options.tile options) =? 0)%nat; [|destruct o];
    (eexists; split; [reflexivity|]; split; [reflexivity|]; split;
     [eapply wf_frame; [exact Hwf2 | ..]; reflexivity
     | unfold after; rewrite Hev; reflexivity]).
Qed.

Lemma destroy_zombies_wf zs : forall s,
  well_formed (recount s) -> _zombiesLoaded (cache s) = zs ->
  exists s',
    destroy_zombies zs s = (Ret tt, s') /\
    well_formed (recount s') /\ _zombiesLoaded (cache s') = [].
Proof.
  induction zs as [|[zombie z] rest IH]; intros s Hwf Hz; cbn [destroy_zombies].
  - eexists. split; [reflexivity|]. auto.
  - assert (Hzk : prop_get zombie (_zombiesLoaded (cache (recount s))) = Some z)
      by (cbn; rewrite Hz; apply get_head_zombie).
    destruct (sound_lookup _ _ _ Hwf (getCacheRecord_zombie _ _ _ Hwf Hzk))
      as (r & ts & Hr & Hd & Hl & Ht).
    destruct (destroy_runs (world s) z r Hr (or_introl Hl))
      as (w' & r' & Hdes & Hrecs & _).
    unfold bind at 1. erewrite liftW_run by exact Hdes.
    unfold bind at 1. cbn [update_cache modify cache world].
    pose proof (wf_zombie_keys _ Hwf) as Hnd. cbn in Hnd.
    assert (Hdel : prop_delete zombie (_zombiesLoaded (cache s)) = rest)
      by (rewrite Hz; apply prop_delete_head; rewrite <- Hz; exact Hnd).
    rewrite Hdel.
    apply IH; [|reflexivity].
    pose proof (wf_drop_zombie (recount s) zombie z r' w'
                  (Z.of_nat (length (prop_delete zombie (_zombiesLoaded (cache s)))))
                  Hwf Hzk Hrecs eq_refl) as Hwf'.
    cbn in Hwf'. rewrite Hdel in Hwf'. exact Hwf'.
Qed.

Lemma clear_loop_wf tiledImage ov n : forall s s',
  well_formed s -> clear_loop tiledImage ov n s = (Ret tt, s') -> well_formed s'.
Proof.
  induction n as [|i IH]; intros s s' Hwf; cbn [clear_loop].
  - now intros [= <-].
  - unfold bind at 1. cbn [this_cache].
    destruct (_tilesLoaded (cache s) !! i) as [tile|]; [|discriminate].
    unfold bind at 1.
    destruct (Nat.eqb (TiledImage.id (Tile.tiledImage tile)) (TiledImage.id tiledImage)).
    + destruct (negb (Tile.loaded tile)).
      * cbn [update_cache modify]. apply IH.
        eapply wf_frame; [exact Hwf | ..]; reflexivity.
      * destruct (unloadTile_wf tile (negb (TiledImage._zombieCache tiledImage) || ov)
                                (Some i) s Hwf) as (s1 & Hrun & Hwf1 & _).
        rewrite Hrun. now apply IH.
    + cbn [ret]. now apply IH.
Qed.

Lemma clearTilesFor_wf tiledImage s s' :
  well_formed s -> clearTilesFor tiledImage s = (Ret tt, s') -> well_formed s'.
Proof.
  intros Hwf. unfold clearTilesFor. unfold bind at 1. cbn [this_cache].
  unfold bind at 1.
  destruct (TiledImage._zombieCache tiledImage && overflows (cache s)
            && (_zombiesLoadedCount (cache s) >? 0)).
  - assert (Hwf0 : well_formed (recount s)).
    { eapply wf_frame; [exact Hwf | ..]; try reflexivity.
      cbn. symmetry. apply (wf_zombie_count _ Hwf). }
    destruct (destroy_zombies_wf (_zombiesLoaded (cache s)) s Hwf0 eq_refl)
      as (s1 & Hrun & Hwf1 & Hz1).
    unfold bind at 1. rewrite Hrun.
    unfold bind at 1. cbn [update_cache modify]. unfold bind at 1. cbn [this_cache ret].
    apply clear_loop_wf.
    eapply wf_frame; [exact Hwf1 | ..]; try reflexivity.
    cbn. now rewrite Hz1.
  - cbn [ret]. now apply clear_loop_wf.
Qed.

Lemma initial_wf maxImageCacheCount c : well_formed (initial maxImageCacheCount c).
Proof.
  split; cbn; try reflexivity; try apply NoDup_nil_2; discriminate.
Qed.

Lemma run_op_wf o s s' :
  well_formed s -> run_op o s = (Ret tt, s') -> well_formed s'.
Proof.
  intros Hwf. destruct o as [options|tile key d|tile d idx|ti]; cbn [run_op].
  - destruct (cacheTile_wf options s Hwf) as (ref & s0 & s1 & _ & Hrun & Hwf1 & _).
    unfold bind. rewrite Hrun. now intros [= <-].
  - destruct (unloadCacheForTile_wf tile key d s Hwf) as (b & s1 & Hrun & Hwf1 & _).
    unfold bind. rewrite Hrun. now intros [= <-].
  - destruct (unloadTile_wf tile d idx s Hwf) as (s1 & Hrun & Hwf1 & _).
    rewrite Hrun. now intros [= <-].
  - now apply clearTilesFor_wf.
Qed.

Lemma run_ops_wf ops : forall s s',
  well_formed s -> run_ops ops s = (Ret tt, s') -> well_formed s'.
Proof.
  induction ops as [|o ops IH]; intros s s' Hwf; cbn [run_ops].
  - now intros [= <-].
  - unfold bind. destruct (run_op o s) as [[[]|e] s1] eqn:Hop; [|discriminate].
    apply IH. eapply run_op_wf; eauto.
Qed.

(** Every state the cache operations reach from a new cache satisfies the
    representation invariant. *)
Lemma reachable_well_formed s : reachable s -> well_formed s.
Proof.
  intros (m & c & ops & Hrun). eapply run_ops_wf; [apply initial_wf | exact Hrun].
Qed.

(** In every reachable state the live records count at least one tile and
    the zombie records are not destroyed: the rest of the invariant of C2. *)
Corollary reachable_live_counted s :
  reachable s ->
  live_counted s /\
  (forall k ref, prop_get k (_zombiesLoaded (cache s)) = Some ref ->
     exists r, record_at s ref = Some r /\ _destroyed r = false).
Proof.
  intros Hwf%reachable_well_formed. split; [apply (wf_live_counted _ Hwf)|].
  intros k ref Hk.
  destruct (wf_sound _ Hwf k ref (getCacheRecord_zombie _ _ _ Hwf Hk)) as (r & Hr & Hd & _).
  eauto.
Qed.

(** So is the hypothesis of C5. *)
Lemma well_formed_zombies_consistent s : well_formed s -> zombies_consistent s.
Proof.
  intros Hwf. split; [apply (wf_zombie_count _ Hwf)|].
  split; [apply (wf_zombie_keys _ Hwf)|].
  intros k z Hin.
  pose proof (In_get _ _ _ (wf_zombie_keys _ Hwf) Hin) as Hk.
  destruct (wf_sound _ Hwf k z (getCacheRecord_zombie _ _ _ Hwf Hk)) as (r & Hr & _ & Hl & _).
  exists r. auto.
Qed.

(** [cacheTile] throws in no reachable state. *)
Lemma cacheTile_returns options s :
  reachable s -> exists ref s', cacheTile options s = (Ret ref, s').
Proof.
  intros Hwf%reachable_well_formed.
  destruct (cacheTile_wf options s Hwf) as (ref & s1 & s' & _ & Hrun & _). eauto.
Qed.

(** ** TileCache.cacheTile: eviction *)

(** The eviction pass on an overflowing cache without zombie: the tile handed
    to [unloadTile] is the least admissible one. *)
Lemma evict_picks_least s cutoff :
  overflows (cache s) = true ->
  (_zombiesLoadedCount (cache s) >? 0) = false ->
  let tiles := _tilesLoaded (cache s) in
  (exists victim i,
     scan_worst tiles cutoff (length tiles) None = Some (victim, i) /\
     tiles !! i = Some victim /\
     admissible cutoff victim = true /\
     (forall j t, tiles !! j = Some t -> admissible cutoff t = true -> lex_le victim t) /\
     cacheTile_evict cutoff s = (unloadTile victim true None;; ret (Some i)) s)
  \/
  (scan_worst tiles cutoff (length tiles) None = None /\
   (forall j t, tiles !! j = Some t -> admissible cutoff t = false) /\
   cacheTile_evict cutoff s = (Ret None, s)).
Proof.
  intros Hov Hz tiles.
  pose proof (scan_worst_spec tiles cutoff (length tiles) None) as Hscan.
  unfold cacheTile_evict, bind, this_cache. rewrite Hov, Hz. fold tiles.
  destruct (scan_worst tiles cutoff (length tiles) None) as [[victim i]|].
  - left. exists victim, i.
    destruct Hscan as (H1 & H2 & H3 & _); [discriminate|].
    repeat split; auto.
    intros j t Ht. apply (H3 j); auto. eapply lookup_lt_Some; eauto.
  - right. destruct Hscan as [_ H]; [discriminate|].
    repeat split.
    intros j t Ht. apply (H j); auto. eapply lookup_lt_Some; eauto.
Qed.

(** The eviction pass on an overflowing cache with zombies. *)
Lemma evict_destroys_first_zombie s cutoff :
  overflows (cache s) = true ->
  _zombiesLoadedCount (cache s) > 0 ->
  zombies_consistent s ->
  exists zombie z rest w' r',
    _zombiesLoaded (cache s) = (zombie, z) :: rest /\
    cacheTile_evict cutoff s
    = (Ret None,
       mkSys (set_zombies rest (_zombiesLoadedCount (cache s) - 1) (cache s)) w') /\
    records w' = <[z := r']> (records (world s)) /\
    _destroyed r' = true /\
    unloaded_tiles (trace w') = unloaded_tiles (trace (world s)).
Proof.
  intros Hov Hpos (Hcount & Hnodup & Hrec).
  destruct (_zombiesLoaded (cache s)) as [|[zombie z] rest] eqn:Hz.
  { cbn in Hcount. lia. }
  destruct (Hrec zombie z) as (r & Hr & Hok); [now left|].
  destruct (destroy_runs (world s) z r Hr Hok) as (w' & r' & Hd & Hrecs & Hdes & _ & Htr).
  exists zombie, z, rest, w', r'.
  split; [reflexivity|]. split; [|auto].
  unfold cacheTile_evict, bind, this_cache. rewrite Hov.
  replace (_zombiesLoadedCount (cache s) >? 0) with true by (symmetry; lia).
  rewrite Hz. rewrite (liftW_run _ _ _ _ Hd).
  unfold update_cache, modify, ret. cbn. rewrite Hz.
  rewrite prop_delete_head by exact Hnodup. reflexivity.
Qed.

(** The three parts of [cacheTile] in sequence. *)
Lemma cacheTile_steps options s ref s1 o s2 :
  cacheTile_attach options s = (Ret ref, s1) ->
  cacheTile_evict (default 0 (Options.cutoff options)) s1 = (Ret o, s2) ->
  exists tilesLoaded',
    cacheTile options s = (Ret ref, mkSys (set_tilesLoaded tilesLoaded' (cache s2)) (world s2)).
Proof.
  intros Hatt Hev. unfold cacheTile. unfold bind at 1. cbn [this_cache].
  unfold bind at 1. rewrite Hatt. unfold bind at 1. rewrite Hev.
  unfold bind at 1. unfold cacheTile_record.
  destruct (Tile.getCacheSize (Options.tile options) =? 0)%nat; [|destruct o];
    cbn; eauto.
  exists (_tilesLoaded (cache s2)). now destruct s2 as [[] ?].
Qed.

(** C4.  When [cacheTile] finds the cache overflowing and the zombie count is
    not positive, the tile its eviction pass hands to
    [unloadTile(victim, true)] is a tile of [tilesLoaded] above the cutoff and
    not being drawn that minimizes (lastTouchTime, -level) lexicographically
    among all such tiles, and nothing is evicted when there is none.  From
    every reachable state the whole call returns and the one tile-unloaded
    event it raises is for that victim.  In scenario S5 (tiles (10,2),
    (10,5), (20,2), cutoff 0) caching a fourth tile unloads exactly tile 2,
    the (10,5) one, destroys its record and reuses its slot. *)
Theorem cacheTile_evicts_oldest_then_deepest :
  (forall s cutoff,
     overflows (cache s) = true ->
     (_zombiesLoadedCount (cache s) >? 0) = false ->
     let tiles := _tilesLoaded (cache s) in
     (exists victim i,
        tiles !! i = Some victim /\
        admissible cutoff victim = true /\
        (forall j t, tiles !! j = Some t -> admissible cutoff t = true -> lex_le victim t) /\
        cacheTile_evict cutoff s = (unloadTile victim true None;; ret (Some i)) s)
     \/
     ((forall j t, tiles !! j = Some t -> admissible cutoff t = false) /\
      cacheTile_evict cutoff s = (Ret None, s)))
  /\
  (forall s0 options,
     reachable s0 ->
     let s := after (cacheTile_attach options) s0 in
     let cutoff := default 0 (Options.cutoff options) in
     let tiles := _tilesLoaded (cache s0) in
     overflows (cache s) = true ->
     (_zombiesLoadedCount (cache s) >? 0) = false ->
     exists ref s',
       cacheTile options s0 = (Ret ref, s') /\
       ((exists victim i,
           tiles !! i = Some victim /\
           admissible cutoff victim = true /\
           (forall j t, tiles !! j = Some t -> admissible cutoff t = true ->
                        lex_le victim t) /\
           unloaded_tiles (trace (world s'))
           = unloaded_tiles (trace (world s)) ++ [Tile.id victim])
        \/
        ((forall j t, tiles !! j = Some t -> admissible cutoff t = false) /\
         unloaded_tiles (trace (world s')) = unloaded_tiles (trace (world s)))))
  /\
  (let s := after (cacheTile Scenario.fourth) Scenario.three_live in
   unloaded_tiles (trace (world s)) = [2%nat] /\
   map Tile.id (_tilesLoaded (cache s)) = [1%nat; 4%nat; 3%nat] /\
   _cachesLoaded (cache s) = [("A", 0%nat); ("C", 2%nat); ("D", 3%nat)] /\
   (_destroyed <$> record_at s 1) = Some true).
Proof.
  split; [|split].
  - intros s cutoff Hov Hz tiles.
    destruct (evict_picks_least s cutoff Hov Hz)
      as [(victim & i & _ & H)|(_ & H)]; [left | right]; eauto.
  - intros s0 options Hwf%reachable_well_formed s cutoff tiles Hov Hz.
    destruct (cacheTile_attach_wf options s0 Hwf) as (ref & s1 & Hatt & Hwf1 & Htiles & _).
    assert (Hs : s = s1) by (subst s; unfold after; now rewrite Hatt).
    rewrite Hs in *. clear Hs.
    destruct (cacheTile_evict_wf cutoff s1 Hwf1) as (o & s2 & Hev & _ & Htr).
    destruct (cacheTile_steps options s0 ref s1 o s2 Hatt Hev) as (tl & Hrun).
    eexists _, _. split; [exact Hrun|]. cbn [world].
    rewrite Hov, Hz in Htr. cbn [andb negb] in Htr. subst tiles. rewrite <- Htiles.
    destruct (evict_picks_least s1 cutoff Hov Hz)
      as [(victim & i & Hscan & H1 & H2 & H3 & _)|(Hscan & H1 & _)];
      rewrite Hscan in Htr.
    + left. exists victim, i. auto.
    + right. rewrite app_nil_r in Htr. auto.
  - cbv zeta. repeat split; vm_compute; reflexivity.
Qed.

Lemma cacheTile_evicts_oldest_then_deepest_witness :
  overflows (cache (after (cacheTile_attach Scenario.fourth) Scenario.three_live)) = true /\
  exists victim i,
    _tilesLoaded (cache Scenario.three_live) !! i = Some victim /\
    admissible 0 victim = true /\
    (forall j t, _tilesLoaded (cache Scenario.three_live) !! j = Some t ->
                 admissible 0 t = true -> lex_le victim t).
Proof.
  split; [reflexivity|].
  destruct (proj1 cacheTile_evicts_oldest_then_deepest
              (after (cacheTile_attach Scenario.fourth) Scenario.three_live) 0
              eq_refl eq_refl) as [(victim & i & H1 & H2 & H3 & _) | [H _]].
  - exists victim, i. repeat split; assumption.
  - exfalso. specialize (H 0%nat Scenario.tA eq_refl). discriminate H.
Defined.

(** C5.  When [cacheTile] finds the record count exceeding the capacity and
    the zombie count positive, its eviction pass destroys one zombie record,
    the first of the zombie map, removes it from the map and decrements the
    zombie count; no other record changes, the live map, the live count and
    [tilesLoaded] are untouched by the pass, no tile is unloaded and no
    victim slot is reported.  This holds in every state whose zombie count
    agrees with the zombie map, and so for the whole call from every
    reachable state.  In scenario S4 (three live records and a zombie,
    capacity 3) caching a fourth tile destroys the zombie and keeps the three
    live tiles. *)
Theorem cacheTile_evicts_zombie_first :
  (forall s cutoff,
     overflows (cache s) = true ->
     _zombiesLoadedCount (cache s) > 0 ->
     zombies_consistent s ->
     exists zombie z rest w' r',
       _zombiesLoaded (cache s) = (zombie, z) :: rest /\
       cacheTile_evict cutoff s
       = (Ret None,
          mkSys (set_zombies rest (_zombiesLoadedCount (cache s) - 1) (cache s)) w') /\
       records w' = <[z := r']> (records (world s)) /\
       _destroyed r' = true /\
       unloaded_tiles (trace w') = unloaded_tiles (trace (world s)))
  /\
  (forall s0 options,
     reachable s0 ->
     let s := after (cacheTile_attach options) s0 in
     overflows (cache s) = true ->
     _zombiesLoadedCount (cache s) > 0 ->
     exists ref s' zombie z rest r',
       cacheTile options s0 = (Ret ref, s') /\
       _zombiesLoaded (cache s) = (zombie, z) :: rest /\
       _zombiesLoaded (cache s') = rest /\
       _zombiesLoadedCount (cache s') = _zombiesLoadedCount (cache s) - 1 /\
       _cachesLoaded (cache s') = _cachesLoaded (cache s) /\
       _cachesLoadedCount (cache s') = _cachesLoadedCount (cache s) /\
       records (world s') = <[z := r']> (records (world s)) /\
       _destroyed r' = true /\
       unloaded_tiles (trace (world s')) = unloaded_tiles (trace (world s)))
  /\
  (let s := after (cacheTile Scenario.fourth) Scenario.three_live_one_zombie in
   result (cacheTile Scenario.fourth) Scenario.three_live_one_zombie = Ret 4%nat /\
   _zombiesLoaded (cache s) = [] /\ _zombiesLoadedCount (cache s) = 0 /\
   (_destroyed <$> record_at s 3) = Some true /\
   _cachesLoaded (cache s) = [("A", 0%nat); ("B", 1%nat); ("C", 2%nat); ("D", 4%nat)] /\
   map Tile.id (_tilesLoaded (cache s)) = [1%nat; 2%nat; 3%nat; 4%nat] /\
   unloaded_tiles (trace (world s)) = []).
Proof.
  split; [exact evict_destroys_first_zombie | split].
  - intros s0 options Hwf%reachable_well_formed s Hov Hpos.
    destruct (cacheTile_attach_wf options s0 Hwf) as (ref & s1 & Hatt & Hwf1 & _).
    assert (Hs : s = s1) by (subst s; unfold after; now rewrite Hatt).
    rewrite Hs in *. clear Hs.
    destruct (evict_destroys_first_zombie s1 (default 0 (Options.cutoff options)) Hov Hpos
                (well_formed_zombies_consistent _ Hwf1))
      as (zombie & z & rest & w' & r' & Hz & Hev & Hrecs & Hdes & Htr).
    destruct (cacheTile_steps options s0 ref s1 _ _ Hatt Hev) as (tl & Hrun).
    eexists ref, _, zombie, z, rest, r'. split; [exact Hrun|].
    cbn. repeat split; auto.
  - cbv zeta. repeat split; vm_compute; reflexivity.
Qed.

Lemma cacheTile_evicts_zombie_first_witness :
  let s := after (cacheTile_attach Scenario.fourth) Scenario.three_live_one_zombie in
  overflows (cache s) = true /\
  _zombiesLoadedCount (cache s) > 0 /\
  exists w', cacheTile_evict 0 s = (Ret None, mkSys (set_zombies [] 0 (cache s)) w').
Proof.
  cbv zeta. split; [reflexivity|]. split; [reflexivity|].
  destruct (proj1 cacheTile_evicts_zombie_first
              (after (cacheTile_attach Scenario.fourth) Scenario.three_live_one_zombie) 0)
    as (zombie & z & rest & w' & r' & Hz & Hrun & _).
  - reflexivity.
  - reflexivity.
  - split; [reflexivity|]. split.
    + cbn. apply NoDup_singleton.
    + intros k z [H|[]]. vm_compute in H. injection H as <- <-.
      eexists. split; [reflexivity|]. left. reflexivity.
  - exists w'. vm_compute in Hz. injection Hz as <- <- <-. exact Hrun.
Defined.

(** ** TileCache.cacheTile on a key that has a record *)



(** Without a record for the key the requirement is checked, and the record
    is created all the same. *)
Example cacheTile_new_key_checks_data :
  let s := after (cacheTile (Scenario.options (Scenario.tile 1 "A" 2 10 []) VNull))
                 (initial 3 Scenario.no_route) in
  In (Log LAssert data_required) (trace (world s)) /\
  getCacheRecord (cache s) "A" = Some 0%nat.
Proof. cbv zeta. split; vm_compute; [tauto | reflexivity]. Qed.

(** ** TileCache: a zombie record is never moved back *)

(** C1, at the failing input (scenario S3).  Key A maps to a zombie record
    holding D1.  [cacheTile] for key A returns that record with the new tile
    attached and the payload retained, but the record is still in the zombie
    map and not in the live map, and neither count has changed: zombies are
    not marked destroyed, so the reviving branch is not taken. *)
Theorem cacheTile_leaves_zombie_in_zombie_map :
  let s0 := Scenario.zombie_A in
  let s1 := after (cacheTile Scenario.revive_A) s0 in
  (prop_get "A" (_zombiesLoaded (cache s0)) = Some 0%nat /\
   prop_get "A" (_cachesLoaded (cache s0)) = None /\
   (_destroyed <$> record_at s0 0) = Some false) /\
  result (cacheTile Scenario.revive_A) s0 = Ret 0%nat /\
  prop_get "A" (_zombiesLoaded (cache s1)) = Some 0%nat /\
  prop_get "A" (_cachesLoaded (cache s1)) = None /\
  _zombiesLoadedCount (cache s1) = 1 /\
  _cachesLoadedCount (cache s1) = 0 /\
  (_data <$> record_at s1 0) = Some Scenario.D1 /\
  (map Tile.id <$> (record_at s1 0 ≫= _tiles)) = Some [3%nat].
Proof. cbv zeta. repeat split; vm_compute; reflexivity. Qed.

(** C2, at the failing input.  Five cache operations from a new cache lead
    to a state whose zombie map holds a record that counts one tile. *)
Theorem reachable_zombie_counts_a_tile :
  let ops := [OpCacheTile (Scenario.options (Scenario.tile 1 "A" 2 10 []) Scenario.D1);
              OpCacheTile (Scenario.options (Scenario.tile 2 "A" 2 10 []) Scenario.D2);
              OpUnloadTile (Scenario.tile 1 "A" 2 10 ["A"]) false None;
              OpUnloadTile (Scenario.tile 2 "A" 2 10 ["A"]) false None;
              OpCacheTile Scenario.revive_A] in
  let s := after (run_ops ops) (initial 3 Scenario.no_route) in
  reachable s /\
  prop_get "A" (_zombiesLoaded (cache s)) = Some 0%nat /\
  (tileCount <$> record_at s 0) = Some 1%nat /\
  ~ zombies_idle s.
Proof.
  cbv zeta. split.
  { eexists 3, Scenario.no_route, _. apply run_returns. vm_compute. reflexivity. }
  split; [vm_compute; reflexivity|]. split; [vm_compute; reflexivity|].
  intros H. destruct (H "A" 0%nat) as (r & Hr & Hcount & _); [vm_compute; reflexivity|].
  vm_compute in Hr. injection Hr as <-. discriminate Hcount.
Qed.

(** ** CacheRecord.transformTo *)

Lemma strict_eq_refl v : strict_eq v v = true.
Proof.
  destruct v; cbn; auto using Z.eqb_refl, String.eqb_refl, Nat.eqb_refl.
  now destruct b.
Qed.

(** On a record that is loaded in format [T], [transformTo(T)] returns the
    ready handle and changes nothing: no registry call, no new promise. *)
Lemma transformTo_same_format w this r T :
  records w !! this = Some r -> loaded r = true -> _type r = T ->
  transformTo this T w = (Ret (_promise r), w).
Proof.
  intros Hr Hl Ht. unfold transformTo, bind. rewrite (this_at _ _ _ Hr), Hl, Ht.
  destruct (strict_eq T VUndefined); now rewrite strict_eq_refl.
Qed.

(** C8, as stated, fails: when the registry has no route to the requested
    format the first [transformTo] completes (it returns the ready handle,
    already resolved, after one registry call and leaves nothing pending),
    and the second [transformTo] asks the registry again. *)
Lemma transformTo_again_asks_registry :
  let w0 := Scenario.one_record Scenario.no_route in
  let w1 := after (_ <- transformTo 0 Scenario.png;; run 8) w0 in
  let w2 := after (transformTo 0 Scenario.png) w1 in
  result (transformTo 0 Scenario.png) w0 = Ret (Some 0%nat) /\
  promises w1 !! 0%nat = Some (Fulfilled Scenario.D1) /\
  reactions w1 = [] /\ timers w1 = [] /\
  List.filter is_conversion_call (trace w1)
  = [RegGetConversionPath Scenario.raw Scenario.png] /\
  List.filter is_conversion_call (trace w2)
  = [RegGetConversionPath Scenario.raw Scenario.png;
     RegGetConversionPath Scenario.raw Scenario.png].
Proof. cbv zeta. repeat split; vm_compute; reflexivity. Qed.

(** ** The event loop *)

Lemma find_index_middle {A} (f : A -> bool) l1 c l2 :
  Forall (fun a => f a = false) l1 -> f c = true ->
  find_index f (l1 ++ c :: l2) = Some (length l1).
Proof.
  induction 1 as [|a l1 Ha _ IH]; cbn; intros Hc.
  - now rewrite Hc.
  - rewrite Ha, IH by assumption. reflexivity.
Qed.

Lemma find_index_none {A} (f : A -> bool) l :
  Forall (fun a => f a = false) l -> find_index f l = None.
Proof.
  induction 1 as [|a l Ha _ IH]; cbn; [reflexivity|]. now rewrite Ha, IH.
Qed.

Lemma delete_length_middle {A} (l1 : list A) c l2 :
  delete (length l1) (l1 ++ c :: l2) = l1 ++ l2.
Proof. induction l1; cbn; [reflexivity|]. now f_equal. Qed.

(** A turn of the loop runs the first reaction whose promise is settled. *)
Lemma tick_reaction w l1 c l2 st :
  reactions w = l1 ++ c :: l2 ->
  Forall (fun rc => settled w rc = false) l1 ->
  promises w !! awaited c = Some st -> st <> Pending ->
  tick w = (run_reaction c st;; ret true) (set_reactions (l1 ++ l2) w).
Proof.
  intros Hre Hblocked Hst Hne. unfold tick. unfold bind at 1. cbn [get].
  rewrite Hre. rewrite (find_index_middle (settled w) l1 c l2 Hblocked).
  2:{ unfold settled. rewrite Hst. destruct st; congruence. }
  rewrite list_lookup_middle by reflexivity.
  unfold bind at 1. cbn [modify]. rewrite Hre, delete_length_middle, Hst. reflexivity.
Qed.

Lemma tick_idle w :
  Forall (fun rc => settled w rc = false) (reactions w) -> timers w = [] ->
  tick w = (Ret false, w).
Proof.
  intros Hb Ht. unfold tick, bind. cbn [get].
  rewrite (find_index_none _ _ Hb), Ht. reflexivity.
Qed.

Lemma run_idle fuel w :
  reactions w = [] -> timers w = [] -> run fuel w = (Ret tt, w).
Proof.
  intros Hr Ht. destruct fuel; cbn; [reflexivity|].
  unfold bind. rewrite tick_idle; [reflexivity| |assumption].
  rewrite Hr. constructor.
Qed.

Lemma links_snoc ds a b :
  links (ds ++ [a; b]) = links (ds ++ [a]) ++ [mkReaction b CbAdopt a].
Proof.
  induction ds as [|d ds IH]; [reflexivity|].
  destruct ds as [|d' ds]; [reflexivity|].
  cbn [app links] in *. now rewrite IH.
Qed.

Lemma links_awaited ds rc :
  In rc (links ds) -> In (awaited rc) (tail ds).
Proof.
  induction ds as [|a ds IH]; cbn; [tauto|].
  destruct ds as [|b ds]; cbn; [tauto|].
  intros [<-|H]; [now left|]. right. exact (IH H).
Qed.

(** The adoption chain empties: once the last promise of [ds] is fulfilled
    with [v], the loop hands [v] down to every promise of [ds]. *)
Lemma drain_chain ds : forall w b v fuel,
  reactions w = links (ds ++ [b]) ->
  timers w = [] ->
  NoDup (ds ++ [b]) ->
  promises w !! b = Some (Fulfilled v) ->
  (forall d, In d ds -> promises w !! d = Some Pending) ->
  (length ds <= fuel)%nat ->
  exists w',
    run fuel w = (Ret tt, w') /\
    reactions w' = [] /\ timers w' = [] /\
    records w' = records w /\ trace w' = trace w /\ convertor w' = convertor w /\
    (forall d, In d (ds ++ [b]) -> promises w' !! d = Some (Fulfilled v)) /\
    (forall q u, promises w !! q = Some (Fulfilled u) -> promises w' !! q = Some (Fulfilled u)).
Proof.
  induction ds as [|a ds IH] using rev_ind; intros w b v fuel Hre Hti Hnd Hb Hpend Hfuel.
  - exists w. cbn in Hre. rewrite run_idle by assumption.
    repeat split; auto. intros d [<-|[]]. exact Hb.
  - rewrite <- app_assoc in Hre. cbn [app] in Hre. rewrite links_snoc in Hre.
    destruct fuel as [|fuel]; [rewrite length_app in Hfuel; cbn in Hfuel; lia|].
    assert (Hab : a <> b).
    { intros ->. rewrite <- app_assoc in Hnd. apply NoDup_app in Hnd as (_ & _ & Hnd).
      apply NoDup_cons in Hnd as [Hnd _]. apply Hnd. now left. }
    assert (Ha : promises w !! a = Some Pending).
    { apply Hpend. apply in_or_app. right. now left. }
    cbn [run]. unfold bind at 1.
    erewrite tick_reaction; [| exact Hre | | exact Hb | discriminate].
    2:{ apply Forall_forall. intros rc Hin. apply list_elem_of_In, links_awaited in Hin.
        unfold settled. rewrite Hpend; [reflexivity|].
        destruct ds as [|d0 ds]; cbn in Hin; [tauto|].
        cbn. right. exact Hin. }
    unfold bind at 1. cbn [run_reaction callback_body cb derived ret resolve].
    unfold settle, modify. cbn [promises set_reactions]. rewrite Ha. cbn [ret].
    rewrite app_nil_r.
    set (w1 := set_promises (<[a := Fulfilled v]> (promises w))
                            (set_reactions (links (ds ++ [a])) w)).
    destruct (IH w1 a v fuel) as (w' & Hrun & H1 & H2 & H3 & H4 & H5 & H6 & H7).
    + reflexivity.
    + exact Hti.
    + rewrite <- app_assoc in Hnd. cbn in Hnd.
      apply NoDup_app in Hnd as (Hn1 & Hn2 & Hn3).
      apply NoDup_app. split; [exact Hn1|]. split.
      * intros x Hx [->|[]]%list_elem_of_In. apply (Hn2 _ Hx). left.
      * apply NoDup_singleton.
    + cbn. apply list_lookup_insert_eq. eapply lookup_lt_Some; eauto.
    + intros d Hd. cbn. rewrite list_lookup_insert_ne.
      * apply Hpend. apply in_or_app. now left.
      * intros <-. rewrite <- app_assoc in Hnd. cbn in Hnd.
        apply NoDup_app in Hnd as (_ & Hn2 & _).
        apply (Hn2 a); [now apply list_elem_of_In | left].
    + rewrite length_app in Hfuel. cbn in Hfuel. lia.
    + exists w'. split; [exact Hrun|]. repeat split; auto.
      intros d Hd. apply in_app_or in Hd as [Hd|[<-|[]]].
      * apply H6. exact Hd.
      * apply H7. cbn. rewrite list_lookup_insert_ne by exact Hab. exact Hb.
      * intros q u Hq. apply H7. cbn.
        destruct (decide (a = q)) as [<-|Hne]; [congruence|].
        rewrite list_lookup_insert_ne by exact Hne. exact Hq.
Qed.

Lemma drop_cons_inv {A} (l : list A) i e rest :
  drop i l = e :: rest -> l !! i = Some e /\ drop (S i) l = rest.
Proof.
  intros H. split.
  - pose proof (lookup_drop l i 0) as H0. rewrite H, Nat.add_0_r in H0. now symmetry.
  - pose proof (drop_drop l 1 i) as H0. rewrite H, Nat.add_1_r in H0. now symmetry.
Qed.

(** *** A conversion through the event loop

    [this] is the record being converted, [path] the route the registry gave
    from format [F], [od] the payload the conversion started from. *)

Section Conversion.
Variables (this : nat) (path : list Edge) (F od : jsval).

(** A conversion step that is followed by another edge. *)
Lemma convert_step_next w x i dlast pT e e' y :
  path !! i = Some e -> path !! S i = Some e' -> truthy y = true ->
  run_reaction (mkReaction pT (CbConvert this path F od x i) dlast) (Fulfilled y) w
  = (Ret tt,
     mkWorld (records w)
             (promises w ++ [Fulfilled (transform e' y); Pending])
             (reactions w ++
                [mkReaction (length (promises w)) (CbConvert this path F od y (S i))
                            (S (length (promises w)));
                 mkReaction (S (length (promises w))) CbAdopt dlast])
             (timers w) (convertor w)
             (trace w ++ [RegDestroy x (origin_value e);
                          RegTransform (origin_value e') (target_value e') y])).
Proof.
  intros He He' Hy. unfold run_reaction. cbn [cb derived callback_body].
  rewrite Hy. cbn [negb]. rewrite He.
  unfold convert. rewrite He'.
  unfold bind, emit, modify, promise_resolve, new_promise, then_, bind, modify, ret, resolve,
    get, logged, set_trace, set_promises, set_reactions.
  cbn. rewrite length_app. cbn.
  rewrite lookup_app_r by (rewrite length_app; cbn; lia).
  rewrite length_app. cbn. replace (length (promises w) + 1 - (length (promises w) + 1))%nat with 0%nat by lia.
  cbn. rewrite <- !app_assoc. cbn.
  replace (length (promises w) + 1)%nat with (S (length (promises w))) by lia.
  unfold modify. cbn. rewrite <- !app_assoc. reflexivity.
Qed.

(** The last conversion step: the record is loaded with the result and the
    promise of the step is fulfilled. *)
Lemma convert_step_last w x i dlast pT e y rc :
  path !! i = Some e -> path !! S i = None -> truthy y = true ->
  records w !! this = Some rc -> _conversionJobQueue rc = None ->
  promises w !! dlast = Some Pending ->
  run_reaction (mkReaction pT (CbConvert this path F od x i) dlast) (Fulfilled y) w
  = (Ret tt,
     mkWorld (<[this := set_loaded true (set_data y rc)]> (records w))
             (<[dlast := Fulfilled y]> (promises w) ++ [Fulfilled y])
             (reactions w)
             (timers w) (convertor w)
             (trace w ++ [RegDestroy x (origin_value e)])).
Proof.
  intros He He' Hy Hr Hq Hd. unfold run_reaction. cbn [cb derived callback_body].
  rewrite Hy. cbn [negb]. rewrite He.
  unfold convert. rewrite He'.
  unfold bind at 1. unfold emit at 1, modify at 1.
  unfold bind at 1. unfold bind at 1.
  erewrite update_at by (cbn; exact Hr).
  unfold bind at 1. unfold _checkAwaitsConvert, bind at 1.
  erewrite this_at by (cbn; eapply lookup_updated; exact Hr).
  cbn [_conversionJobQueue set_loaded set_data]. rewrite Hq.
  cbn. rewrite lookup_app_r by lia. rewrite Nat.sub_diag. cbn.
  unfold settle, modify. cbn. rewrite lookup_app_l by (eapply lookup_lt_Some; eauto).
  rewrite Hd. unfold set_promises. cbn.
  rewrite insert_app_l by (eapply lookup_lt_Some; eauto). reflexivity.
Qed.

(** A conversion in flight at edge [i] runs to its end when every remaining
    edge resolves with a truthy value: the record is loaded with the
    converted value and every promise of the conversion is fulfilled with
    it. *)
Lemma conversion_runs rest : forall i x e w ds0 dlast B1 B2 pT rc fuel,
  drop i path = e :: rest ->
  reactions w = B1 ++ mkReaction pT (CbConvert this path F od x i) dlast :: B2 ->
  B1 ++ B2 = links (ds0 ++ [dlast]) ->
  promises w !! pT = Some (Fulfilled (transform e x)) ->
  (forall d, In d (ds0 ++ [dlast]) -> promises w !! d = Some Pending) ->
  NoDup (ds0 ++ [dlast]) ->
  records w !! this = Some rc -> _conversionJobQueue rc = None ->
  timers w = [] ->
  all_truthy (e :: rest) x = true ->
  (2 * length rest + 1 + length ds0 <= fuel)%nat ->
  exists w',
    run fuel w = (Ret tt, w') /\
    reactions w' = [] /\ timers w' = [] /\
    records w'
    = <[this := set_loaded true (set_data (converted (e :: rest) x) rc)]> (records w) /\
    convertor w' = convertor w /\
    (forall d, In d (ds0 ++ [dlast]) ->
               promises w' !! d = Some (Fulfilled (converted (e :: rest) x))).
Proof.
  induction rest as [|e' rest IH];
    intros i x e w ds0 dlast B1 B2 pT rc fuel Hdrop Hre Hlinks HpT Hpend Hnd Hr Hq Hti Htr Hfuel.
  all: destruct (drop_cons_inv _ _ _ _ Hdrop) as [He Hdrop'].
  all: cbn [all_truthy] in Htr; apply andb_true_iff in Htr as [Hy Htr].
  all: destruct fuel as [|fuel]; [lia|].
  all: assert (Hblocked : Forall (fun rc => settled w rc = false) B1)
    by (apply Forall_forall; intros r' Hin; unfold settled;
        rewrite Hpend; [reflexivity|];
        assert (Hin' : In r' (links (ds0 ++ [dlast])))
          by (rewrite <- Hlinks; apply in_or_app; left; now apply list_elem_of_In);
        apply links_awaited in Hin';
        destruct (ds0 ++ [dlast]); cbn in Hin'; [tauto | now right]).
  all: cbn [run]; unfold bind at 1;
    erewrite tick_reaction; [| exact Hre | exact Hblocked | exact HpT | discriminate];
    unfold bind at 1.
  - (* the last edge *)
    assert (He' : path !! S i = None).
    { apply lookup_ge_None. apply drop_nil_inv in Hdrop'. lia. }
    erewrite convert_step_last;
      [| exact He | exact He' | exact Hy | cbn; exact Hr | exact Hq
       | cbn; apply Hpend, in_or_app; right; now left].
    cbn [ret set_reactions records promises reactions timers convertor trace].
    rewrite Hlinks.
    match goal with |- context [run fuel ?w1] => set (w1' := w1) end.
    destruct (drain_chain ds0 w1' dlast (transform e x) fuel)
      as (w' & Hrun & H1 & H2 & H3 & H4 & H5 & H6 & H7).
    + reflexivity.
    + exact Hti.
    + exact Hnd.
    + cbn. rewrite lookup_app_l by (rewrite length_insert; eapply lookup_lt_Some;
        apply Hpend, in_or_app; right; now left).
      apply list_lookup_insert_eq. eapply lookup_lt_Some.
      apply Hpend, in_or_app; right; now left.
    + intros d Hd. cbn.
      assert (Hdp : promises w !! d = Some Pending) by (apply Hpend, in_or_app; now left).
      rewrite lookup_app_l by (rewrite length_insert; eapply lookup_lt_Some; eauto).
      rewrite list_lookup_insert_ne; [exact Hdp|].
      intros <-. apply NoDup_app in Hnd as (_ & Hn & _).
      apply (Hn dlast); [now apply list_elem_of_In | left].
    + cbn in Hfuel. lia.
    + exists w'. split; [exact Hrun|]. repeat split; auto.
  - (* another edge follows *)
    assert (He' : path !! S i = Some e') by (apply (drop_cons_inv _ _ _ _ Hdrop')).
    erewrite convert_step_next; [| exact He | exact He' | exact Hy].
    cbn [ret set_reactions records promises reactions timers convertor trace].
    match goal with |- context [run fuel ?w1] => set (w1' := w1) end.
    assert (Hlt : forall d, In d (ds0 ++ [dlast]) -> (d < length (promises w))%nat)
      by (intros d Hd; eapply lookup_lt_Some; apply Hpend; exact Hd).
    destruct (IH (S i) (transform e x) e' w1' (ds0 ++ [dlast]) (S (length (promises w)))
                 (B1 ++ B2) [mkReaction (S (length (promises w))) CbAdopt dlast]
                 (length (promises w)) rc fuel)
      as (w' & Hrun & H1 & H2 & H3 & H4 & H5).
    + exact Hdrop'.
    + subst w1'. cbn. rewrite <- app_assoc. reflexivity.
    + rewrite Hlinks. rewrite <- (app_assoc ds0 [dlast]). cbn [app].
      now rewrite links_snoc.
    + subst w1'. cbn. rewrite lookup_app_r by lia. now rewrite Nat.sub_diag.
    + intros d Hd. subst w1'. cbn [promises]. apply in_app_or in Hd as [Hd|[<-|[]]].
      * rewrite lookup_app_l by (now apply Hlt). now apply Hpend.
      * rewrite lookup_app_r by lia.
        replace (S (length (promises w)) - length (promises w))%nat with 1%nat by lia.
        reflexivity.
    + apply NoDup_app. split; [exact Hnd|]. split; [|apply NoDup_singleton].
      intros d Hd [<-|[]]%list_elem_of_In. apply list_elem_of_In, Hlt in Hd. lia.
    + exact Hr.
    + exact Hq.
    + exact Hti.
    + exact Htr.
    + rewrite length_app. cbn in *. lia.
    + exists w'. split; [exact Hrun|]. repeat split; auto.
      intros d Hd. apply H5. apply in_or_app. now left.
Qed.

End Conversion.

Ltac simpl_world :=
  cbn [records promises reactions timers convertor trace
       set_records set_promises set_reactions set_timers set_trace logged].

(** C8, as amended.  [transformTo(T)] is idempotent once the record is
    loaded in format [T]: the call returns the record's ready handle at once
    and leaves the whole store as it is, so no registry call is made.  In
    particular, when a first [transformTo(T)] on a loaded record of another
    format finds a route whose edges all resolve with truthy values, and
    nothing else is pending, it returns an eventual [p]; once the event loop
    has run, the record is loaded in format [T] with the converted payload,
    [p] is its ready handle and is fulfilled with that payload, and a second
    [transformTo(T)] returns the same [p] without changing the store. *)
Theorem transformTo_twice :
  (forall w this r T,
     records w !! this = Some r -> loaded r = true -> _type r = T ->
     transformTo this T w = (Ret (_promise r), w))
  /\
  (forall w this r T path fuel,
     records w !! this = Some r ->
     loaded r = true -> _conversionJobQueue r = None ->
     reactions w = [] -> timers w = [] ->
     strict_eq T VUndefined = false -> strict_eq T (_type r) = false ->
     getConversionPath (convertor w) (_type r) T = Some path ->
     all_truthy path (_data r) = true ->
     (2 * length path <= fuel)%nat ->
     exists p w1 w2 r2,
       transformTo this T w = (Ret (Some p), w1) /\
       run fuel w1 = (Ret tt, w2) /\
       reactions w2 = [] /\ timers w2 = [] /\
       records w2 !! this = Some r2 /\
       loaded r2 = true /\ _type r2 = T /\ _data r2 = converted path (_data r) /\
       _promise r2 = Some p /\
       promises w2 !! p = Some (Fulfilled (converted path (_data r))) /\
       transformTo this T w2 = (Ret (Some p), w2)).
Proof.
  split; [exact transformTo_same_format|].
  intros w this r T path fuel Hr Hl Hq Hre Hti HT Hne Hpath Htr Hfuel.
  unfold transformTo at 1. unfold bind at 1. rewrite (this_at _ _ _ Hr).
  rewrite HT, Hl, Hne. cbn [negb orb].
  unfold bind at 1. unfold _convert. unfold bind at 1. cbn [get].
  unfold bind at 1. cbn [emit modify]. rewrite Hpath.
  unfold bind at 1. erewrite this_at by (cbn; exact Hr).
  unfold bind at 1. erewrite update_at by (cbn; exact Hr). simpl_world.
  set (rc := set_type T (set_data VUndefined (set_loaded false r))).
  unfold bind at 1. unfold convert.
  destruct path as [|e rest].
  - (* nothing to convert: the record is relabelled at once *)
    cbn [lookup list_lookup].
    unfold bind at 1. erewrite update_at by (cbn; eapply lookup_updated; exact Hr).
    simpl_world. rewrite list_insert_insert_eq.
    unfold bind at 1. unfold _checkAwaitsConvert, bind at 1.
    erewrite this_at by (cbn; eapply lookup_updated; exact Hr).
    cbn [_conversionJobQueue set_loaded set_data set_type rc]. rewrite Hq.
    cbn [ret promise_resolve new_promise]. simpl_world.
    erewrite update_at by (cbn; eapply lookup_updated; exact Hr).
    simpl_world. rewrite list_insert_insert_eq.
    unfold bind at 1.
    erewrite this_at by (cbn; eapply lookup_updated; exact Hr).
    cbn [_promise set_promise ret].
    eexists _, _, _, _. split; [reflexivity|].
    split; [apply run_idle; cbn; assumption|].
    split; [cbn; assumption|]. split; [cbn; assumption|].
    split; [cbn; eapply lookup_updated; exact Hr|].
    cbn. repeat split.
    + rewrite lookup_app_r by lia. now rewrite Nat.sub_diag.
    + rewrite (transformTo_same_format _ this
                 (set_promise (Some (length (promises w)))
                              (set_loaded true (set_data (_data r) rc))) T);
        [reflexivity | | reflexivity | reflexivity].
      cbn. eapply lookup_updated; exact Hr.
  - cbn [lookup list_lookup].
    unfold bind at 1. cbn [emit modify]. simpl_world.
    unfold bind at 1. cbn [promise_resolve new_promise]. simpl_world.
    unfold then_, bind at 1. cbn [new_promise]. simpl_world.
    unfold bind at 1. cbn [modify ret]. simpl_world.
    erewrite update_at by (cbn; eapply lookup_updated; exact Hr).
    simpl_world. rewrite list_insert_insert_eq.
    unfold bind at 1.
    erewrite this_at by (cbn; eapply lookup_updated; exact Hr).
    cbn [_promise set_promise]. unfold ret.
    match goal with |- context [(Ret (Some ?p0), ?w0) = _] => set (p := p0); set (w1 := w0) end.
    destruct (conversion_runs this (e :: rest) (_type r) (_data r) rest 0 (_data r) e w1
                [] p [] [] (length (promises w)) (set_promise (Some p) rc) fuel)
      as (w2 & Hrun & H1 & H2 & H3 & H4 & H5).
    + reflexivity.
    + subst w1. cbn. rewrite Hre. reflexivity.
    + reflexivity.
    + subst w1. cbn. rewrite lookup_app_l by (rewrite length_app; cbn; lia).
      rewrite lookup_app_r by lia. now rewrite Nat.sub_diag.
    + intros d [<-|[]]. subst w1 p. cbn. rewrite length_app. cbn.
      rewrite lookup_app_r by (rewrite length_app; cbn; lia).
      rewrite length_app. cbn. now rewrite Nat.sub_diag.
    + apply NoDup_singleton.
    + subst w1. cbn. eapply lookup_updated. exact Hr.
    + exact Hq.
    + subst w1. cbn. exact Hti.
    + exact Htr.
    + cbn in *. lia.
    + exists p, w1, w2, (set_loaded true (set_data (converted (e :: rest) (_data r))
                                                   (set_promise (Some p) rc))).
      split; [reflexivity|]. split; [exact Hrun|].
      split; [exact H1|]. split; [exact H2|].
      assert (Hr2 : records w2 !! this
                    = Some (set_loaded true (set_data (converted (e :: rest) (_data r))
                                                      (set_promise (Some p) rc)))).
      { rewrite H3. subst w1. cbn. eapply lookup_updated, lookup_updated. exact Hr. }
      split; [exact Hr2|]. repeat split.
      * apply H5. now left.
      * now rewrite (transformTo_same_format _ _ _ T Hr2 eq_refl eq_refl).
Qed.

Lemma transformTo_twice_witness :
  let w := Scenario.one_record
             (Scenario.route [Scenario.edge_png; Scenario.edge_ctx] Scenario.raw Scenario.ctx) in
  exists p w2,
    result (transformTo 0 Scenario.ctx) w = Ret (Some p) /\
    promises w2 !! p = Some (Fulfilled (VObj 201)) /\
    transformTo 0 Scenario.ctx w2 = (Ret (Some p), w2).
Proof.
  cbv zeta.
  destruct (proj2 transformTo_twice
              (Scenario.one_record
                 (Scenario.route [Scenario.edge_png; Scenario.edge_ctx]
                                 Scenario.raw Scenario.ctx))
              0%nat
              (Scenario.holding [Scenario.tile 1 "A" 2 10 []] Scenario.D1 0)
              Scenario.ctx [Scenario.edge_png; Scenario.edge_ctx] 4%nat)
    as (p & w1 & w2 & r2 & H1 & _ & _ & _ & _ & _ & _ & _ & _ & H2 & H3);
    try reflexivity.
  exists p, w2. split; [|split; assumption].
  unfold result. now rewrite H1.
Defined.

(** * Further properties of CacheRecord *)

(** ** Helpers on lists and the store *)

Lemma find_index_lt {A} (f : A -> bool) l i :
  find_index f l = Some i -> (i < length l)%nat.
Proof.
  revert i. induction l as [|a l IH]; cbn; [discriminate|].
  destruct (f a); intros i Hi.
  - injection Hi as <-. lia.
  - destruct (find_index f l); [|discriminate].
    injection Hi as <-. specialize (IH _ eq_refl). lia.
Qed.



Lemma find_index_snoc {A} (f : A -> bool) l a :
  existsb f l = false -> f a = true -> find_index f (l ++ [a]) = Some (length l).
Proof.
  intros Hl Ha. induction l as [|b l IH]; cbn in *; [now rewrite Ha|].
  apply orb_false_iff in Hl as [Hb Hl]. rewrite Hb, (IH Hl). reflexivity.
Qed.

Lemma delete_snoc {A} (l : list A) a : delete (length l) (l ++ [a]) = l.
Proof. induction l; cbn; [reflexivity | now f_equal]. Qed.

Lemma length_delete_lt {A} (l : list A) i :
  (i < length l)%nat -> S (length (delete i l)) = length l.
Proof.
  revert i. induction l as [|a l IH]; intros [|i] Hi; cbn in *; try lia.
  rewrite IH; lia.
Qed.

Lemma same_refl tile : Tile.same tile tile = true.
Proof. apply Nat.eqb_refl. Qed.

Lemma set_records_id w : set_records (records w) w = w.
Proof. now destruct w. Qed.

Lemma set_tiles_id r ts : _tiles r = Some ts -> set_tiles (Some ts) r = r.
Proof. destruct r. cbn. now intros ->. Qed.

(** ** removeTile *)



(** ** addTile *)

(** X2.  On a loaded record, attaching a tile that was not attached and
    detaching it again gives back the store as it was: [removeTile] returns
    true and every record, promise and log is unchanged. *)
Theorem addTile_removeTile_restores w this r ts tile d ty :
  records w !! this = Some r -> loaded r = true -> _destroyed r = false ->
  _tiles r = Some ts -> existsb (Tile.same tile) ts = false ->
  (addTile this tile d ty;; removeTile this tile) w = (Ret true, w).
Proof.
  intros Hr Hl Hd Ht Hn. unfold bind at 1.
  rewrite (addTile_loaded _ _ _ _ _ _ _ Hr Hl Hd Ht Hn).
  unfold removeTile, bind.
  erewrite this_at by (cbn; eapply lookup_updated; exact Hr).
  cbn [_destroyed _tiles set_tiles]. rewrite Hd.
  rewrite (find_index_snoc _ _ _ Hn (same_refl tile)).
  erewrite update_at by (cbn; eapply lookup_updated; exact Hr).
  cbn. rewrite delete_snoc, list_insert_insert_eq.
  change (set_tiles (Some ts) (set_tiles (Some (ts ++ [tile])) r))
    with (set_tiles (Some ts) r).
  rewrite (set_tiles_id _ _ Ht), list_insert_id by exact Hr.
  unfold ret. f_equal. now destruct w.
Qed.

Lemma addTile_removeTile_restores_witness :
  (addTile 0 (Scenario.tile 2 "A" 2 10 []) Scenario.D2 Scenario.png;;
   removeTile 0 (Scenario.tile 2 "A" 2 10 [])) (Scenario.one_record Scenario.no_route)
  = (Ret true, Scenario.one_record Scenario.no_route).
Proof.
  apply (addTile_removeTile_restores (Scenario.one_record Scenario.no_route) 0
           (Scenario.holding [Scenario.tile 1 "A" 2 10 []] Scenario.D1 0)
           [Scenario.tile 1 "A" 2 10 []]); reflexivity.
Defined.





(** ** destroy and revive *)

(** The record [destroy()] leaves behind when it ran on a loaded record. *)
Lemma destroy_loaded w this r :
  records w !! this = Some r -> loaded r = true ->
  destroy this w
  = (Ret tt,
     set_records (<[this := mkCacheRecord None VNull VNull false None true None]> (records w))
                 (logged [RegDestroy (_data r) (_type r)] w)).
Proof.
  intros Hr Hl. unfold destroy, bind.
  rewrite (update_at _ _ _ _ Hr).
  erewrite this_at by (cbn; eapply lookup_updated; exact Hr).
  cbn. rewrite Hl. unfold bind, emit, modify. cbn.
  erewrite update_at by (cbn; eapply lookup_updated; exact Hr). cbn.
  erewrite update_at by (cbn; eapply lookup_updated; eapply lookup_updated; exact Hr).
  cbn. now rewrite !list_insert_insert_eq.
Qed.

(** X5.  [destroy()] on a loaded record hands the payload and its format to
    the registry's [destroy] once, clears tiles, payload, format, ready
    handle and job queue, and leaves the record marked destroyed and not
    loaded.  From then on [getTileCount] is 0 and [addTile] and [removeTile]
    return without changing anything. *)
Theorem destroy_loaded_clears w this r :
  records w !! this = Some r -> loaded r = true ->
  exists w1,
    destroy this w = (Ret tt, w1) /\
    records w1 = <[this := mkCacheRecord None VNull VNull false None true None]> (records w) /\
    trace w1 = trace w ++ [RegDestroy (_data r) (_type r)] /\
    promises w1 = promises w /\ reactions w1 = reactions w /\ timers w1 = timers w /\
    getTileCount this w1 = (Ret 0%nat, w1) /\
    (forall tile d ty, addTile this tile d ty w1 = (Ret tt, w1)) /\
    (forall tile, removeTile this tile w1 = (Ret false, w1)).
Proof.
  intros Hr Hl. rewrite (destroy_loaded _ _ _ Hr Hl).
  eexists. split; [reflexivity|]. cbn.
  assert (Hr1 : <[this := mkCacheRecord None VNull VNull false None true None]> (records w)
                !! this = Some (mkCacheRecord None VNull VNull false None true None))
    by (eapply lookup_updated; exact Hr).
  repeat split.
  - unfold getTileCount, bind. erewrite this_at by (cbn; exact Hr1). reflexivity.
  - intros tile d ty.
    apply addTile_destroyed_noop
      with (r := mkCacheRecord None VNull VNull false None true None);
      [cbn; exact Hr1 | reflexivity].
  - intros tile. unfold removeTile, bind. erewrite this_at by (cbn; exact Hr1). reflexivity.
Qed.

Lemma destroy_loaded_clears_witness :
  exists w1,
    destroy 0 (Scenario.one_record Scenario.no_route) = (Ret tt, w1) /\
    trace w1 = [RegDestroy Scenario.D1 Scenario.raw] /\
    getTileCount 0 w1 = (Ret 0%nat, w1).
Proof.
  destruct (destroy_loaded_clears (Scenario.one_record Scenario.no_route) 0
              (Scenario.holding [Scenario.tile 1 "A" 2 10 []] Scenario.D1 0)
              eq_refl eq_refl)
    as (w1 & H1 & _ & H2 & _ & _ & _ & H3 & _).
  exists w1. repeat split; assumption.
Defined.

(** X6.  [destroy()] cannot be called twice: after it ran on a loaded
    record, the record is not loaded and has no ready handle, so a second
    [destroy()] throws a TypeError; the payload was released once. *)
Theorem destroy_twice_throws w this r :
  records w !! this = Some r -> loaded r = true ->
  exists w2,
    (destroy this;; destroy this) w
    = (Throw (TypeError "Cannot read properties of null (reading 'then')"), w2) /\
    trace w2 = trace w ++ [RegDestroy (_data r) (_type r)].
Proof.
  intros Hr Hl. unfold bind at 1.
  rewrite (destroy_loaded _ _ _ Hr Hl).
  assert (Hr1 : <[this := mkCacheRecord None VNull VNull false None true None]> (records w)
                !! this = Some (mkCacheRecord None VNull VNull false None true None))
    by (eapply lookup_updated; exact Hr).
  unfold destroy, bind.
  erewrite update_at by (cbn; exact Hr1). cbn.
  erewrite this_at by (cbn; eapply lookup_updated; exact Hr1). cbn.
  eexists. split; reflexivity.
Qed.

Lemma destroy_twice_throws_witness :
  exists w2,
    (destroy 0;; destroy 0) (Scenario.one_record Scenario.no_route)
    = (Throw (TypeError "Cannot read properties of null (reading 'then')"), w2) /\
    trace w2 = [RegDestroy Scenario.D1 Scenario.raw].
Proof.
  apply (destroy_twice_throws (Scenario.one_record Scenario.no_route) 0
           (Scenario.holding [Scenario.tile 1 "A" 2 10 []] Scenario.D1 0) eq_refl eq_refl).
Defined.

(** X7.  [destroy()] followed by [revive()] on a loaded record returns
    without an assertion and leaves the record equal to one the constructor
    has just made; the old payload was handed to the registry's [destroy]. *)
Theorem destroy_then_revive_is_new w this r :
  records w !! this = Some r -> loaded r = true ->
  exists w2,
    (destroy this;; revive this) w = (Ret tt, w2) /\
    (forall w0, records w2 !! this
                = records (after new_CacheRecord w0) !! length (records w0)) /\
    trace w2 = trace w ++ [RegDestroy (_data r) (_type r)].
Proof.
  intros Hr Hl.
  unfold bind at 1. rewrite (destroy_loaded _ _ _ Hr Hl).
  assert (Hr1 : <[this := mkCacheRecord None VNull VNull false None true None]> (records w)
                !! this = Some (mkCacheRecord None VNull VNull false None true None))
    by (eapply lookup_updated; exact Hr).
  unfold revive, bind. erewrite this_at by (cbn; exact Hr1). cbn.
  erewrite update_at by (cbn; exact Hr1). cbn.
  rewrite list_insert_insert_eq, ?app_nil_r.
  eexists. split; [reflexivity|]. cbn. split; [|reflexivity].
  intros w0. unfold after. rewrite new_CacheRecord_fresh. cbn.
  rewrite lookup_app_r by lia. rewrite Nat.sub_diag. cbn.
  eapply lookup_updated; exact Hr.
Qed.

Lemma destroy_then_revive_is_new_witness :
  exists w2,
    (destroy 0;; revive 0) (Scenario.one_record Scenario.no_route) = (Ret tt, w2) /\
    records w2 !! 0%nat = Some (mkCacheRecord (Some []) VNull VNull false None false None).
Proof.
  destruct (destroy_then_revive_is_new (Scenario.one_record Scenario.no_route) 0
              (Scenario.holding [Scenario.tile 1 "A" 2 10 []] Scenario.D1 0) eq_refl eq_refl)
    as (w2 & H1 & H2 & _).
  exists w2. split; [exact H1|]. exact (H2 (empty_world Scenario.no_route)).
Defined.

(** ** setDataAs *)

(** X8.  [setDataAs(d, ty)] on a loaded record with no pending job hands
    the old payload to the registry's [destroy], stores [d] and [ty], marks
    the image of every attached tile as needing a draw, and returns the new ready handle,
    an eventual fulfilled with the new data [d].  An [undefined] [d] is only
    logged as an assertion. *)
Theorem setDataAs_loaded_overwrites w this r ts d ty :
  records w !! this = Some r ->
  loaded r = true -> _destroyed r = false -> _conversionJobQueue r = None ->
  _tiles r = Some ts ->
  exists w1,
    setDataAs this d ty w = (Ret (length (promises w)), w1) /\
    records w1
    = <[this := set_promise (Some (length (promises w))) (set_data d (set_type ty r))]>
        (records w) /\
    promises w1 = promises w ++ [Fulfilled d] /\
    reactions w1 = reactions w /\ timers w1 = timers w /\
    trace w1
    = trace w ++
      (if strict_eq d VUndefined
       then [Log LAssert "[CacheRecord.setDataAs] needs valid data to set!"] else []) ++
      RegDestroy (_data r) (_type r) ::
      map (fun t => NeedsDraw (TiledImage.id (Tile.tiledImage t))) ts.
Proof.
  intros Hr Hl Hd Hq Ht. unfold setDataAs. unfold bind at 1.
  set (d0 := if strict_eq d VUndefined
             then [Log LAssert "[CacheRecord.setDataAs] needs valid data to set!"] else []).
  assert (Hca : console_assert (negb (strict_eq d VUndefined))
                  "[CacheRecord.setDataAs] needs valid data to set!" w
                = (Ret tt, logged d0 w)).
  { unfold console_assert, when, d0. destruct (strict_eq d VUndefined); cbn; [reflexivity|].
    now rewrite logged_nil. }
  rewrite Hca. unfold bind at 1. erewrite this_at by (cbn; exact Hr). rewrite Hq.
  unfold _overwriteData. unfold bind at 1. erewrite this_at by (cbn; exact Hr).
  rewrite Hd, Hl. unfold bind at 1. cbn [emit modify].
  unfold bind at 1. cbn [promise_resolve new_promise].
  unfold bind at 1. erewrite update_at by (cbn; exact Hr).
  unfold bind at 1. unfold _triggerNeedsDraw, bind at 1.
  erewrite this_at by (cbn; eapply lookup_updated; exact Hr).
  cbn [_tiles set_promise set_data set_type]. rewrite Ht.
  cbn. eexists. split; [reflexivity|]. cbn.
  repeat split. now rewrite <- !app_assoc.
Qed.

Lemma setDataAs_loaded_overwrites_witness :
  exists w1,
    setDataAs 0 Scenario.D2 Scenario.png (Scenario.one_record Scenario.no_route)
    = (Ret 1%nat, w1) /\
    promises w1 = [Fulfilled Scenario.D1; Fulfilled Scenario.D2] /\
    trace w1 = [RegDestroy Scenario.D1 Scenario.raw; NeedsDraw 0].
Proof.
  destruct (setDataAs_loaded_overwrites (Scenario.one_record Scenario.no_route) 0
              (Scenario.holding [Scenario.tile 1 "A" 2 10 []] Scenario.D1 0)
              [Scenario.tile 1 "A" 2 10 []] Scenario.D2 Scenario.png
              eq_refl eq_refl eq_refl eq_refl eq_refl)
    as (w1 & H1 & _ & H2 & _ & _ & H3).
  exists w1. repeat split; assumption.
Defined.

(** X9.  [setDataAs(d, ty)] on a destroyed record takes ownership of the
    data: after [destroy()] of a loaded record, the call hands [d] to the
    registry's [destroy], leaves the record cleared and returns an eventual
    fulfilled with [undefined]. *)
Theorem setDataAs_after_destroy_releases w this r d ty :
  records w !! this = Some r -> loaded r = true ->
  exists p w2,
    (destroy this;; setDataAs this d ty) w = (Ret p, w2) /\
    records w2 = <[this := mkCacheRecord None VNull VNull false None true None]> (records w) /\
    promises w2 !! p = Some (Fulfilled VUndefined) /\
    trace w2
    = trace w ++ RegDestroy (_data r) (_type r) ::
      (if strict_eq d VUndefined
       then [Log LAssert "[CacheRecord.setDataAs] needs valid data to set!"] else []) ++
      [RegDestroy d ty].
Proof.
  intros Hr Hl. unfold bind at 1. rewrite (destroy_loaded _ _ _ Hr Hl).
  assert (Hr1 : <[this := mkCacheRecord None VNull VNull false None true None]> (records w)
                !! this = Some (mkCacheRecord None VNull VNull false None true None))
    by (eapply lookup_updated; exact Hr).
  unfold setDataAs. unfold bind at 1.
  set (d0 := if strict_eq d VUndefined
             then [Log LAssert "[CacheRecord.setDataAs] needs valid data to set!"] else []).
  match goal with |- context [console_assert ?b ?m ?w0] =>
    assert (Hca : console_assert b m w0 = (Ret tt, logged d0 w0))
  end.
  { unfold console_assert, when, d0. destruct (strict_eq d VUndefined); cbn; [reflexivity|].
    unfold logged, set_trace. cbn. now rewrite app_nil_r. }
  rewrite Hca. unfold bind at 1. erewrite this_at by (cbn; exact Hr1).
  cbn [_conversionJobQueue].
  unfold _overwriteData. unfold bind at 1. erewrite this_at by (cbn; exact Hr1).
  cbn. eexists _, _. split; [reflexivity|]. cbn.
  repeat split.
  - rewrite lookup_app_r by lia. now rewrite Nat.sub_diag.
  - now rewrite <- !app_assoc.
Qed.

Lemma setDataAs_after_destroy_releases_witness :
  exists p w2,
    (destroy 0;; setDataAs 0 Scenario.D2 Scenario.png) (Scenario.one_record Scenario.no_route)
    = (Ret p, w2) /\
    trace w2 = [RegDestroy Scenario.D1 Scenario.raw; RegDestroy Scenario.D2 Scenario.png].
Proof.
  destruct (setDataAs_after_destroy_releases (Scenario.one_record Scenario.no_route) 0
              (Scenario.holding [Scenario.tile 1 "A" 2 10 []] Scenario.D1 0)
              Scenario.D2 Scenario.png eq_refl eq_refl)
    as (p & w2 & H1 & _ & _ & H2).
  exists p, w2. split; assumption.
Defined.

(** ** transformTo and the deprecated accessors *)

(** [transformTo(T)] on a loaded record of another format, when the registry
    gives a route of at least one edge: the store right after the call. *)
Lemma transformTo_starts w this r T e rest :
  records w !! this = Some r -> loaded r = true ->
  strict_eq T VUndefined = false -> strict_eq T (_type r) = false ->
  getConversionPath (convertor w) (_type r) T = Some (e :: rest) ->
  transformTo this T w
  = (Ret (Some (S (length (promises w)))),
     mkWorld
       (<[this := set_promise (Some (S (length (promises w))))
                    (set_type T (set_data VUndefined (set_loaded false r)))]> (records w))
       (promises w ++ [Fulfilled (transform e (_data r)); Pending])
       (reactions w ++
          [mkReaction (length (promises w))
                      (CbConvert this (e :: rest) (_type r) (_data r) (_data r) 0)
                      (S (length (promises w)))])
       (timers w) (convertor w)
       (trace w ++ [RegGetConversionPath (_type r) T;
                    RegTransform (origin_value e) (target_value e) (_data r)])).
Proof.
  intros Hr Hl HT Hne Hpath.
  unfold transformTo at 1. unfold bind at 1. rewrite (this_at _ _ _ Hr).
  rewrite HT, Hl, Hne. cbn [negb orb].
  unfold bind at 1. unfold _convert. unfold bind at 1. cbn [get].
  unfold bind at 1. cbn [emit modify]. rewrite Hpath.
  unfold bind at 1. erewrite this_at by (cbn; exact Hr).
  unfold bind at 1. erewrite update_at by (cbn; exact Hr). simpl_world.
  unfold bind at 1. unfold convert.
  cbn [lookup list_lookup].
  unfold bind at 1. cbn [emit modify]. simpl_world.
  unfold bind at 1. cbn [promise_resolve new_promise]. simpl_world.
  unfold then_, bind at 1. cbn [new_promise]. simpl_world.
  unfold bind at 1. cbn [modify ret]. simpl_world.
  erewrite update_at by (cbn; eapply lookup_updated; exact Hr).
  simpl_world. rewrite list_insert_insert_eq.
  unfold bind at 1.
  erewrite this_at by (cbn; eapply lookup_updated; exact Hr).
  cbn [_promise set_promise]. unfold ret.
  rewrite length_app, <- !app_assoc. cbn.
  replace (length (promises w) + 1)%nat with (S (length (promises w))) by lia.
  unfold set_records, set_reactions, set_promises, logged, set_trace. cbn.
  now rewrite <- !app_assoc.
Qed.

(** [this.transformTo(T); return this.data] on a loaded record. *)
Lemma read_after_transformTo w this r T :
  records w !! this = Some r -> loaded r = true -> strict_eq T VUndefined = false ->
  (_type r = T -> (_ <- transformTo this T;; data this) w = (Ret (_data r), w)) /\
  (forall e rest,
     strict_eq T (_type r) = false ->
     getConversionPath (convertor w) (_type r) T = Some (e :: rest) ->
     exists w1 r1,
       (_ <- transformTo this T;; data this) w = (Ret VUndefined, w1) /\
       records w1 !! this = Some r1 /\ loaded r1 = false /\ _type r1 = T) /\
  (strict_eq T (_type r) = false ->
   getConversionPath (convertor w) (_type r) T = None ->
   exists w1,
     (_ <- transformTo this T;; data this) w = (Ret (_data r), w1) /\
     records w1 = records w).
Proof.
  intros Hr Hl HT. split; [|split].
  - intros Ht. unfold bind at 1. rewrite (transformTo_same_format _ _ _ _ Hr Hl Ht).
    unfold data, bind. now rewrite (this_at _ _ _ Hr).
  - intros e rest Hne Hpath. unfold bind at 1.
    rewrite (transformTo_starts _ _ _ _ _ _ Hr Hl HT Hne Hpath).
    unfold data, bind.
    erewrite this_at by (cbn; eapply lookup_updated; exact Hr). cbn.
    eexists _, _. split; [reflexivity|]. cbn.
    split; [eapply lookup_updated; exact Hr|]. split; reflexivity.
  - intros Hne Hpath. unfold bind at 1.
    unfold transformTo at 1. unfold bind at 1. rewrite (this_at _ _ _ Hr).
    rewrite HT, Hl, Hne. cbn [negb orb].
    assert (Hc : _convert this (_type r) T w
                 = (Ret tt,
                    logged [RegGetConversionPath (_type r) T;
                            Log LError
                              "[OpenSeadragon.convertor.convert] Conversion conversion cannot be done!"]
                           w)).
    { unfold _convert, bind, get, console_error, emit, modify. cbn. rewrite Hpath. cbn.
      unfold logged, set_trace. cbn. now rewrite <- app_assoc. }
    unfold bind at 1. rewrite Hc.
    unfold bind at 1. erewrite this_at by (cbn; exact Hr).
    cbn [ret]. unfold data, bind. erewrite this_at by (cbn; exact Hr).
    eexists. split; reflexivity.
Qed.

(** X10.  [getImage()] reads the payload in the turn it starts the
    conversion.  On a loaded record it returns the payload when the format
    is already "image" (logging the deprecation only); when a conversion of
    at least one edge is needed it returns [undefined] and leaves the record
    not loaded in format "image"; when the registry has no route it returns
    the payload in its old format and the record is unchanged. *)
Theorem getImage_reads_in_the_same_turn w this r :
  records w !! this = Some r -> loaded r = true ->
  (_type r = VStr "image" ->
   getImage this w
   = (Ret (_data r),
      logged [Log LError "[CacheRecord.getImage] options.image is deprecated."] w)) /\
  (forall e rest,
     strict_eq (VStr "image") (_type r) = false ->
     getConversionPath (convertor w) (_type r) (VStr "image") = Some (e :: rest) ->
     exists w1 r1,
       getImage this w = (Ret VUndefined, w1) /\
       records w1 !! this = Some r1 /\ loaded r1 = false /\ _type r1 = VStr "image") /\
  (strict_eq (VStr "image") (_type r) = false ->
   getConversionPath (convertor w) (_type r) (VStr "image") = None ->
   exists w1, getImage this w = (Ret (_data r), w1) /\ records w1 = records w).
Proof.
  intros Hr Hl.
  destruct (read_after_transformTo
              (logged [Log LError "[CacheRecord.getImage] options.image is deprecated."] w)
              this r (VStr "image") Hr Hl eq_refl) as (H1 & H2 & H3).
  unfold getImage, bind at 1. cbn [console_error emit modify].
  split; [exact H1 | split; [exact H2 | exact H3]].
Qed.

Lemma getImage_reads_in_the_same_turn_witness :
  exists w1,
    getImage 0 (Scenario.one_record
                  (Scenario.route [Scenario.edge_png] Scenario.raw (VStr "image")))
    = (Ret VUndefined, w1).
Proof.
  destruct (proj1 (proj2 (getImage_reads_in_the_same_turn
                             (Scenario.one_record
                                (Scenario.route [Scenario.edge_png] Scenario.raw (VStr "image")))
                             0 (Scenario.holding [Scenario.tile 1 "A" 2 10 []] Scenario.D1 0)
                             eq_refl eq_refl))
                  Scenario.edge_png [] eq_refl eq_refl)
    as (w1 & r1 & H & _).
  exists w1. exact H.
Defined.

(** X11.  [getRenderedContext()] behaves like [getImage()] for the format
    "context2d": the payload when the record already has that format,
    [undefined] when a conversion is needed, the payload in its old format
    when the registry has no route. *)
Theorem getRenderedContext_reads_in_the_same_turn w this r :
  records w !! this = Some r -> loaded r = true ->
  (_type r = VStr "context2d" ->
   getRenderedContext this w
   = (Ret (_data r),
      logged [Log LError
                "[CacheRecord.getRenderedContext] options.getRenderedContext  is deprecated."]
             w)) /\
  (forall e rest,
     strict_eq (VStr "context2d") (_type r) = false ->
     getConversionPath (convertor w) (_type r) (VStr "context2d") = Some (e :: rest) ->
     exists w1 r1,
       getRenderedContext this w = (Ret VUndefined, w1) /\
       records w1 !! this = Some r1 /\ loaded r1 = false /\ _type r1 = VStr "context2d") /\
  (strict_eq (VStr "context2d") (_type r) = false ->
   getConversionPath (convertor w) (_type r) (VStr "context2d") = None ->
   exists w1, getRenderedContext this w = (Ret (_data r), w1) /\ records w1 = records w).
Proof.
  intros Hr Hl.
  destruct (read_after_transformTo
              (logged [Log LError
                         "[CacheRecord.getRenderedContext] options.getRenderedContext  is deprecated."]
                      w)
              this r (VStr "context2d") Hr Hl eq_refl) as (H1 & H2 & H3).
  unfold getRenderedContext, bind at 1. cbn [console_error emit modify].
  split; [exact H1 | split; [exact H2 | exact H3]].
Qed.

Lemma getRenderedContext_reads_in_the_same_turn_witness :
  exists w1,
    getRenderedContext 0 (Scenario.one_record
                            (Scenario.route [Scenario.edge_png] Scenario.raw Scenario.ctx))
    = (Ret VUndefined, w1).
Proof.
  destruct (proj1 (proj2 (getRenderedContext_reads_in_the_same_turn
                             (Scenario.one_record
                                (Scenario.route [Scenario.edge_png] Scenario.raw Scenario.ctx))
                             0 (Scenario.holding [Scenario.tile 1 "A" 2 10 []] Scenario.D1 0)
                             eq_refl eq_refl))
                  Scenario.edge_png [] eq_refl eq_refl)
    as (w1 & r1 & H & _).
  exists w1. exact H.
Defined.

(** * Requests that arrive during a conversion *)

Lemma run_step fuel w w1 : tick w = (Ret true, w1) -> run (S fuel) w = run fuel w1.
Proof. intros H. cbn [run]. unfold bind. now rewrite H. Qed.

Lemma hd_snoc {A} (l : list A) a b : hd b (l ++ [a]) = hd a l.
Proof. now destruct l. Qed.

(** The adoption chain empties while other reactions wait for its first
    promise: once the last promise of the chain is fulfilled with [v], the
    loop hands [v] down the chain in [length ds] turns and leaves the waiting
    reactions [Ws], now ready. *)
Lemma drain_waiting Ws ds : forall w b v,
  reactions w = Ws ++ links (ds ++ [b]) ->
  NoDup (ds ++ [b]) ->
  promises w !! b = Some (Fulfilled v) ->
  (forall d, In d ds -> promises w !! d = Some Pending) ->
  (forall rc, In rc Ws -> awaited rc = hd b ds) ->
  exists w',
    (forall fuel, run (length ds + fuel) w = run fuel w') /\
    reactions w' = Ws /\ timers w' = timers w /\
    records w' = records w /\ trace w' = trace w /\ convertor w' = convertor w /\
    length (promises w') = length (promises w) /\
    (forall d, In d (ds ++ [b]) -> promises w' !! d = Some (Fulfilled v)) /\
    (forall q, ~ In q ds -> promises w' !! q = promises w !! q).
Proof.
  induction ds as [|a ds IH] using rev_ind; intros w b v Hre Hnd Hb Hpend Hwait.
  - exists w. cbn in Hre. rewrite app_nil_r in Hre.
    repeat split; auto. intros d [<-|[]]. exact Hb.
  - rewrite <- app_assoc in Hre. cbn [app] in Hre. rewrite links_snoc in Hre.
    rewrite app_assoc in Hre.
    assert (Hab : a <> b).
    { intros ->. rewrite <- app_assoc in Hnd. apply NoDup_app in Hnd as (_ & _ & Hnd).
      apply NoDup_cons in Hnd as [Hnd _]. apply Hnd. now left. }
    assert (Ha : promises w !! a = Some Pending).
    { apply Hpend. apply in_or_app. right. now left. }
    assert (Hblocked : Forall (fun rc => settled w rc = false) (Ws ++ links (ds ++ [a]))).
    { apply Forall_app. split; apply Forall_forall; intros rc Hin%list_elem_of_In;
        unfold settled.
      - rewrite (Hwait rc Hin), hd_snoc. rewrite Hpend; [reflexivity|].
        destruct ds as [|d0 ds]; cbn; auto.
      - apply links_awaited in Hin. rewrite Hpend; [reflexivity|].
        destruct ds as [|d0 ds]; cbn in Hin; [tauto|]. cbn. right. exact Hin. }
    pose proof (tick_reaction w _ _ [] (Fulfilled v) Hre Hblocked Hb ltac:(discriminate))
      as Htick.
    rewrite app_nil_r in Htick.
    unfold bind at 1 in Htick. cbn [run_reaction callback_body cb derived ret resolve] in Htick.
    unfold settle, modify in Htick. cbn [promises set_reactions ret] in Htick.
    rewrite Ha in Htick.
    set (w1 := set_promises (<[a := Fulfilled v]> (promises w))
                            (set_reactions (Ws ++ links (ds ++ [a])) w)) in *.
    destruct (IH w1 a v) as (w' & Hrun & H1 & H2 & H3 & H4 & H5 & H6 & H7 & H8).
    + reflexivity.
    + rewrite <- app_assoc in Hnd. cbn in Hnd.
      apply NoDup_app in Hnd as (Hn1 & Hn2 & Hn3).
      apply NoDup_app. split; [exact Hn1|]. split.
      * intros x Hx [->|[]]%list_elem_of_In. apply (Hn2 _ Hx). left.
      * apply NoDup_singleton.
    + cbn. apply list_lookup_insert_eq. eapply lookup_lt_Some; eauto.
    + intros d Hd. cbn. rewrite list_lookup_insert_ne.
      * apply Hpend. apply in_or_app. now left.
      * intros <-. rewrite <- app_assoc in Hnd. cbn in Hnd.
        apply NoDup_app in Hnd as (_ & Hn2 & _).
        apply (Hn2 a); [now apply list_elem_of_In | left].
    + intros rc Hin. rewrite (Hwait rc Hin). apply hd_snoc.
    + exists w'. split.
      { intros fuel. rewrite length_app. cbn [length].
        replace (length ds + 1 + fuel)%nat with (S (length ds + fuel)) by lia.
        rewrite (run_step _ _ _ Htick). apply Hrun. }
      split; [exact H1|]. split; [exact H2|]. split; [exact H3|]. split; [exact H4|].
      split; [exact H5|]. split; [rewrite H6; cbn; apply length_insert|].
      split.
      * intros d Hd. apply in_app_or in Hd as [Hd|[<-|[]]].
        -- apply H7. exact Hd.
        -- rewrite H8.
           ++ cbn. rewrite list_lookup_insert_ne by exact Hab. exact Hb.
           ++ intros Hin. apply NoDup_app in Hnd as (_ & Hn2 & _).
              apply (Hn2 b); [apply list_elem_of_In, in_or_app; now left | left].
      * intros q Hq. rewrite H8.
        -- cbn. apply list_lookup_insert_ne. intros <-. apply Hq. apply in_or_app.
           right. now left.
        -- intros Hin. apply Hq. apply in_or_app. now left.
Qed.

Section ConversionWithRequests.
Variables (this : nat) (path : list Edge) (F od : jsval).

(** The last conversion step, whatever the job queue holds. *)
Lemma convert_step_finishes w x i dlast pT e y rc :
  path !! i = Some e -> path !! S i = None -> truthy y = true ->
  records w !! this = Some rc ->
  promises w !! dlast = Some Pending ->
  run_reaction (mkReaction pT (CbConvert this path F od x i) dlast) (Fulfilled y) w
  = (Ret tt,
     mkWorld (<[this := set_loaded true (set_data y rc)]> (records w))
             (<[dlast := Fulfilled y]> (promises w) ++ [Fulfilled y])
             (reactions w)
             (timers w ++ awaits_convert this rc) (convertor w)
             (trace w ++ [RegDestroy x (origin_value e)])).
Proof.
  intros He He' Hy Hr Hd. unfold run_reaction. cbn [cb derived callback_body].
  rewrite Hy. cbn [negb]. rewrite He.
  unfold convert. rewrite He'.
  unfold bind at 1. unfold emit at 1, modify at 1.
  unfold bind at 1. unfold bind at 1.
  erewrite update_at by (cbn; exact Hr).
  unfold bind at 1. unfold _checkAwaitsConvert, bind at 1.
  erewrite this_at by (cbn; eapply lookup_updated; exact Hr).
  cbn [_conversionJobQueue _destroyed set_loaded set_data]. unfold awaits_convert.
  destruct (_conversionJobQueue rc) as [q|]; [destruct (_destroyed rc)|].
  all: cbn; rewrite ?app_nil_r.
  all: rewrite lookup_app_r by lia; rewrite Nat.sub_diag; cbn.
  all: unfold settle, modify; cbn; rewrite lookup_app_l by (eapply lookup_lt_Some; eauto).
  all: rewrite Hd; unfold set_promises; cbn.
  all: rewrite insert_app_l by (eapply lookup_lt_Some; eauto); reflexivity.
Qed.

(** A conversion in flight at edge [i], with reactions [Ws] waiting for its
    outermost promise, runs to its end when every remaining edge resolves
    with a truthy value: the record is loaded with the converted value, every
    promise of the conversion is fulfilled with it, and [Ws] are the reactions
    left, now ready. *)
Lemma conversion_waiting Ws rest : forall i x e w ds0 dlast B1 B2 pT rc,
  drop i path = e :: rest ->
  reactions w = B1 ++ mkReaction pT (CbConvert this path F od x i) dlast :: B2 ->
  B1 ++ B2 = Ws ++ links (ds0 ++ [dlast]) ->
  (forall r, In r Ws -> awaited r = hd dlast ds0) ->
  promises w !! pT = Some (Fulfilled (transform e x)) ->
  (forall d, In d (ds0 ++ [dlast]) -> promises w !! d = Some Pending) ->
  NoDup (ds0 ++ [dlast]) ->
  records w !! this = Some rc ->
  all_truthy (e :: rest) x = true ->
  exists w' delta,
    (forall fuel, run (2 * length rest + 1 + length ds0 + fuel) w = run fuel w') /\
    reactions w' = Ws /\
    timers w' = timers w ++ awaits_convert this rc /\
    records w'
    = <[this := set_loaded true (set_data (converted (e :: rest) x) rc)]> (records w) /\
    convertor w' = convertor w /\
    trace w' = trace w ++ delta /\
    (forall d, In d (ds0 ++ [dlast]) ->
               promises w' !! d = Some (Fulfilled (converted (e :: rest) x))) /\
    (forall q, (q < length (promises w))%nat -> ~ In q (ds0 ++ [dlast]) ->
               promises w' !! q = promises w !! q).
Proof.
  induction rest as [|e' rest IH];
    intros i x e w ds0 dlast B1 B2 pT rc Hdrop Hre Hlinks Hwait HpT Hpend Hnd Hr Htr.
  all: destruct (drop_cons_inv _ _ _ _ Hdrop) as [He Hdrop'].
  all: cbn [all_truthy] in Htr; apply andb_true_iff in Htr as [Hy Htr].
  all: assert (Hblocked : Forall (fun rc => settled w rc = false) B1)
    by (apply Forall_forall; intros r' Hin; unfold settled;
        assert (Hin' : In r' (Ws ++ links (ds0 ++ [dlast])))
          by (rewrite <- Hlinks; apply in_or_app; left; now apply list_elem_of_In);
        apply in_app_or in Hin' as [Hin'|Hin'];
        [ rewrite (Hwait r' Hin'); rewrite Hpend; [reflexivity|];
          destruct ds0; cbn; auto
        | apply links_awaited in Hin'; rewrite Hpend; [reflexivity|];
          destruct (ds0 ++ [dlast]); cbn in Hin'; [tauto | now right] ]).
  all: pose proof (tick_reaction w _ _ _ _ Hre Hblocked HpT ltac:(discriminate)) as Htick;
    unfold bind at 1 in Htick.
  - (* the last edge *)
    assert (He' : path !! S i = None).
    { apply lookup_ge_None. apply drop_nil_inv in Hdrop'. lia. }
    erewrite convert_step_finishes in Htick;
      [| exact He | exact He' | exact Hy | cbn; exact Hr
       | cbn; apply Hpend, in_or_app; right; now left].
    cbn [ret set_reactions records promises reactions timers convertor trace] in Htick.
    rewrite Hlinks in Htick. unfold ret in Htick.
    match type of Htick with _ = (_, ?w1) => set (w1' := w1) in * end.
    assert (Hlast : promises w !! dlast = Some Pending)
      by (apply Hpend, in_or_app; right; now left).
    destruct (drain_waiting Ws ds0 w1' dlast (transform e x))
      as (w' & Hrun & H1 & H2 & H3 & H4 & H5 & H6 & H7 & H8).
    + reflexivity.
    + exact Hnd.
    + cbn. rewrite lookup_app_l by (rewrite length_insert; eapply lookup_lt_Some; eauto).
      apply list_lookup_insert_eq. eapply lookup_lt_Some; eauto.
    + intros d Hd. cbn.
      assert (Hdp : promises w !! d = Some Pending) by (apply Hpend, in_or_app; now left).
      rewrite lookup_app_l by (rewrite length_insert; eapply lookup_lt_Some; eauto).
      rewrite list_lookup_insert_ne; [exact Hdp|].
      intros <-. apply NoDup_app in Hnd as (_ & Hn & _).
      apply (Hn dlast); [now apply list_elem_of_In | left].
    + exact Hwait.
    + exists w', [RegDestroy x (origin_value e)]. split.
      { intros fuel. cbn [length].
        replace (2 * 0 + 1 + length ds0 + fuel)%nat with (S (length ds0 + fuel)) by lia.
        rewrite (run_step _ _ _ Htick). apply Hrun. }
      split; [exact H1|]. split; [rewrite H2; reflexivity|].
      split; [rewrite H3; reflexivity|]. split; [rewrite H5; reflexivity|].
      split; [rewrite H4; reflexivity|]. split; [exact H7|].
      intros q Hq Hnin. rewrite H8 by (intros Hin; apply Hnin, in_or_app; now left).
      cbn. rewrite lookup_app_l by (rewrite length_insert; exact Hq).
      apply list_lookup_insert_ne. intros <-. apply Hnin, in_or_app. right. now left.
  - (* another edge follows *)
    assert (He' : path !! S i = Some e') by (apply (drop_cons_inv _ _ _ _ Hdrop')).
    erewrite convert_step_next in Htick; [| exact He | exact He' | exact Hy].
    cbn [ret set_reactions records promises reactions timers convertor trace] in Htick.
    unfold ret in Htick.
    match type of Htick with _ = (_, ?w1) => set (w1' := w1) in * end.
    assert (Hlt : forall d, In d (ds0 ++ [dlast]) -> (d < length (promises w))%nat)
      by (intros d Hd; eapply lookup_lt_Some; apply Hpend; exact Hd).
    destruct (IH (S i) (transform e x) e' w1' (ds0 ++ [dlast]) (S (length (promises w)))
                 (B1 ++ B2) [mkReaction (S (length (promises w))) CbAdopt dlast]
                 (length (promises w)) rc)
      as (w' & delta & Hrun & H1 & H2 & H3 & H4 & H5 & H6 & H7).
    + exact Hdrop'.
    + subst w1'. cbn. rewrite <- app_assoc. reflexivity.
    + rewrite Hlinks. rewrite <- (app_assoc ds0 [dlast]). cbn [app].
      rewrite links_snoc. now rewrite app_assoc.
    + intros r Hin. rewrite (Hwait r Hin). symmetry. apply hd_snoc.
    + subst w1'. cbn. rewrite lookup_app_r by lia. now rewrite Nat.sub_diag.
    + intros d Hd. subst w1'. cbn [promises]. apply in_app_or in Hd as [Hd|[<-|[]]].
      * rewrite lookup_app_l by (now apply Hlt). now apply Hpend.
      * rewrite lookup_app_r by lia.
        replace (S (length (promises w)) - length (promises w))%nat with 1%nat by lia.
        reflexivity.
    + apply NoDup_app. split; [exact Hnd|]. split; [|apply NoDup_singleton].
      intros d Hd [<-|[]]%list_elem_of_In. apply list_elem_of_In, Hlt in Hd. lia.
    + exact Hr.
    + exact Htr.
    + exists w', ([RegDestroy x (origin_value e);
                   RegTransform (origin_value e') (target_value e') (transform e x)] ++ delta).
      split.
      { intros fuel. cbn [length].
        replace (2 * S (length rest) + 1 + length ds0 + fuel)%nat
          with (S (2 * length rest + 1 + length (ds0 ++ [dlast]) + fuel))
          by (rewrite length_app; cbn; lia).
        rewrite (run_step _ _ _ Htick). apply Hrun. }
      split; [exact H1|]. split; [exact H2|]. split; [exact H3|]. split; [exact H4|].
      split; [rewrite H5; subst w1'; cbn; now rewrite <- app_assoc|].
      split.
      * intros d Hd. apply H6. apply in_or_app. now left.
      * intros q Hq Hnin. rewrite H7.
        -- subst w1'. cbn. apply lookup_app_l. exact Hq.
        -- subst w1'. cbn. rewrite length_app. cbn. lia.
        -- intros Hin. apply in_app_or in Hin as [Hin|[<-|[]]]; [tauto | lia].
Qed.

End ConversionWithRequests.

(** [_convert] when the registry gives a route of at least one edge: the
    store right after the call. *)
Lemma convert_starts w this r from to e rest :
  records w !! this = Some r ->
  getConversionPath (convertor w) from to = Some (e :: rest) ->
  _convert this from to w
  = (Ret tt,
     mkWorld
       (<[this := set_promise (Some (S (length (promises w))))
                    (set_type to (set_data VUndefined (set_loaded false r)))]> (records w))
       (promises w ++ [Fulfilled (transform e (_data r)); Pending])
       (reactions w ++
          [mkReaction (length (promises w))
                      (CbConvert this (e :: rest) from (_data r) (_data r) 0)
                      (S (length (promises w)))])
       (timers w) (convertor w)
       (trace w ++ [RegGetConversionPath from to;
                    RegTransform (origin_value e) (target_value e) (_data r)])).
Proof.
  intros Hr Hpath.
  unfold _convert. unfold bind at 1. cbn [get].
  unfold bind at 1. cbn [emit modify]. rewrite Hpath.
  unfold bind at 1. erewrite this_at by (cbn; exact Hr).
  unfold bind at 1. erewrite update_at by (cbn; exact Hr). simpl_world.
  unfold bind at 1. unfold convert.
  cbn [lookup list_lookup].
  unfold bind at 1. cbn [emit modify]. simpl_world.
  unfold bind at 1. cbn [promise_resolve new_promise]. simpl_world.
  unfold then_, bind at 1. cbn [new_promise]. simpl_world.
  unfold bind at 1. cbn [modify ret]. simpl_world.
  erewrite update_at by (cbn; eapply lookup_updated; exact Hr).
  simpl_world. rewrite list_insert_insert_eq.
  rewrite length_app, <- !app_assoc. cbn.
  replace (length (promises w) + 1)%nat with (S (length (promises w))) by lia.
  unfold set_records, set_reactions, set_promises, logged, set_trace. cbn.
  now rewrite <- !app_assoc.
Qed.

Lemma run_more n fuel w w' :
  (forall f, run (n + f) w = run f w') -> (n <= fuel)%nat ->
  run fuel w = run (fuel - n) w'.
Proof. intros H Hle. rewrite <- (H (fuel - n)%nat). f_equal. lia. Qed.

(** X12.  [setDataAs(d, ty)] called while a [transformTo(T)] is converting
    a record does not touch the record at once.  Once the event loop has
    run, the conversion has finished, the converted value has been handed to
    the registry's [destroy] with format [T], the record is loaded with [d]
    in format [ty] and its ready handle is fulfilled with [d]; the eventual
    of [transformTo] and the eventual of [setDataAs] are both fulfilled with
    the converted value. *)
Theorem setDataAs_during_conversion w this r ts T e rest d ty fuel :
  records w !! this = Some r ->
  loaded r = true -> _destroyed r = false -> _conversionJobQueue r = None ->
  _tiles r = Some ts ->
  reactions w = [] -> timers w = [] ->
  strict_eq T VUndefined = false -> strict_eq T (_type r) = false ->
  getConversionPath (convertor w) (_type r) T = Some (e :: rest) ->
  all_truthy (e :: rest) (_data r) = true ->
  strict_eq d VUndefined = false ->
  (2 * length (e :: rest) <= fuel)%nat ->
  exists p q w1 w2 w3 r3 pd delta,
    transformTo this T w = (Ret (Some p), w1) /\
    setDataAs this d ty w1 = (Ret q, w2) /\
    records w2 = records w1 /\
    run fuel w2 = (Ret tt, w3) /\
    reactions w3 = [] /\ timers w3 = [] /\
    promises w3 !! p = Some (Fulfilled (converted (e :: rest) (_data r))) /\
    promises w3 !! q = Some (Fulfilled (converted (e :: rest) (_data r))) /\
    records w3 !! this = Some r3 /\
    loaded r3 = true /\ _data r3 = d /\ _type r3 = ty /\ _tiles r3 = Some ts /\
    _promise r3 = Some pd /\ promises w3 !! pd = Some (Fulfilled d) /\
    trace w3
    = trace w ++ delta ++
      RegDestroy (converted (e :: rest) (_data r)) T ::
      map (fun t => NeedsDraw (TiledImage.id (Tile.tiledImage t))) ts.
Proof.
  intros Hr Hl Hd Hq Ht Hre Hti HT Hne Hpath Htr Hdu Hfuel.
  rewrite (transformTo_starts _ _ _ _ _ _ Hr Hl HT Hne Hpath).
  set (n := length (promises w)).
  set (r1 := set_promise (Some (S n)) (set_type T (set_data VUndefined (set_loaded false r)))).
  match goal with |- context [(Ret (Some (S n)), ?w0) = _] => set (w1 := w0) end.
  assert (Hr1 : records w1 !! this = Some r1) by (cbn; eapply lookup_updated; exact Hr).
  (* setDataAs chains on the conversion's promise *)
  set (c := converted (e :: rest) (_data r)).
  set (W := mkReaction (S n) (CbOverwrite this d ty) (S (S n))).
  set (w2 := set_reactions (reactions w1 ++ [W]) (set_promises (promises w1 ++ [Pending]) w1)).
  assert (Hset : setDataAs this d ty w1 = (Ret (S (S n)), w2)).
  { unfold setDataAs. unfold bind at 1. unfold console_assert, when. rewrite Hdu. cbn [negb ret].
    unfold bind at 1. rewrite (this_at _ _ _ Hr1). cbn [_conversionJobQueue r1 set_promise set_type set_data set_loaded].
    rewrite Hq. unfold _overwriteData. unfold bind at 1. rewrite (this_at _ _ _ Hr1).
    cbn [_destroyed loaded _promise r1 set_promise set_type set_data set_loaded]. rewrite Hd.
    unfold then_, bind, new_promise, modify, ret. cbn.
    subst w2 w1 W n. cbn. rewrite length_app. cbn.
    replace (length (promises w) + 2)%nat with (S (S (length (promises w)))) by lia.
    reflexivity. }
  destruct (conversion_waiting this (e :: rest) (_type r) (_data r) [W] rest 0 (_data r) e w2
              [] (S n) [] [W] n r1)
    as (w3 & delta & Hrun & H1 & H2 & H3 & H4 & H5 & H6 & H7).
  { reflexivity. }
  { subst w2 w1. cbn. now rewrite Hre. }
  { reflexivity. }
  { intros rc [<-|[]]. reflexivity. }
  { subst w2 w1 n. cbn. rewrite lookup_app_l by (rewrite length_app; cbn; lia).
    rewrite lookup_app_r by lia. now rewrite Nat.sub_diag. }
  { intros d0 [<-|[]]. subst w2 w1 n. cbn.
    rewrite lookup_app_l by (rewrite !length_app; cbn; lia).
    rewrite lookup_app_r by lia.
    replace (S (length (promises w)) - length (promises w))%nat with 1%nat by lia.
    reflexivity. }
  { apply NoDup_singleton. }
  { exact Hr1. }
  { exact Htr. }
  fold c in H3, H6.
  assert (Hq3 : promises w3 !! S (S n) = Some Pending).
  { rewrite H7.
    - subst w2 w1 n. cbn. rewrite lookup_app_r by (rewrite length_app; cbn; lia).
      rewrite length_app. cbn.
      replace (S (S (length (promises w))) - (length (promises w) + 2))%nat with 0%nat by lia.
      reflexivity.
    - subst w2 w1 n. cbn. rewrite !length_app. cbn. lia.
    - intros [Hin|[]]. lia. }
  assert (Hp3 : promises w3 !! S n = Some (Fulfilled c)) by (apply H6; now left).
  set (r3 := set_loaded true (set_data c r1)).
  assert (Hr3 : records w3 !! this = Some r3).
  { rewrite H3. eapply lookup_updated. subst w2. cbn. exact Hr1. }
  (* the waiting overwrite runs *)
  pose proof (tick_reaction w3 [] W [] (Fulfilled c) H1 (Forall_nil_2 _) Hp3 ltac:(discriminate))
    as Htick.
  cbn [app] in Htick. unfold bind at 1 in Htick.
  cbn [run_reaction callback_body cb derived W] in Htick.
  unfold bind at 1 in Htick.
  erewrite this_at in Htick by (cbn; exact Hr3).
  unfold bind at 1 in Htick. cbn [emit modify] in Htick.
  unfold bind at 1 in Htick. cbn [promise_resolve new_promise] in Htick.
  unfold bind at 1 in Htick.
  erewrite update_at in Htick by (cbn; exact Hr3).
  unfold bind at 1 in Htick. unfold _triggerNeedsDraw, bind at 1 in Htick.
  erewrite this_at in Htick by (cbn; eapply lookup_updated; exact Hr3).
  cbn [_tiles set_promise set_data set_type set_loaded r3 r1] in Htick.
  rewrite Ht in Htick. cbn [modify ret resolve] in Htick.
  unfold settle, modify in Htick.
  cbn [records promises reactions timers convertor trace
       set_records set_promises set_reactions set_timers set_trace logged] in Htick.
  rewrite lookup_app_l in Htick by (eapply lookup_lt_Some; exact Hq3).
  rewrite Hq3 in Htick. unfold ret in Htick.
  match type of Htick with _ = (_, ?w0) => set (w4 := w0) in * end.
  assert (Hti3 : timers w3 = []).
  { rewrite H2. unfold awaits_convert. cbn. rewrite Hq. subst w2 w1. cbn.
    now rewrite Hti. }
  exists (S n), (S (S n)), w1, w2, w4.
  exists (set_promise (Some (length (promises w3))) (set_data d (set_type ty r3))),
         (length (promises w3)),
         ([RegGetConversionPath (_type r) T;
           RegTransform (origin_value e) (target_value e) (_data r)] ++ delta).
  split; [reflexivity|]. split; [exact Hset|]. split; [reflexivity|].
  split.
  { cbn [length] in Hfuel.
    rewrite (run_more _ fuel _ _ Hrun) by (cbn [length]; lia).
    replace (fuel - (2 * length rest + 1 + length (@nil nat)))%nat
      with (S (fuel - (2 * length rest + 2))) by (cbn [length]; lia).
    rewrite (run_step _ _ _ Htick). apply run_idle; [reflexivity | exact Hti3]. }
  split; [reflexivity|]. split; [exact Hti3|].
  assert (Hlt : (S n < length (promises w3))%nat) by (eapply lookup_lt_Some; exact Hp3).
  assert (Hlt' : (S (S n) < length (promises w3))%nat) by (eapply lookup_lt_Some; exact Hq3).
  split.
  { subst w4. cbn. rewrite list_lookup_insert_ne by lia.
    rewrite lookup_app_l by lia. exact Hp3. }
  split.
  { subst w4. cbn. apply list_lookup_insert_eq. rewrite length_app. lia. }
  split; [subst w4; cbn; eapply lookup_updated; exact Hr3|].
  cbn. split; [reflexivity|]. split; [reflexivity|]. split; [reflexivity|].
  split; [exact Ht|]. split; [reflexivity|].
  split.
  { rewrite list_lookup_insert_ne by lia. rewrite lookup_app_r by lia.
    now rewrite Nat.sub_diag. }
  rewrite H5. subst w2 w1. cbn. rewrite <- !app_assoc. cbn. reflexivity.
Qed.

(** X13.  [destroy()] called while a [transformTo(T)] is converting a
    record lets the conversion finish and then releases its result: once the
    event loop has run, the converted value has been handed to the
    registry's [destroy] with format [T], tiles, payload, format and ready
    handle are cleared and the record is marked destroyed.  Its [loaded]
    flag is left set by the conversion's last step. *)
Theorem destroy_during_conversion w this r T e rest fuel :
  records w !! this = Some r ->
  loaded r = true -> _destroyed r = false ->
  reactions w = [] -> timers w = [] ->
  strict_eq T VUndefined = false -> strict_eq T (_type r) = false ->
  getConversionPath (convertor w) (_type r) T = Some (e :: rest) ->
  all_truthy (e :: rest) (_data r) = true ->
  (2 * length (e :: rest) <= fuel)%nat ->
  exists p w1 w2 w3 delta,
    transformTo this T w = (Ret (Some p), w1) /\
    destroy this w1 = (Ret tt, w2) /\
    run fuel w2 = (Ret tt, w3) /\
    reactions w3 = [] /\ timers w3 = [] /\
    promises w3 !! p = Some (Fulfilled (converted (e :: rest) (_data r))) /\
    records w3 !! this = Some (mkCacheRecord None VNull VNull true None true None) /\
    trace w3 = trace w ++ delta ++ [RegDestroy (converted (e :: rest) (_data r)) T].
Proof.
  intros Hr Hl Hd Hre Hti HT Hne Hpath Htr Hfuel.
  rewrite (transformTo_starts _ _ _ _ _ _ Hr Hl HT Hne Hpath).
  set (n := length (promises w)).
  set (r1 := set_promise (Some (S n)) (set_type T (set_data VUndefined (set_loaded false r)))).
  match goal with |- context [(Ret (Some (S n)), ?w0) = _] => set (w1 := w0) end.
  assert (Hr1 : records w1 !! this = Some r1) by (cbn; eapply lookup_updated; exact Hr).
  set (c := converted (e :: rest) (_data r)).
  set (W := mkReaction (S n) (CbDestroy this T) (S (S n))).
  set (r2 := set_loaded false (set_destroyed true (set_queue None r1))).
  set (w2 := set_records (<[this := r2]> (records w1))
               (set_reactions (reactions w1 ++ [W])
                  (set_promises (promises w1 ++ [Pending]) w1))).
  assert (Hdes : destroy this w1 = (Ret tt, w2)).
  { unfold destroy. unfold bind at 1. rewrite (update_at _ _ _ _ Hr1).
    unfold bind at 1. erewrite this_at by (cbn; eapply lookup_updated; exact Hr1).
    cbn [loaded _promise _type set_destroyed set_queue r1 set_promise set_type set_data
         set_loaded].
    unfold bind at 1. unfold bind at 1. unfold then_, bind at 1. cbn [new_promise].
    unfold bind at 1. cbn [modify ret].
    erewrite update_at
      by (cbn; eapply lookup_updated; exact Hr1).
    subst w2 W r2 w1 n. cbn. rewrite length_app, !list_insert_insert_eq. cbn.
    replace (length (promises w) + 2)%nat with (S (S (length (promises w)))) by lia.
    reflexivity. }
  assert (Hr2 : records w2 !! this = Some r2) by (cbn; eapply lookup_updated; exact Hr1).
  destruct (conversion_waiting this (e :: rest) (_type r) (_data r) [W] rest 0 (_data r) e w2
              [] (S n) [] [W] n r2)
    as (w3 & delta & Hrun & H1 & H2 & H3 & H4 & H5 & H6 & H7).
  { reflexivity. }
  { subst w2 w1. cbn. now rewrite Hre. }
  { reflexivity. }
  { intros rc [<-|[]]. reflexivity. }
  { subst w2 w1 n. cbn. rewrite lookup_app_l by (rewrite length_app; cbn; lia).
    rewrite lookup_app_r by lia. now rewrite Nat.sub_diag. }
  { intros d0 [<-|[]]. subst w2 w1 n. cbn.
    rewrite lookup_app_l by (rewrite !length_app; cbn; lia).
    rewrite lookup_app_r by lia.
    replace (S (length (promises w)) - length (promises w))%nat with 1%nat by lia.
    reflexivity. }
  { apply NoDup_singleton. }
  { exact Hr2. }
  { exact Htr. }
  fold c in H3, H6.
  assert (Hq3 : promises w3 !! S (S n) = Some Pending).
  { rewrite H7.
    - subst w2 w1 n. cbn. rewrite lookup_app_r by (rewrite length_app; cbn; lia).
      rewrite length_app. cbn.
      replace (S (S (length (promises w))) - (length (promises w) + 2))%nat with 0%nat by lia.
      reflexivity.
    - subst w2 w1 n. cbn. rewrite !length_app. cbn. lia.
    - intros [Hin|[]]. lia. }
  assert (Hp3 : promises w3 !! S n = Some (Fulfilled c)) by (apply H6; now left).
  set (r3 := set_loaded true (set_data c r2)).
  assert (Hr3 : records w3 !! this = Some r3).
  { rewrite H3. eapply lookup_updated. exact Hr2. }
  assert (Hti3 : timers w3 = []).
  { rewrite H2. unfold awaits_convert. cbn. subst w2 w1. cbn. now rewrite Hti. }
  (* the waiting destructor runs *)
  pose proof (tick_reaction w3 [] W [] (Fulfilled c) H1 (Forall_nil_2 _) Hp3
                ltac:(discriminate)) as Htick.
  cbn [app] in Htick. unfold bind at 1 in Htick.
  cbn [run_reaction callback_body cb derived W] in Htick.
  unfold bind at 1 in Htick. cbn [emit modify] in Htick.
  unfold bind at 1 in Htick.
  erewrite this_at in Htick by (cbn; exact Hr3).
  cbn [_destroyed r3 r2 set_loaded set_data set_destroyed negb] in Htick.
  unfold bind at 1 in Htick.
  erewrite update_at in Htick by (cbn; exact Hr3).
  cbn [ret resolve] in Htick.
  unfold settle, modify in Htick.
  cbn [records promises reactions timers convertor trace
       set_records set_promises set_reactions set_timers set_trace logged] in Htick.
  rewrite Hq3 in Htick. unfold ret in Htick.
  match type of Htick with _ = (_, ?w0) => set (w4 := w0) in * end.
  exists (S n), w1, w2, w4,
         ([RegGetConversionPath (_type r) T;
           RegTransform (origin_value e) (target_value e) (_data r)] ++ delta).
  split; [reflexivity|]. split; [exact Hdes|].
  split.
  { cbn [length] in Hfuel.
    rewrite (run_more _ fuel _ _ Hrun) by (cbn [length]; lia).
    replace (fuel - (2 * length rest + 1 + length (@nil nat)))%nat
      with (S (fuel - (2 * length rest + 2))) by (cbn [length]; lia).
    rewrite (run_step _ _ _ Htick). apply run_idle; [reflexivity | exact Hti3]. }
  split; [reflexivity|]. split; [exact Hti3|].
  assert (Hlt : (S n < length (promises w3))%nat) by (eapply lookup_lt_Some; exact Hp3).
  split.
  { subst w4. cbn. rewrite list_lookup_insert_ne by lia. exact Hp3. }
  split; [subst w4; cbn; eapply lookup_updated; exact Hr3|].
  subst w4. cbn. rewrite H5. subst w2 w1. cbn. rewrite <- !app_assoc. reflexivity.
Qed.

(** [transformTo(T)] on a record that is not loaded queues the request. *)
Lemma transformTo_queues w this r T :
  records w !! this = Some r -> loaded r = false -> strict_eq T VUndefined = false ->
  transformTo this T w
  = (Ret (Some (length (promises w))),
     set_records
       (<[this := set_queue (Some (default [] (_conversionJobQueue r) ++
                                   [JobTransform T (length (promises w))])) r]> (records w))
       (set_promises (promises w ++ [Pending]) w)).
Proof.
  intros Hr Hl HT. unfold transformTo. unfold bind at 1. rewrite (this_at _ _ _ Hr).
  rewrite HT, Hl. cbn [negb orb].
  unfold bind at 1. cbn [new_promise].
  unfold bind at 1. erewrite update_at by (cbn; exact Hr). reflexivity.
Qed.

(** The timer of [_checkAwaitsConvert] takes the queued [transformTo] and
    starts its conversion. *)
Lemma queued_transform_starts w this r T q e rest :
  reactions w = [] -> timers w = [this] ->
  records w !! this = Some r ->
  _conversionJobQueue r = Some [JobTransform T q] -> _destroyed r = false ->
  strict_eq T (_type r) = false ->
  getConversionPath (convertor w) (_type r) T = Some (e :: rest) ->
  tick w
  = (Ret true,
     mkWorld
       (<[this := set_promise (Some (S (length (promises w))))
                    (set_type T (set_data VUndefined (set_loaded false (set_queue None r))))]>
          (records w))
       (promises w ++ [Fulfilled (transform e (_data r)); Pending; Pending])
       [mkReaction (length (promises w))
                   (CbConvert this (e :: rest) (_type r) (_data r) (_data r) 0)
                   (S (length (promises w)));
        mkReaction (S (length (promises w))) (CbJobConverted q)
                   (S (S (length (promises w))))]
       [] (convertor w)
       (trace w ++ [RegGetConversionPath (_type r) T;
                    RegTransform (origin_value e) (target_value e) (_data r)])).
Proof.
  intros Hre Hti Hr Hq Hd Hne Hpath.
  unfold tick. unfold bind at 1. cbn [get]. rewrite Hre. cbn [find_index]. rewrite Hti.
  unfold bind at 1. cbn [modify]. f_equal.
  unfold timer_body. unfold bind at 1. erewrite this_at by (cbn; exact Hr).
  rewrite Hq, Hd. cbn [delete list_delete lookup list_lookup].
  unfold bind at 1. erewrite update_at by (cbn; exact Hr).
  cbn [run_job]. unfold bind at 1.
  erewrite this_at by (cbn; eapply lookup_updated; exact Hr).
  cbn [_destroyed _type set_queue]. rewrite Hd, Hne. cbn [negb].
  unfold bind at 1.
  erewrite convert_starts; [| cbn; eapply lookup_updated; exact Hr | cbn; exact Hpath].
  unfold bind at 1.
  erewrite this_at by (cbn; eapply lookup_updated; eapply lookup_updated; exact Hr).
  cbn [_promise set_promise].
  unfold then_, bind, new_promise, modify, ret. cbn.
  rewrite list_insert_insert_eq, Hre, length_app, <- !app_assoc. cbn.
  replace (length (promises w) + 2)%nat with (S (S (length (promises w)))) by lia.
  reflexivity.
Qed.

(** The reaction a queued [transformTo] leaves on the conversion it started
    resolves the eventual the request returned. *)
Lemma job_converted_resolves w p q q2 v :
  reactions w = [mkReaction p (CbJobConverted q) q2] ->
  promises w !! p = Some (Fulfilled v) ->
  promises w !! q = Some Pending -> promises w !! q2 = Some Pending -> q <> q2 ->
  tick w
  = (Ret true,
     set_promises (<[q2 := Fulfilled VUndefined]> (<[q := Fulfilled v]> (promises w)))
                  (set_reactions [] w)).
Proof.
  intros Hre Hp Hq Hq2 Hne.
  rewrite (tick_reaction w [] _ [] (Fulfilled v) Hre (Forall_nil_2 _) Hp ltac:(discriminate)).
  cbn [app]. unfold bind at 1. cbn [run_reaction callback_body cb derived].
  unfold bind at 1. cbn [resolve]. unfold settle at 1, modify at 1.
  cbn [promises set_reactions]. rewrite Hq. cbn [ret resolve].
  unfold settle, modify. cbn [promises set_promises set_reactions].
  rewrite list_lookup_insert_ne by exact Hne. rewrite Hq2. reflexivity.
Qed.

(** X14.  A [transformTo(T2)] that arrives while the record is being
    converted to [T1] is queued and served after the first conversion: once
    the event loop has run, the first eventual is fulfilled with the value
    converted to [T1], the second with that value converted on to [T2], the
    record is loaded in format [T2] with the latter as payload, and the job
    queue is gone. *)
Theorem transformTo_during_conversion w this r T1 e1 rest1 T2 e2 rest2 fuel :
  records w !! this = Some r ->
  loaded r = true -> _destroyed r = false -> _conversionJobQueue r = None ->
  reactions w = [] -> timers w = [] ->
  strict_eq T1 VUndefined = false -> strict_eq T1 (_type r) = false ->
  getConversionPath (convertor w) (_type r) T1 = Some (e1 :: rest1) ->
  all_truthy (e1 :: rest1) (_data r) = true ->
  strict_eq T2 VUndefined = false -> strict_eq T2 T1 = false ->
  getConversionPath (convertor w) T1 T2 = Some (e2 :: rest2) ->
  all_truthy (e2 :: rest2) (converted (e1 :: rest1) (_data r)) = true ->
  (2 * length (e1 :: rest1) + 2 * length (e2 :: rest2) <= fuel)%nat ->
  exists p1 p2 w1 w2 w3 r3 p3,
    transformTo this T1 w = (Ret (Some p1), w1) /\
    transformTo this T2 w1 = (Ret (Some p2), w2) /\
    trace w2 = trace w1 /\
    run fuel w2 = (Ret tt, w3) /\
    reactions w3 = [] /\ timers w3 = [] /\
    promises w3 !! p1 = Some (Fulfilled (converted (e1 :: rest1) (_data r))) /\
    promises w3 !! p2
    = Some (Fulfilled (converted (e2 :: rest2) (converted (e1 :: rest1) (_data r)))) /\
    records w3 !! this = Some r3 /\
    loaded r3 = true /\ _type r3 = T2 /\
    _data r3 = converted (e2 :: rest2) (converted (e1 :: rest1) (_data r)) /\
    _conversionJobQueue r3 = None /\
    _promise r3 = Some p3 /\
    promises w3 !! p3
    = Some (Fulfilled (converted (e2 :: rest2) (converted (e1 :: rest1) (_data r)))).
Proof.
  intros Hr Hl Hd Hq Hre Hti HT1 Hne1 Hpath1 Htr1 HT2 Hne2 Hpath2 Htr2 Hfuel.
  cbn [length] in Hfuel.
  rewrite (transformTo_starts _ _ _ _ _ _ Hr Hl HT1 Hne1 Hpath1).
  set (n := length (promises w)).
  set (r1 := set_promise (Some (S n))
               (set_type T1 (set_data VUndefined (set_loaded false r)))).
  match goal with |- context [(Ret (Some (S n)), ?w0) = _] => set (w1 := w0) end.
  assert (Hr1 : records w1 !! this = Some r1) by (cbn; eapply lookup_updated; exact Hr).
  set (c1 := converted (e1 :: rest1) (_data r)) in *.
  set (c2 := converted (e2 :: rest2) c1).
  (* the second request is queued *)
  set (r2 := set_queue (Some [JobTransform T2 (S (S n))]) r1).
  set (w2 := set_records (<[this := r2]> (records w1))
               (set_promises (promises w1 ++ [Pending]) w1)).
  assert (Hq2 : transformTo this T2 w1 = (Ret (Some (S (S n))), w2)).
  { rewrite (transformTo_queues w1 this r1 T2 Hr1 eq_refl HT2).
    subst w2 r2 w1 n. cbn. rewrite Hq, length_app. cbn.
    replace (length (promises w) + 2)%nat with (S (S (length (promises w)))) by lia.
    reflexivity. }
  assert (Hr2 : records w2 !! this = Some r2)
    by (cbn; eapply lookup_updated; eapply lookup_updated; exact Hr).
  (* the first conversion runs to its end and sets the timer *)
  destruct (conversion_waiting this (e1 :: rest1) (_type r) (_data r) [] rest1 0 (_data r) e1 w2
              [] (S n) [] [] n r2)
    as (w3 & delta1 & Hrun1 & A1 & A2 & A3 & A4 & A5 & A6 & A7).
  { reflexivity. }
  { subst w2 w1. cbn. now rewrite Hre. }
  { reflexivity. }
  { intros rc []. }
  { subst w2 w1 n. cbn. rewrite lookup_app_l by (rewrite length_app; cbn; lia).
    rewrite lookup_app_r by lia. now rewrite Nat.sub_diag. }
  { intros d0 [<-|[]]. subst w2 w1 n. cbn.
    rewrite lookup_app_l by (rewrite !length_app; cbn; lia).
    rewrite lookup_app_r by lia.
    replace (S (length (promises w)) - length (promises w))%nat with 1%nat by lia.
    reflexivity. }
  { apply NoDup_singleton. }
  { exact Hr2. }
  { exact Htr1. }
  fold c1 in A3, A6.
  assert (Hlen2 : length (promises w2) = S (S (S n)))
    by (subst w2 w1 n; cbn; rewrite !length_app; cbn; lia).
  assert (Hp1 : promises w3 !! S n = Some (Fulfilled c1)) by (apply A6; now left).
  assert (Hq3 : promises w3 !! S (S n) = Some Pending).
  { rewrite A7; [| lia | intros [Hin|[]]; lia].
    subst w2 w1 n. cbn. rewrite lookup_app_r by (rewrite length_app; cbn; lia).
    rewrite length_app. cbn.
    replace (S (S (length (promises w))) - (length (promises w) + 2))%nat with 0%nat by lia.
    reflexivity. }
  set (r3 := set_loaded true (set_data c1 r2)).
  assert (Hr3 : records w3 !! this = Some r3) by (rewrite A3; eapply lookup_updated; exact Hr2).
  assert (Hti3 : timers w3 = [this]).
  { rewrite A2. unfold awaits_convert. subst w2 w1. cbn. now rewrite Hti, Hd. }
  (* the timer starts the queued conversion *)
  set (m := length (promises w3)).
  assert (Hm : (S (S n) < m)%nat) by (eapply lookup_lt_Some; exact Hq3).
  pose proof (queued_transform_starts w3 this r3 T2 (S (S n)) e2 rest2 A1 Hti3 Hr3 eq_refl Hd)
    as Htick3.
  cbn [_type _data r3 r2 r1 set_loaded set_data set_queue set_promise set_type] in Htick3.
  rewrite A4 in Htick3. specialize (Htick3 Hne2 Hpath2). fold m in Htick3.
  set (r4 := set_promise (Some (S m))
               (set_type T2 (set_data VUndefined (set_loaded false (set_queue None r3))))) in *.
  match type of Htick3 with _ = (_, ?w0) => set (w4 := w0) in * end.
  set (W := mkReaction (S m) (CbJobConverted (S (S n))) (S (S m))) in *.
  (* the second conversion runs to its end *)
  destruct (conversion_waiting this (e2 :: rest2) T1 c1 [W] rest2 0 c1 e2 w4
              [] (S m) [] [W] m r4)
    as (w5 & delta2 & Hrun2 & B1 & B2 & B3 & B4 & B5 & B6 & B7).
  { reflexivity. }
  { reflexivity. }
  { reflexivity. }
  { intros rc [<-|[]]. reflexivity. }
  { subst w4 m. cbn. rewrite lookup_app_r by lia. now rewrite Nat.sub_diag. }
  { intros d0 [<-|[]]. subst w4 m. cbn. rewrite lookup_app_r by lia.
    replace (S (length (promises w3)) - length (promises w3))%nat with 1%nat by lia.
    reflexivity. }
  { apply NoDup_singleton. }
  { subst w4. cbn. eapply lookup_updated; exact Hr3. }
  { exact Htr2. }
  fold c2 in B3, B6.
  assert (Hlen4 : length (promises w4) = S (S (S m)))
    by (subst w4 m; cbn; rewrite length_app; cbn; lia).
  assert (Hp5 : promises w5 !! S m = Some (Fulfilled c2)) by (apply B6; now left).
  assert (Hkeep : forall x st, (x < m)%nat -> promises w3 !! x = Some st ->
                               promises w5 !! x = Some st).
  { intros x st Hx Hst. rewrite B7; [| lia | intros [Hin|[]]; lia].
    subst w4. cbn. rewrite lookup_app_l by exact Hx. exact Hst. }
  assert (Hq5 : promises w5 !! S (S n) = Some Pending) by (apply Hkeep; [lia | exact Hq3]).
  assert (Hq5' : promises w5 !! S (S m) = Some Pending).
  { rewrite B7; [| lia | intros [Hin|[]]; lia].
    subst w4 m. cbn. rewrite lookup_app_r by lia.
    replace (S (S (length (promises w3))) - length (promises w3))%nat with 2%nat by lia.
    reflexivity. }
  assert (Hti5 : timers w5 = []) by (rewrite B2; reflexivity).
  pose proof (job_converted_resolves w5 (S m) (S (S n)) (S (S m)) c2 B1 Hp5 Hq5 Hq5'
                ltac:(lia)) as Htick5.
  match type of Htick5 with _ = (_, ?w0) => set (w6 := w0) in * end.
  exists (S n), (S (S n)), w1, w2, w6, (set_loaded true (set_data c2 r4)), (S m).
  split; [reflexivity|]. split; [exact Hq2|]. split; [reflexivity|].
  split.
  { rewrite (run_more _ fuel _ _ Hrun1) by (cbn [length]; lia).
    replace (fuel - (2 * length rest1 + 1 + length (@nil nat)))%nat
      with (S (fuel - (2 * length rest1 + 2))) by (cbn [length]; lia).
    rewrite (run_step _ _ _ Htick3).
    rewrite (run_more _ _ _ _ Hrun2) by (cbn [length]; lia).
    replace (fuel - (2 * length rest1 + 2) - (2 * length rest2 + 1 + length (@nil nat)))%nat
      with (S (fuel - (2 * length rest1 + 2) - (2 * length rest2 + 2)))
      by (cbn [length]; lia).
    rewrite (run_step _ _ _ Htick5). apply run_idle; [reflexivity | exact Hti5]. }
  split; [reflexivity|]. split; [exact Hti5|].
  assert (Hl5 : (S (S m) < length (promises w5))%nat) by (eapply lookup_lt_Some; exact Hq5').
  split.
  { subst w6. cbn. rewrite !list_lookup_insert_ne by lia. apply Hkeep; [lia | exact Hp1]. }
  split.
  { subst w6. cbn. rewrite list_lookup_insert_ne by lia.
    apply list_lookup_insert_eq. lia. }
  split.
  { subst w6. cbn. rewrite B3. eapply lookup_updated. subst w4. cbn.
    eapply lookup_updated; exact Hr3. }
  cbn. split; [reflexivity|]. split; [reflexivity|]. split; [reflexivity|].
  split; [reflexivity|]. split; [reflexivity|].
  rewrite !list_lookup_insert_ne by lia. exact Hp5.
Qed.

Lemma setDataAs_during_conversion_witness :
  exists p q w1 w2 w3 r3,
    transformTo 0 Scenario.ctx
      (Scenario.one_record
         (Scenario.route [Scenario.edge_png; Scenario.edge_ctx] Scenario.raw Scenario.ctx))
    = (Ret (Some p), w1) /\
    setDataAs 0 Scenario.D2 Scenario.raw w1 = (Ret q, w2) /\
    run 4 w2 = (Ret tt, w3) /\
    promises w3 !! q = Some (Fulfilled (VObj 201)) /\
    records w3 !! 0%nat = Some r3 /\ _data r3 = Scenario.D2 /\ _type r3 = Scenario.raw.
Proof.
  destruct (setDataAs_during_conversion
              (Scenario.one_record
                 (Scenario.route [Scenario.edge_png; Scenario.edge_ctx]
                                 Scenario.raw Scenario.ctx))
              0 (Scenario.holding [Scenario.tile 1 "A" 2 10 []] Scenario.D1 0)
              [Scenario.tile 1 "A" 2 10 []] Scenario.ctx Scenario.edge_png [Scenario.edge_ctx]
              Scenario.D2 Scenario.raw 4)
    as (p & q & w1 & w2 & w3 & r3 & pd & delta & H1 & H2 & _ & H3 & _ & _ & _ & H4 & H5 & _ &
        H6 & H7 & _);
    [reflexivity .. | cbn; lia |].
  exists p, q, w1, w2, w3, r3. repeat (split; [assumption|]). assumption.
Defined.

Lemma destroy_during_conversion_witness :
  exists p w1 w2 w3,
    transformTo 0 Scenario.ctx
      (Scenario.one_record
         (Scenario.route [Scenario.edge_png; Scenario.edge_ctx] Scenario.raw Scenario.ctx))
    = (Ret (Some p), w1) /\
    destroy 0 w1 = (Ret tt, w2) /\
    run 4 w2 = (Ret tt, w3) /\
    promises w3 !! p = Some (Fulfilled (VObj 201)) /\
    records w3 !! 0%nat = Some (mkCacheRecord None VNull VNull true None true None).
Proof.
  destruct (destroy_during_conversion
              (Scenario.one_record
                 (Scenario.route [Scenario.edge_png; Scenario.edge_ctx]
                                 Scenario.raw Scenario.ctx))
              0 (Scenario.holding [Scenario.tile 1 "A" 2 10 []] Scenario.D1 0)
              Scenario.ctx Scenario.edge_png [Scenario.edge_ctx] 4)
    as (p & w1 & w2 & w3 & delta & H1 & H2 & H3 & _ & _ & H4 & H5 & _);
    [reflexivity .. | cbn; lia |].
  exists p, w1, w2, w3. repeat (split; [assumption|]). assumption.
Defined.

Lemma transformTo_during_conversion_witness :
  exists p1 p2 w1 w2 w3 r3,
    transformTo 0 Scenario.png (Scenario.one_record Example.two_routes) = (Ret (Some p1), w1) /\
    transformTo 0 Scenario.ctx w1 = (Ret (Some p2), w2) /\
    run 4 w2 = (Ret tt, w3) /\
    promises w3 !! p1 = Some (Fulfilled (VObj 101)) /\
    promises w3 !! p2 = Some (Fulfilled (VObj 201)) /\
    records w3 !! 0%nat = Some r3 /\
    loaded r3 = true /\ _type r3 = Scenario.ctx /\ _data r3 = VObj 201.
Proof.
  destruct (transformTo_during_conversion
              (Scenario.one_record Example.two_routes)
              0 (Scenario.holding [Scenario.tile 1 "A" 2 10 []] Scenario.D1 0)
              Scenario.png Scenario.edge_png [] Scenario.ctx Scenario.edge_ctx [] 4)
    as (p1 & p2 & w1 & w2 & w3 & r3 & p3 & H1 & H2 & _ & H3 & _ & _ & H4 & H5 & H6 & H7 & H8 &
        H9 & _);
    [reflexivity .. | cbn; lia |].
  exists p1, p2, w1, w2, w3, r3. repeat (split; [assumption|]). assumption.
Defined.

(** * Further properties of TileCache *)

(** [unloadCacheForTile] when the tile is attached to the live record of the
    key: the state it leaves. *)
Lemma unloadCacheForTile_detach s tile key d ref r ts i :
  prop_get key (_cachesLoaded (cache s)) = Some ref ->
  records (world s) !! ref = Some r -> _destroyed r = false -> loaded r = true ->
  _tiles r = Some ts ->
  find_index (Tile.same tile) ts = Some i ->
  unloadCacheForTile tile key d s
  = (Ret true,
     if (length (delete i ts) =? 0)%nat then
       if d then
         mkSys (set_caches (prop_delete key (_cachesLoaded (cache s)))
                           (_cachesLoadedCount (cache s) - 1) (cache s))
               (set_records
                  (<[ref := mkCacheRecord None VNull VNull false None true None]>
                     (records (world s)))
                  (logged [RegDestroy (_data r) (_type r)] (world s)))
       else
         mkSys (set_caches (prop_delete key (_cachesLoaded (cache s)))
                           (_cachesLoadedCount (cache s) - 1)
                  (set_zombies (prop_set key ref (_zombiesLoaded (cache s)))
                               (_zombiesLoadedCount (cache s) + 1) (cache s)))
               (set_records (<[ref := set_tiles (Some (delete i ts)) r]> (records (world s)))
                            (world s))
     else
       mkSys (cache s)
             (set_records (<[ref := set_tiles (Some (delete i ts)) r]> (records (world s)))
                          (world s))).
Proof.
  intros Hk Hr Hd Hl Ht Hi.
  unfold unloadCacheForTile. unfold bind at 1. cbn [this_cache]. rewrite Hk.
  unfold bind at 1.
  assert (Hrm : removeTile ref tile (world s)
                = (Ret true,
                   set_records (<[ref := set_tiles (Some (delete i ts)) r]> (records (world s)))
                               (world s))).
  { unfold removeTile, bind. rewrite (this_at _ _ _ Hr), Hd, Ht, Hi.
    now rewrite (update_at _ _ _ _ Hr). }
  erewrite liftW_run by exact Hrm.
  set (r1 := set_tiles (Some (delete i ts)) r).
  unfold bind at 1. unfold bind at 1. unfold getTileCount, bind at 1.
  erewrite liftW_run by (erewrite this_at by (cbn; eapply lookup_updated; exact Hr); reflexivity).
  cbn [ret]. change (tileCount r1) with (length (delete i ts)).
  destruct (length (delete i ts) =? 0)%nat.
  - destruct d.
    + unfold bind at 1.
      erewrite liftW_run
        by (apply (destroy_loaded _ ref r1); [cbn; eapply lookup_updated; exact Hr | exact Hl]).
      cbn. now rewrite list_insert_insert_eq.
    + reflexivity.
  - reflexivity.
Qed.

Lemma after_run_ops_reachable ops m c :
  result (run_ops ops) (initial m c) = Ret tt ->
  reachable (after (run_ops ops) (initial m c)).
Proof. intros H. exists m, c, ops. now apply run_returns. Qed.

Lemma one_tile_wf : well_formed Example.one_tile.
Proof. apply reachable_well_formed, after_run_ops_reachable. reflexivity. Qed.

Lemma shared_wf : well_formed Example.shared.
Proof. apply reachable_well_formed, after_run_ops_reachable. reflexivity. Qed.

Lemma zombie_A_wf : well_formed Scenario.zombie_A.
Proof. apply reachable_well_formed, after_run_ops_reachable. reflexivity. Qed.

Lemma sound_record_at s key ref r :
  well_formed s -> prop_get key (_cachesLoaded (cache s)) = Some ref ->
  record_at s ref = Some r ->
  _destroyed r = false /\ loaded r = true.
Proof.
  intros Hwf Hk Hr.
  destruct (sound_lookup _ _ _ Hwf (getCacheRecord_live _ _ _ Hk)) as (r0 & ts & Hr0 & Hd & Hl & _).
  unfold record_at in Hr. rewrite Hr in Hr0. injection Hr0 as <-. auto.
Qed.

(** X15.  [unloadCacheForTile(tile, key, false)] on the last tile of a
    live record turns the record into a zombie: it leaves the live map and
    enters the zombie map under the same key, [getCacheRecord(key)] still
    finds it, with payload, format and ready handle intact and no tile; the
    number of cached records is unchanged and the registry is not called. *)
Theorem unloadCacheForTile_keeps_zombie s tile key ref r t :
  well_formed s ->
  prop_get key (_cachesLoaded (cache s)) = Some ref ->
  record_at s ref = Some r -> _tiles r = Some [t] -> Tile.same tile t = true ->
  exists s' r',
    unloadCacheForTile tile key false s = (Ret true, s') /\
    prop_get key (_cachesLoaded (cache s')) = None /\
    prop_get key (_zombiesLoaded (cache s')) = Some ref /\
    getCacheRecord (cache s') key = Some ref /\
    record_at s' ref = Some r' /\
    _data r' = _data r /\ _type r' = _type r /\ _promise r' = _promise r /\
    loaded r' = true /\ _destroyed r' = false /\ tileCount r' = 0%nat /\
    numCachesLoaded (cache s') = numCachesLoaded (cache s) /\
    trace (world s') = trace (world s).
Proof.
  intros Hwf Hk Hr Ht Hsame.
  destruct (sound_record_at _ _ _ _ Hwf Hk Hr) as [Hd Hl].
  assert (Hi : find_index (Tile.same tile) [t] = Some 0%nat) by (cbn; now rewrite Hsame).
  rewrite (unloadCacheForTile_detach s tile key false ref r [t] 0 Hk Hr Hd Hl Ht Hi).
  cbn [delete length Nat.eqb].
  eexists _, _. split; [reflexivity|]. cbn [cache world].
  split; [cbn; apply get_delete_eq|].
  split; [cbn; apply get_set_eq|].
  split; [unfold getCacheRecord; cbn; now rewrite get_delete_eq, get_set_eq|].
  split; [unfold record_at; cbn; eapply lookup_updated; exact Hr|].
  cbn. repeat split; auto. unfold numCachesLoaded. cbn. lia.
Qed.

Lemma unloadCacheForTile_keeps_zombie_witness :
  exists s',
    unloadCacheForTile (Example.tile 1 "A") "A" false Example.one_tile
    = (Ret true, s') /\
    getCacheRecord (cache s') "A" = Some 0%nat /\
    numCachesLoaded (cache s') = 1.
Proof.
  destruct (unloadCacheForTile_keeps_zombie Example.one_tile (Example.tile 1 "A")
              "A" 0%nat (Scenario.holding [Example.tile 1 "A"] Scenario.D1 0)
              (Example.tile 1 "A") one_tile_wf eq_refl eq_refl eq_refl eq_refl)
    as (s' & r' & H1 & _ & _ & H2 & _ & _ & _ & _ & _ & _ & _ & H3 & _).
  exists s'. split; [exact H1|]. split; [exact H2 | exact H3].
Defined.

(** X16.  [unloadCacheForTile(tile, key, true)] on the last tile of a live
    record destroys the record: its payload goes to the registry's
    [destroy], [getCacheRecord(key)] finds nothing afterwards, the number of
    cached records drops by one and the zombie map is untouched. *)
Theorem unloadCacheForTile_destroys_last s tile key ref r t :
  well_formed s ->
  prop_get key (_cachesLoaded (cache s)) = Some ref ->
  record_at s ref = Some r -> _tiles r = Some [t] -> Tile.same tile t = true ->
  exists s',
    unloadCacheForTile tile key true s = (Ret true, s') /\
    getCacheRecord (cache s') key = None /\
    record_at s' ref = Some (mkCacheRecord None VNull VNull false None true None) /\
    trace (world s') = trace (world s) ++ [RegDestroy (_data r) (_type r)] /\
    numCachesLoaded (cache s') = numCachesLoaded (cache s) - 1 /\
    _zombiesLoaded (cache s') = _zombiesLoaded (cache s).
Proof.
  intros Hwf Hk Hr Ht Hsame.
  destruct (sound_record_at _ _ _ _ Hwf Hk Hr) as [Hd Hl].
  assert (Hi : find_index (Tile.same tile) [t] = Some 0%nat) by (cbn; now rewrite Hsame).
  rewrite (unloadCacheForTile_detach s tile key true ref r [t] 0 Hk Hr Hd Hl Ht Hi).
  cbn [delete length Nat.eqb].
  eexists. split; [reflexivity|]. cbn [cache world].
  split.
  { unfold getCacheRecord. cbn. rewrite get_delete_eq.
    apply (wf_disjoint _ Hwf). eauto. }
  split; [unfold record_at; cbn; eapply lookup_updated; exact Hr|].
  cbn. repeat split. unfold numCachesLoaded. cbn. lia.
Qed.

Lemma unloadCacheForTile_destroys_last_witness :
  exists s',
    unloadCacheForTile (Example.tile 1 "A") "A" true Example.one_tile
    = (Ret true, s') /\
    getCacheRecord (cache s') "A" = None /\
    numCachesLoaded (cache s') = 0.
Proof.
  destruct (unloadCacheForTile_destroys_last Example.one_tile (Example.tile 1 "A")
              "A" 0%nat (Scenario.holding [Example.tile 1 "A"] Scenario.D1 0)
              (Example.tile 1 "A") one_tile_wf eq_refl eq_refl eq_refl eq_refl)
    as (s' & H1 & H2 & _ & _ & H3 & _).
  exists s'. split; [exact H1|]. split; [exact H2 | exact H3].
Defined.

(** X17.  While other tiles still use a record, [unloadCacheForTile]
    only detaches the tile, whatever the destroy flag: the cache object is
    unchanged and the record keeps payload, format and ready handle with
    one tile fewer. *)
Theorem unloadCacheForTile_shared_record_stays s tile key d ref r ts :
  well_formed s ->
  prop_get key (_cachesLoaded (cache s)) = Some ref ->
  record_at s ref = Some r -> _tiles r = Some ts ->
  existsb (Tile.same tile) ts = true -> (2 <= length ts)%nat ->
  exists s' r',
    unloadCacheForTile tile key d s = (Ret true, s') /\
    cache s' = cache s /\
    record_at s' ref = Some r' /\
    tileCount r' = (tileCount r - 1)%nat /\
    _data r' = _data r /\ _type r' = _type r /\ _promise r' = _promise r /\
    loaded r' = true /\ _destroyed r' = false /\
    trace (world s') = trace (world s).
Proof.
  intros Hwf Hk Hr Ht Hin Hlen.
  destruct (sound_record_at _ _ _ _ Hwf Hk Hr) as [Hd Hl].
  destruct (find_index_existsb _ _ Hin) as [i Hi].
  rewrite (unloadCacheForTile_detach s tile key d ref r ts i Hk Hr Hd Hl Ht Hi).
  pose proof (length_delete_lt _ _ (find_index_lt _ _ _ Hi)) as Hdel.
  replace (length (delete i ts) =? 0)%nat with false by (symmetry; apply Nat.eqb_neq; lia).
  eexists _, _. split; [reflexivity|]. cbn [cache world].
  split; [reflexivity|].
  split; [unfold record_at; cbn; eapply lookup_updated; exact Hr|].
  unfold tileCount. cbn. rewrite Ht. repeat split; auto. lia.
Qed.

Lemma unloadCacheForTile_shared_record_stays_witness :
  exists s',
    unloadCacheForTile (Example.tile 1 "A") "A" true Example.shared
    = (Ret true, s') /\
    cache s' = cache Example.shared.
Proof.
  destruct (unloadCacheForTile_shared_record_stays Example.shared
              (Example.tile 1 "A") "A" true 0%nat
              (Scenario.holding [Example.tile 1 "A"; Example.tile 2 "A"] Scenario.D1 0)
              [Example.tile 1 "A"; Example.tile 2 "A"]
              shared_wf eq_refl eq_refl eq_refl eq_refl)
    as (s' & r' & H1 & H2 & _); [cbn; lia|].
  exists s'. split; assumption.
Defined.

Lemma bind_Ret_inv {S A B} (m : M S A) (k : A -> M S B) s b s' :
  bind m k s = (Ret b, s') -> exists a s1, m s = (Ret a, s1) /\ k a s1 = (Ret b, s').
Proof.
  unfold bind. destruct (m s) as [[a|e] s1]; [eauto | discriminate].
Qed.

Lemma unloadCacheForTile_false tile key d s s' :
  unloadCacheForTile tile key d s = (Ret false, s') ->
  cache s' = cache s /\
  records (world s') = records (world s) /\
  promises (world s') = promises (world s) /\
  reactions (world s') = reactions (world s) /\
  exists logs,
    trace (world s') = trace (world s) ++ logs /\ logs <> [] /\
    forall e, In e logs -> exists l msg, e = Log l msg.
Proof.
  unfold unloadCacheForTile. intros H.
  apply bind_Ret_inv in H as (c & s1 & [= <- <-] & H).
  destruct (prop_get key (_cachesLoaded (cache s))) as [ref|].
  2:{ cbn in H. injection H as <-. cbn. repeat split.
      eexists. split; [reflexivity|]. split; [discriminate|].
      intros e [<-|[]]. eauto. }
  apply bind_Ret_inv in H as (removed & s1 & Hrm & H).
  destruct removed.
  - apply bind_Ret_inv in H as (n & s2 & _ & H).
    apply bind_Ret_inv in H as (u & s3 & _ & H). discriminate H.
  - unfold liftW in Hrm. destruct (removeTile ref tile (world s)) as [o w1] eqn:Hr.
    injection Hrm as -> <-. cbn in H. injection H as <-. cbn.
    unfold removeTile in Hr.
    apply bind_Ret_inv in Hr as (r & w2 & Hthis & Hr).
    unfold this_ in Hthis. destruct (records (world s) !! ref) as [r0|]; [|discriminate].
    injection Hthis as -> <-.
    destruct (_destroyed r).
    { injection Hr as <-. repeat split.
      eexists. split; [reflexivity|]. split; [discriminate|].
      intros e [<-|[]]. eauto. }
    destruct (_tiles r) as [ts|]; [|discriminate].
    destruct (find_index (Tile.same tile) ts).
    + apply bind_Ret_inv in Hr as (u & w3 & _ & Hr). discriminate Hr.
    + cbn in Hr. injection Hr as <-. cbn. rewrite <- app_assoc. repeat split.
      eexists. split; [reflexivity|]. split; [discriminate|].
      intros e [<-|[<-|[]]]; eauto.
Qed.

(** ** Accounting of records under unloading *)

(** What one [unloadCacheForTile] does to the cache object in a well-formed
    state. *)
Lemma unloadCacheForTile_effect tile key d s :
  well_formed s ->
  exists b s' delta,
    unloadCacheForTile tile key d s = (Ret b, s') /\ well_formed s' /\
    _tilesLoaded (cache s') = _tilesLoaded (cache s) /\
    _maxCacheItemCount (cache s') = _maxCacheItemCount (cache s) /\
    numCachesLoaded (cache s') <= numCachesLoaded (cache s) /\
    (d = false -> numCachesLoaded (cache s') = numCachesLoaded (cache s)) /\
    (d = true -> _zombiesLoaded (cache s') = _zombiesLoaded (cache s) /\
                 _zombiesLoadedCount (cache s') = _zombiesLoadedCount (cache s)) /\
    trace (world s') = trace (world s) ++ delta /\ unloaded_tiles delta = [].
Proof.
  intros Hwf.
  destruct (unloadCacheForTile_wf tile key d s Hwf) as (b & s' & Hrun & Hwf' & _).
  exists b, s'.
  assert (Hsame : forall delta, cache s' = cache s ->
            trace (world s') = trace (world s) ++ delta ->
            (forall e, In e delta -> exists l msg, e = Log l msg) ->
            exists delta,
            unloadCacheForTile tile key d s = (Ret b, s') /\ well_formed s' /\
            _tilesLoaded (cache s') = _tilesLoaded (cache s) /\
            _maxCacheItemCount (cache s') = _maxCacheItemCount (cache s) /\
            numCachesLoaded (cache s') <= numCachesLoaded (cache s) /\
            (d = false -> numCachesLoaded (cache s') = numCachesLoaded (cache s)) /\
            (d = true -> _zombiesLoaded (cache s') = _zombiesLoaded (cache s) /\
                         _zombiesLoadedCount (cache s') = _zombiesLoadedCount (cache s)) /\
            trace (world s') = trace (world s) ++ delta /\ unloaded_tiles delta = []).
  { intros delta Hc Htr Hlogs. exists delta.
    split; [exact Hrun|]. split; [exact Hwf'|]. rewrite Hc.
    split; [reflexivity|]. split; [reflexivity|]. split; [lia|].
    split; [reflexivity|]. split; [auto|]. split; [exact Htr|].
    clear -Hlogs. induction delta as [|e delta IH]; [reflexivity|].
    destruct (Hlogs e (or_introl eq_refl)) as (l & msg & ->). cbn.
    apply IH. intros e' He'. apply Hlogs. now right. }
  destruct b.
  2:{ destruct (unloadCacheForTile_false _ _ _ _ _ Hrun)
        as (Hc & _ & _ & _ & logs & Htr & _ & Hlogs).
      exact (Hsame logs Hc Htr Hlogs). }
  (* the tile was detached *)
  destruct (prop_get key (_cachesLoaded (cache s))) as [ref|] eqn:Hk.
  2:{ unfold unloadCacheForTile, bind in Hrun. cbn in Hrun. rewrite Hk in Hrun.
      discriminate Hrun. }
  destruct (sound_lookup _ _ _ Hwf (getCacheRecord_live _ _ _ Hk))
    as (r & ts & Hr & Hd & Hl & Ht).
  destruct (find_index (Tile.same tile) ts) as [i|] eqn:Hi.
  2:{ unfold unloadCacheForTile, bind in Hrun. cbn in Hrun. rewrite Hk in Hrun.
      unfold liftW, removeTile, bind in Hrun. rewrite (this_at _ _ _ Hr), Hd, Ht, Hi in Hrun.
      discriminate Hrun. }
  pose proof Hrun as Hrun0.
  rewrite (unloadCacheForTile_detach s tile key d ref r ts i Hk Hr Hd Hl Ht Hi) in Hrun.
  injection Hrun as Hs'.
  exists (if (length (delete i ts) =? 0)%nat && d then [RegDestroy (_data r) (_type r)] else []).
  split; [exact Hrun0|]. split; [exact Hwf'|]. rewrite <- Hs'.
  destruct (length (delete i ts) =? 0)%nat; [destruct d|]; cbn [cache world andb];
    unfold numCachesLoaded; cbn; rewrite ?app_nil_r;
    (split; [reflexivity|]); (split; [reflexivity|]); (split; [lia|]);
    (split; [intros; try discriminate; lia|]); (split; [intros; try discriminate; auto|]);
    split; reflexivity.
Qed.

Lemma unload_caches_effect tile d keys : forall s,
  well_formed s ->
  exists s' delta,
    unload_caches tile keys d s = (Ret tt, s') /\ well_formed s' /\
    _tilesLoaded (cache s') = _tilesLoaded (cache s) /\
    _maxCacheItemCount (cache s') = _maxCacheItemCount (cache s) /\
    numCachesLoaded (cache s') <= numCachesLoaded (cache s) /\
    (d = false -> numCachesLoaded (cache s') = numCachesLoaded (cache s)) /\
    (d = true -> _zombiesLoaded (cache s') = _zombiesLoaded (cache s) /\
                 _zombiesLoadedCount (cache s') = _zombiesLoadedCount (cache s)) /\
    trace (world s') = trace (world s) ++ delta /\ unloaded_tiles delta = [].
Proof.
  induction keys as [|key keys IH]; intros s Hwf; cbn [unload_caches].
  - exists s, []. rewrite app_nil_r.
    split; [reflexivity|]. split; [exact Hwf|]. repeat split; auto; lia.
  - destruct (unloadCacheForTile_effect tile key d s Hwf)
      as (b & s1 & d1 & Hrun & Hwf1 & H1 & H2 & H3 & H4 & H5 & H6 & H7).
    destruct (IH s1 Hwf1) as (s' & d2 & Hrun' & Hwf' & G1 & G2 & G3 & G4 & G5 & G6 & G7).
    exists s', (d1 ++ d2). unfold bind at 1. rewrite Hrun. split; [exact Hrun'|].
    split; [exact Hwf'|]. split; [congruence|]. split; [congruence|].
    split; [lia|]. split; [intros Hd; rewrite G4, H4 by exact Hd; reflexivity|].
    split; [|split].
    + intros Hd. destruct (H5 Hd) as [<- <-]. exact (G5 Hd).
    + rewrite G6, H6. now rewrite app_assoc.
    + unfold unloaded_tiles in *. now rewrite omap_app, H7, G7.
Qed.

Lemma unloadTile_effect tile d idx s :
  well_formed s ->
  exists s' logs,
    unloadTile tile d idx s = (Ret tt, s') /\ well_formed s' /\
    _tilesLoaded (cache s')
    = match idx with
      | Some i => delete i (_tilesLoaded (cache s))
      | None => _tilesLoaded (cache s)
      end /\
    numCachesLoaded (cache s') <= numCachesLoaded (cache s) /\
    (d = false -> numCachesLoaded (cache s') = numCachesLoaded (cache s)) /\
    (d = true -> _zombiesLoaded (cache s') = _zombiesLoaded (cache s)) /\
    trace (world s')
    = trace (world s) ++ logs ++
      [TileUnload (Tile.id tile);
       TileUnloaded (Tile.id tile) (TiledImage.id (Tile.tiledImage tile)) d] /\
    unloaded_tiles logs = [].
Proof.
  intros Hwf. unfold unloadTile.
  destruct (unload_caches_effect tile d (Tile._caches tile) s Hwf)
    as (s1 & delta & Hrun & Hwf1 & H1 & H2 & H3 & H4 & H5 & H6 & H7).
  unfold bind at 1. rewrite Hrun.
  exists (after (match idx with
                 | Some i => update_cache (fun c => set_tilesLoaded (delete i (_tilesLoaded c)) c)
                 | None => ret tt
                 end;;
                 liftW (emit (TileUnload (Tile.id tile)));;
                 liftW (emit (TileUnloaded (Tile.id tile)
                                (TiledImage.id (Tile.tiledImage tile)) d))) s1), delta.
  destruct idx as [i|]; cbn.
  all: split; [reflexivity|].
  all: split; [eapply wf_frame; [exact Hwf1 | ..]; reflexivity|].
  all: rewrite H1, H6, <- !app_assoc.
  all: repeat split; auto.
  all: intros Hd; now destruct (H5 Hd).
Qed.

Lemma destroy_zombies_effect zs : forall s,
  well_formed (recount s) -> _zombiesLoaded (cache s) = zs ->
  exists s',
    destroy_zombies zs s = (Ret tt, s') /\
    well_formed (recount s') /\ _zombiesLoaded (cache s') = [] /\
    _cachesLoaded (cache s') = _cachesLoaded (cache s) /\
    _cachesLoadedCount (cache s') = _cachesLoadedCount (cache s) /\
    _zombiesLoadedCount (cache s') = _zombiesLoadedCount (cache s) /\
    _tilesLoaded (cache s') = _tilesLoaded (cache s) /\
    _maxCacheItemCount (cache s') = _maxCacheItemCount (cache s) /\
    unloaded_tiles (trace (world s')) = unloaded_tiles (trace (world s)).
Proof.
  induction zs as [|[zombie z] rest IH]; intros s Hwf Hz; cbn [destroy_zombies].
  - exists s. split; [reflexivity|]. split; [exact Hwf|]. repeat split; auto.
  - assert (Hzk : prop_get zombie (_zombiesLoaded (cache (recount s))) = Some z)
      by (cbn; rewrite Hz; apply get_head_zombie).
    destruct (sound_lookup _ _ _ Hwf (getCacheRecord_zombie _ _ _ Hwf Hzk))
      as (r & ts & Hr & Hd & Hl & Ht).
    destruct (destroy_runs (world s) z r Hr (or_introl Hl))
      as (w' & r' & Hdes & Hrecs & _ & _ & Htr).
    unfold bind at 1. erewrite liftW_run by exact Hdes.
    unfold bind at 1. cbn [update_cache modify cache world].
    pose proof (wf_zombie_keys _ Hwf) as Hnd. cbn in Hnd.
    assert (Hdel : prop_delete zombie (_zombiesLoaded (cache s)) = rest)
      by (rewrite Hz; apply prop_delete_head; rewrite <- Hz; exact Hnd).
    rewrite Hdel.
    pose proof (wf_drop_zombie (recount s) zombie z r' w'
                  (Z.of_nat (length (prop_delete zombie (_zombiesLoaded (cache s)))))
                  Hwf Hzk Hrecs eq_refl) as Hwf'.
    cbn in Hwf'. rewrite Hdel in Hwf'.
    destruct (IH (mkSys (set_zombies rest (_zombiesLoadedCount (cache s)) (cache s)) w'))
      as (s' & Hrun & G1 & G2 & G3 & G4 & G5 & G6 & G7 & G8); [exact Hwf' | reflexivity |].
    exists s'. split; [exact Hrun|]. split; [exact G1|]. split; [exact G2|].
    cbn in G3, G4, G5, G6, G7, G8. repeat split; auto. congruence.
Qed.

Lemma take_delete_same {A} (l : list A) i :
  (i < length l)%nat -> take i (delete i l) = take i l /\ drop i (delete i l) = drop (S i) l.
Proof.
  intros Hi. rewrite delete_take_drop.
  assert (Hlen : length (take i l) = i) by (rewrite length_take; lia).
  split.
  - rewrite take_app_le by lia. rewrite take_take. f_equal. lia.
  - rewrite drop_app_ge by lia. rewrite Hlen, Nat.sub_diag. reflexivity.
Qed.

Lemma clear_loop_effect ti ov n : forall s,
  well_formed s -> (n <= length (_tilesLoaded (cache s)))%nat ->
  exists s',
    clear_loop ti ov n s = (Ret tt, s') /\ well_formed s' /\
    _tilesLoaded (cache s')
    = List.filter (fun t => negb (of_image ti t)) (take n (_tilesLoaded (cache s)))
      ++ drop n (_tilesLoaded (cache s)) /\
    _maxCacheItemCount (cache s') = _maxCacheItemCount (cache s) /\
    numCachesLoaded (cache s') <= numCachesLoaded (cache s) /\
    (negb (TiledImage._zombieCache ti) || ov = false ->
     numCachesLoaded (cache s') = numCachesLoaded (cache s)) /\
    (negb (TiledImage._zombieCache ti) || ov = true ->
     _zombiesLoaded (cache s') = _zombiesLoaded (cache s)) /\
    unloaded_tiles (trace (world s'))
    = unloaded_tiles (trace (world s)) ++
      map Tile.id (List.filter (fun t => of_image ti t && Tile.loaded t)
                               (rev (take n (_tilesLoaded (cache s))))).
Proof.
  induction n as [|i IH]; intros s Hwf Hn; cbn [clear_loop].
  - exists s. split; [reflexivity|]. split; [exact Hwf|].
    cbn. rewrite drop_0, app_nil_r. repeat split; auto; lia.
  - unfold bind at 1. cbn [this_cache].
    destruct (lookup_lt_is_Some_2 (_tilesLoaded (cache s)) i) as [tile Htile]; [lia|].
    rewrite Htile. unfold bind at 1.
    rewrite (take_S_r _ _ _ Htile), List.filter_app, rev_unit. cbn [List.filter].
    fold (of_image ti tile).
    destruct (of_image ti tile) eqn:Himg; cbn [andb negb].
    + destruct (take_delete_same (_tilesLoaded (cache s)) i) as [Htake Hdrop]; [lia|].
      assert (Hlen : (i <= length (delete i (_tilesLoaded (cache s))))%nat).
      { pose proof (length_delete_lt (_tilesLoaded (cache s)) i). lia. }
      destruct (Tile.loaded tile); cbn [negb].
      * destruct (unloadTile_effect tile (negb (TiledImage._zombieCache ti) || ov) (Some i) s Hwf)
          as (s1 & logs & Hrun & Hwf1 & H1 & H3 & H4 & H5 & H6 & H7).
        rewrite Hrun.
        destruct (IH s1 Hwf1) as (s' & Hrun' & Hwf' & G1 & G2 & G3 & G4 & G5 & G6);
          [rewrite H1; exact Hlen|].
        exists s'. split; [exact Hrun'|]. split; [exact Hwf'|].
        rewrite H1, Htake, Hdrop in G1. rewrite H1, Htake in G6.
        split; [rewrite G1, app_nil_r; reflexivity|].
        split.
        { rewrite G2. unfold unloadTile in Hrun.
          destruct (unload_caches_effect tile (negb (TiledImage._zombieCache ti) || ov)
                      (Tile._caches tile) s Hwf) as (s0 & d0 & Hr0 & _ & _ & Hm & _).
          unfold bind at 1 in Hrun. rewrite Hr0 in Hrun. cbn in Hrun.
          injection Hrun as <-. exact Hm. }
        split; [lia|].
        split; [intros Hd; rewrite (G4 Hd), (H4 Hd); reflexivity|].
        split; [intros Hd; rewrite (G5 Hd), (H5 Hd); reflexivity|].
        rewrite G6, H6. unfold unloaded_tiles at 1. rewrite !omap_app. cbn.
        fold (unloaded_tiles (trace (world s))). fold (unloaded_tiles logs). rewrite H7.
        cbn. rewrite <- app_assoc. reflexivity.
      * cbn [update_cache modify].
        destruct (IH (mkSys (set_tilesLoaded (delete i (_tilesLoaded (cache s))) (cache s))
                            (world s)))
          as (s' & Hrun' & Hwf' & G1 & G2 & G3 & G4 & G5 & G6);
          [eapply wf_frame; [exact Hwf | ..]; reflexivity | exact Hlen |].
        exists s'. split; [exact Hrun'|]. split; [exact Hwf'|].
        cbn [cache world _tilesLoaded set_tilesLoaded] in G1, G6.
        rewrite Htake, Hdrop in G1. rewrite Htake in G6.
        split; [rewrite G1, app_nil_r; reflexivity|].
        repeat split; auto.
    + cbn [ret].
      destruct (IH s Hwf) as (s' & Hrun' & Hwf' & G1 & G2 & G3 & G4 & G5 & G6); [lia|].
      exists s'. split; [exact Hrun'|]. split; [exact Hwf'|].
      split.
      { rewrite G1, (drop_S _ _ _ Htile), <- app_assoc. reflexivity. }
      repeat split; auto.
Qed.

Lemma clearTilesFor_effect ti s :
  well_formed s ->
  exists s',
    clearTilesFor ti s = (Ret tt, s') /\ well_formed s' /\
    _tilesLoaded (cache s')
    = List.filter (fun t => negb (of_image ti t)) (_tilesLoaded (cache s)) /\
    unloaded_tiles (trace (world s'))
    = unloaded_tiles (trace (world s)) ++
      map Tile.id (List.filter (fun t => of_image ti t && Tile.loaded t)
                               (rev (_tilesLoaded (cache s)))) /\
    _maxCacheItemCount (cache s') = _maxCacheItemCount (cache s) /\
    numCachesLoaded (cache s') <= numCachesLoaded (cache s) /\
    (TiledImage._zombieCache ti = false ->
     _zombiesLoaded (cache s') = _zombiesLoaded (cache s)) /\
    (TiledImage._zombieCache ti = true -> overflows (cache s) = false ->
     numCachesLoaded (cache s') = numCachesLoaded (cache s)).
Proof.
  intros Hwf. unfold clearTilesFor. unfold bind at 1. cbn [this_cache].
  unfold bind at 1.
  destruct (TiledImage._zombieCache ti && overflows (cache s)
            && (_zombiesLoadedCount (cache s) >? 0)) eqn:Hcond.
  - assert (Hwf0 : well_formed (recount s)).
    { eapply wf_frame; [exact Hwf | ..]; try reflexivity.
      cbn. symmetry. apply (wf_zombie_count _ Hwf). }
    destruct (destroy_zombies_effect (_zombiesLoaded (cache s)) s Hwf0 eq_refl)
      as (s1 & Hrun & Hwf1 & Hz1 & F1 & F2 & F3 & F4 & F5 & F6).
    unfold bind at 1. rewrite Hrun.
    unfold bind at 1. cbn [update_cache modify]. unfold bind at 1. cbn [this_cache ret].
    set (s2 := mkSys (set_zombies (_zombiesLoaded (cache s1)) 0 (cache s1)) (world s1)).
    assert (Hwf2 : well_formed s2).
    { eapply wf_frame; [exact Hwf1 | ..]; try reflexivity. cbn. now rewrite Hz1. }
    destruct (clear_loop_effect ti
                (_cachesLoadedCount (cache s2) >? _maxCacheItemCount (cache s2))
                (length (_tilesLoaded (cache s))) s2 Hwf2)
      as (s' & Hrun' & Hwf' & G1 & G2 & G3 & G4 & G5 & G6).
    { cbn. rewrite F4. lia. }
    exists s'. split; [exact Hrun'|]. split; [exact Hwf'|].
    cbn [s2 cache world _tilesLoaded set_zombies] in G1, G6.
    rewrite F4 in G1, G6. rewrite firstn_all, drop_all, app_nil_r in G1.
    rewrite firstn_all, F6 in G6.
    split; [exact G1|]. split; [exact G6|].
    split; [rewrite G2; cbn; exact F5|].
    apply andb_true_iff in Hcond as [Hcond Hpos].
    apply andb_true_iff in Hcond as [Hzc Hov].
    split.
    { unfold numCachesLoaded in *. cbn in G3. rewrite F2 in G3. lia. }
    split; [intros Hzc'; congruence | intros _ Hov'; congruence].
  - cbn [ret].
    destruct (clear_loop_effect ti (overflows (cache s)) (length (_tilesLoaded (cache s))) s Hwf)
      as (s' & Hrun' & Hwf' & G1 & G2 & G3 & G4 & G5 & G6); [lia|].
    exists s'. split; [exact Hrun'|]. split; [exact Hwf'|].
    rewrite firstn_all, drop_all, app_nil_r in G1. rewrite firstn_all in G6.
    split; [exact G1|]. split; [exact G6|]. split; [exact G2|]. split; [exact G3|].
    split.
    + intros Hzc. apply G5. now rewrite Hzc.
    + intros Hzc Hov. apply G4. now rewrite Hzc, Hov.
Qed.

(** ** cacheTile: accounting *)

(** The eviction pass in a well-formed state. *)
Lemma cacheTile_evict_effect cutoff s :
  well_formed s ->
  exists o s',
    cacheTile_evict cutoff s = (Ret o, s') /\ well_formed s' /\
    _tilesLoaded (cache s') = _tilesLoaded (cache s) /\
    _maxCacheItemCount (cache s') = _maxCacheItemCount (cache s) /\
    numCachesLoaded (cache s') <= numCachesLoaded (cache s) /\
    (overflows (cache s) = true -> _zombiesLoadedCount (cache s) > 0 ->
     numCachesLoaded (cache s') = numCachesLoaded (cache s) - 1) /\
    match o with
    | Some i =>
        exists victim,
          _tilesLoaded (cache s) !! i = Some victim /\
          unloaded_tiles (trace (world s'))
          = unloaded_tiles (trace (world s)) ++ [Tile.id victim]
    | None => unloaded_tiles (trace (world s')) = unloaded_tiles (trace (world s))
    end.
Proof.
  intros Hwf.
  destruct (overflows (cache s)) eqn:Hov.
  2:{ exists None, s. unfold cacheTile_evict, bind. cbn [this_cache]. rewrite Hov.
      split; [reflexivity|]. split; [exact Hwf|].
      repeat split; auto; try lia; try discriminate. }
  destruct (_zombiesLoadedCount (cache s) >? 0) eqn:Hz.
  - destruct (evict_destroys_first_zombie s cutoff Hov ltac:(lia)
                (well_formed_zombies_consistent _ Hwf))
      as (zombie & z & rest & w' & r' & Hzs & Hrun & Hrecs & Hdes & Htr).
    destruct (cacheTile_evict_wf cutoff s Hwf) as (o & s' & Hrun' & Hwf' & _).
    rewrite Hrun in Hrun'. injection Hrun' as <- <-.
    eexists None, _. split; [exact Hrun|]. split; [exact Hwf'|].
    cbn [cache world]. unfold numCachesLoaded. cbn.
    repeat split; auto; lia.
  - destruct (evict_picks_least s cutoff Hov Hz)
      as [(victim & i & Hscan & Hi & _ & _ & Hrun)|(_ & _ & Hrun)].
    + destruct (unloadTile_effect victim true None s Hwf)
        as (s1 & logs & Hrun1 & Hwf1 & H1 & H3 & _ & _ & H6 & H7).
      exists (Some i), s1. rewrite Hrun. unfold bind at 1. rewrite Hrun1.
      split; [reflexivity|]. split; [exact Hwf1|]. split; [exact H1|].
      split.
      { unfold unloadTile in Hrun1.
        destruct (unload_caches_effect victim true (Tile._caches victim) s Hwf)
          as (s0 & d0 & Hr0 & _ & _ & Hm & _).
        unfold bind at 1 in Hrun1. rewrite Hr0 in Hrun1. cbn in Hrun1.
        injection Hrun1 as <-. exact Hm. }
      split; [exact H3|]. split; [lia|].
      exists victim. split; [exact Hi|].
      rewrite H6. unfold unloaded_tiles at 1. rewrite !omap_app. cbn.
      fold (unloaded_tiles (trace (world s))). fold (unloaded_tiles logs). now rewrite H7.
    + exists None, s. split; [exact Hrun|]. split; [exact Hwf|].
      repeat split; auto; lia.
Qed.

(** The rest of [cacheTile_attach] once [cacheRecord] is known. *)
Lemma attach_tail_exact c w options ref r ts data :
  records w !! ref = Some r -> _destroyed r = false -> _tiles r = Some ts ->
  (dataType <-
     (if negb (truthy (Options.dataType options)) then
        liftW (console_error "[TileCache.cacheTile] options.dataType is newly required.");;
        liftW (emit (RegGuessType data));;
        w <- liftW get;;
        ret (guessType (convertor w) data)
      else ret (Options.dataType options));;
   liftW (addTile ref (Options.tile options) data dataType);;
   (if String.eqb (cacheKey_of options) (Tile.cacheKey (Options.tile options)) then
      liftW (emit (NeedsDraw (TiledImage.id (Tile.tiledImage (Options.tile options)))))
    else ret tt);;
   ret ref) (mkSys c w)
  = (Ret ref,
     mkSys c
       (logged (if String.eqb (cacheKey_of options) (Tile.cacheKey (Options.tile options))
                then [NeedsDraw (TiledImage.id (Tile.tiledImage (Options.tile options)))]
                else [])
          (after (addTile ref (Options.tile options) data
                          (format_of options (convertor w) data))
                 (logged (if negb (truthy (Options.dataType options)) then
                            [Log LError
                               "[TileCache.cacheTile] options.dataType is newly required.";
                             RegGuessType data]
                          else []) w)))).
Proof.
  intros Hr Hd Ht.
  set (d2 := if negb (truthy (Options.dataType options)) then
               [Log LError "[TileCache.cacheTile] options.dataType is newly required.";
                RegGuessType data]
             else []).
  destruct (addTile_attaches (logged d2 w) ref r ts (Options.tile options) data
              (format_of options (convertor w) data))
    as (w' & r' & ts' & Hadd & _); auto.
  unfold after. rewrite Hadd. cbn [snd].
  unfold bind at 1.
  assert (Hdt : (if negb (truthy (Options.dataType options))
       then
        liftW
          (console_error "[TileCache.cacheTile] options.dataType is newly required.");;
        liftW (emit (RegGuessType data));;
        w0 <- liftW get;;
        ret (guessType (convertor w0) data)
       else ret (Options.dataType options))
      (mkSys c w)
      = (Ret (format_of options (convertor w) data), mkSys c (logged d2 w))).
  { subst d2. unfold format_of. destruct (negb (truthy (Options.dataType options))).
    - cbn. unfold logged, set_trace. cbn. now rewrite <- !app_assoc.
    - cbn. now rewrite logged_nil. }
  rewrite Hdt. unfold bind at 1. erewrite liftW_run by exact Hadd.
  unfold bind at 1.
  destruct (String.eqb (cacheKey_of options) (Tile.cacheKey (Options.tile options))).
  - reflexivity.
  - cbn. now rewrite logged_nil.
Qed.

Lemma cacheTile_attach_found_exact s options ref r ts :
  getCacheRecord (cache s) (cacheKey_of options) = Some ref ->
  record_at s ref = Some r -> _destroyed r = false -> _tiles r = Some ts ->
  cacheTile_attach options s
  = (Ret ref,
     mkSys (cache s)
       (logged (draw_events options)
          (after (addTile ref (Options.tile options) (Options.data options)
                          (format_of options (convertor (world s)) (Options.data options)))
                 (logged (format_events options (Options.data options))
                         (logged (key_events options) (world s)))))).
Proof.
  intros Hfound Hr Hd Ht. unfold record_at in Hr.
  unfold cacheTile_attach. unfold bind at 1. rewrite liftW_assert.
  unfold bind at 1. cbn [this_cache cache world fst snd]. rewrite Hfound.
  unfold bind at 1. unfold bind at 1. unfold bind at 1.
  erewrite liftW_run by (apply this_at; cbn; exact Hr).
  cbn [cache world fst snd]. rewrite Hd. cbn [ret fst snd cache world].
  apply (attach_tail_exact (cache s) (logged (key_events options) (world s)) options ref r ts
           (Options.data options)); auto.
Qed.

Lemma cacheTile_attach_new_exact s options :
  getCacheRecord (cache s) (cacheKey_of options) = None ->
  cacheTile_attach options s
  = (Ret (length (records (world s))),
     mkSys (set_caches (prop_set (cacheKey_of options) (length (records (world s)))
                                 (_cachesLoaded (cache s)))
                       (_cachesLoadedCount (cache s) + 1) (cache s))
       (logged (draw_events options)
          (after (addTile (length (records (world s))) (Options.tile options)
                          (payload_of options)
                          (format_of options (convertor (world s)) (payload_of options)))
                 (logged (format_events options (payload_of options))
                    (set_records
                       (records (world s) ++
                        [mkCacheRecord (Some []) VNull VNull false None false None])
                       (logged (key_events options ++ data_events options) (world s))))))).
Proof.
  intros Hnone.
  unfold cacheTile_attach. unfold bind at 1. rewrite liftW_assert.
  fold (key_events options).
  unfold bind at 1. cbn [this_cache cache world fst snd]. rewrite Hnone.
  unfold bind at 1. unfold bind at 1.
  set (d2 := if strict_eq (Options.data options) VUndefined then
               [Log LError "[TileCache.cacheTile] options.image was renamed to options.data."]
             else []).
  assert (Hdata :
    (if strict_eq (Options.data options) VUndefined then
       liftW (console_error "[TileCache.cacheTile] options.image was renamed to options.data.");;
       ret (Options.image options)
     else ret (Options.data options))
      (mkSys (cache s) (logged (key_events options) (world s)))
    = (Ret (payload_of options),
       mkSys (cache s) (logged (key_events options ++ d2) (world s)))).
  { subst d2. unfold payload_of. destruct (strict_eq (Options.data options) VUndefined); cbn.
    - now rewrite logged_logged.
    - now rewrite app_nil_r. }
  rewrite Hdata. unfold bind at 1. rewrite liftW_assert. cbn [cache world].
  rewrite logged_logged.
  replace ((key_events options ++ d2) ++
           (if negb (strict_eq (payload_of options) VUndefined) &&
               negb (strict_eq (payload_of options) VNull) &&
               negb (strict_eq (payload_of options) (VBool false))
            then [] else [Log LAssert data_required]))
    with (key_events options ++ data_events options)
    by (unfold data_events; fold d2; now rewrite app_assoc).
  unfold bind at 1. erewrite liftW_run by apply new_CacheRecord_fresh.
  cbn [cache world]. unfold bind at 1. cbn [update_cache modify cache world].
  cbn [ret fst snd].
  refine (attach_tail_exact
            (set_caches (prop_set (cacheKey_of options) (length (records (world s)))
                                  (_cachesLoaded (cache s)))
                        (_cachesLoadedCount (cache s) + 1) (cache s))
            (set_records
               (records (world s) ++
                [mkCacheRecord (Some []) VNull VNull false None false None])
               (logged (key_events options ++ data_events options) (world s)))
            options (length (records (world s)))
            (mkCacheRecord (Some []) VNull VNull false None false None) []
            (payload_of options) _ eq_refl eq_refl).
  cbn. rewrite lookup_app_r by lia. now rewrite Nat.sub_diag.
Qed.

Lemma attach_events_no_unload options data :
  unloaded_tiles (key_events options) = [] /\
  unloaded_tiles (data_events options) = [] /\
  unloaded_tiles (format_events options data) = [] /\
  unloaded_tiles (draw_events options) = [].
Proof.
  unfold key_events, data_events, format_events, draw_events, unloaded_tiles.
  rewrite omap_app.
  repeat split;
    repeat match goal with |- context [if ?b then _ else _] => destruct b end; reflexivity.
Qed.

(** [addTile] on a record that is not loaded: the record takes the data. *)
Lemma addTile_not_loaded w this r ts tile d ty :
  records w !! this = Some r -> _destroyed r = false -> loaded r = false ->
  _tiles r = Some ts -> existsb (Tile.same tile) ts = false ->
  addTile this tile d ty w
  = (Ret tt,
     set_records
       (<[this := mkCacheRecord (Some (ts ++ [tile])) d ty true (Some (length (promises w)))
                    false (_conversionJobQueue r)]> (records w))
       (set_promises (promises w ++ [Fulfilled d]) w)).
Proof.
  intros Hr Hd Hl Ht Hn. unfold addTile, bind.
  rewrite (this_at _ _ _ Hr), Hd, Ht, Hn, Hl. cbn.
  unfold bind, promise_resolve, new_promise. cbn.
  erewrite update_at by (cbn; exact Hr). cbn.
  unfold push_tile, bind.
  erewrite this_at by (cbn; eapply lookup_updated; exact Hr). cbn. rewrite Ht.
  erewrite update_at by (cbn; eapply lookup_updated; exact Hr). cbn.
  rewrite list_insert_insert_eq.
  unfold set_tiles, set_loaded, set_data, set_promise, set_type. cbn.
  now rewrite Hd.
Qed.


(** The attaching part in a well-formed state: at most one record more, the
    zombie count as it was, and no tile unloaded. *)
Lemma cacheTile_attach_effect options s :
  well_formed s ->
  exists ref s1,
    cacheTile_attach options s = (Ret ref, s1) /\ well_formed s1 /\
    _tilesLoaded (cache s1) = _tilesLoaded (cache s) /\
    _maxCacheItemCount (cache s1) = _maxCacheItemCount (cache s) /\
    _zombiesLoadedCount (cache s1) = _zombiesLoadedCount (cache s) /\
    numCachesLoaded (cache s1)
    = numCachesLoaded (cache s) +
      match getCacheRecord (cache s) (cacheKey_of options) with
      | Some _ => 0
      | None => 1
      end /\
    unloaded_tiles (trace (world s1)) = unloaded_tiles (trace (world s)).
Proof.
  intros Hwf.
  destruct (cacheTile_attach_wf options s Hwf) as (ref & s1 & Hatt & Hwf1 & Htl & _).
  exists ref, s1. split; [exact Hatt|]. split; [exact Hwf1|]. split; [exact Htl|].
  destruct (attach_events_no_unload options (Options.data options)) as (E1 & _ & E3 & E4).
  destruct (attach_events_no_unload options (payload_of options)) as (_ & E2 & E3' & _).
  destruct (getCacheRecord (cache s) (cacheKey_of options)) as [ref0|] eqn:Hk.
  - destruct (sound_lookup _ _ _ Hwf Hk) as (r & ts & Hr & Hd & Hl & Ht).
    rewrite (cacheTile_attach_found_exact s options ref0 r ts Hk Hr Hd Ht) in Hatt.
    injection Hatt as <- <-. cbn [cache world].
    destruct (addTile_attaches
                (logged (format_events options (Options.data options))
                        (logged (key_events options) (world s)))
                ref0 r ts (Options.tile options) (Options.data options)
                (format_of options (convertor (world s)) (Options.data options)))
      as (w' & r' & ts' & Hadd & _ & _ & _ & _ & _ & Htr & _); auto.
    unfold after. rewrite Hadd. cbn [snd].
    repeat split; try lia.
    rewrite unloaded_logged, E4, app_nil_r. unfold unloaded_tiles at 1. rewrite Htr.
    fold (unloaded_tiles (trace (logged (format_events options (Options.data options))
                                   (logged (key_events options) (world s))))).
    now rewrite !unloaded_logged, E1, E3, !app_nil_r.
  - rewrite (cacheTile_attach_new_exact s options Hk) in Hatt.
    injection Hatt as <- <-. cbn [cache world].
    set (fresh := mkCacheRecord (Some []) VNull VNull false None false None).
    set (w0 := logged (format_events options (payload_of options))
                 (set_records (records (world s) ++ [fresh])
                    (logged (key_events options ++ data_events options) (world s)))).
    assert (Hfresh : records w0 !! length (records (world s)) = Some fresh).
    { subst w0. cbn. rewrite lookup_app_r by lia. now rewrite Nat.sub_diag. }
    unfold after.
    rewrite (addTile_not_loaded w0 _ fresh [] (Options.tile options) (payload_of options)
               (format_of options (convertor (world s)) (payload_of options))
               Hfresh eq_refl eq_refl eq_refl eq_refl).
    cbn [snd]. unfold numCachesLoaded. cbn.
    repeat split; try lia.
    unfold unloaded_tiles in *. rewrite !omap_app, E1, E2, E3', E4, !app_nil_r.
    reflexivity.
Qed.

(** The three parts of [cacheTile] in sequence, with the tile list the last
    part leaves. *)
Lemma cacheTile_exact options s ref s1 o s2 :
  cacheTile_attach options s = (Ret ref, s1) ->
  cacheTile_evict (default 0 (Options.cutoff options)) s1 = (Ret o, s2) ->
  cacheTile options s
  = (Ret ref,
     mkSys (set_tilesLoaded
              (if (Tile.getCacheSize (Options.tile options) =? 0)%nat then
                 array_set (default (length (_tilesLoaded (cache s))) o) (Options.tile options)
                           (_tilesLoaded (cache s2))
               else
                 match o with
                 | Some i => delete i (_tilesLoaded (cache s2))
                 | None => _tilesLoaded (cache s2)
                 end)
              (cache s2))
           (world s2)).
Proof.
  intros Hatt Hev. unfold cacheTile. unfold bind at 1. cbn [this_cache].
  unfold bind at 1. rewrite Hatt. unfold bind at 1. rewrite Hev.
  unfold bind at 1. unfold cacheTile_record.
  destruct (Tile.getCacheSize (Options.tile options) =? 0)%nat; [|destruct o]; cbn;
    try reflexivity.
  now destruct s2 as [[] ?].
Qed.

Lemma cacheTile_effect options s :
  well_formed s ->
  exists ref o s',
    cacheTile options s = (Ret ref, s') /\ well_formed s' /\
    _maxCacheItemCount (cache s') = _maxCacheItemCount (cache s) /\
    numCachesLoaded (cache s') <= numCachesLoaded (cache s) + 1 /\
    (is_Some (getCacheRecord (cache s) (cacheKey_of options)) ->
     numCachesLoaded (cache s') <= numCachesLoaded (cache s)) /\
    (numCachesLoaded (cache s) <= _maxCacheItemCount (cache s) ->
     _zombiesLoadedCount (cache s) > 0 ->
     numCachesLoaded (cache s') <= _maxCacheItemCount (cache s)) /\
    _tilesLoaded (cache s')
    = (if (Tile.getCacheSize (Options.tile options) =? 0)%nat then
         match o with
         | Some i => <[i := Options.tile options]> (_tilesLoaded (cache s))
         | None => _tilesLoaded (cache s) ++ [Options.tile options]
         end
       else
         match o with
         | Some i => delete i (_tilesLoaded (cache s))
         | None => _tilesLoaded (cache s)
         end) /\
    match o with
    | Some i =>
        exists victim,
          _tilesLoaded (cache s) !! i = Some victim /\
          unloaded_tiles (trace (world s'))
          = unloaded_tiles (trace (world s)) ++ [Tile.id victim]
    | None => unloaded_tiles (trace (world s')) = unloaded_tiles (trace (world s))
    end.
Proof.
  intros Hwf.
  destruct (cacheTile_attach_effect options s Hwf)
    as (ref & s1 & Hatt & Hwf1 & A1 & A2 & A3 & A4 & A5).
  destruct (cacheTile_evict_effect (default 0 (Options.cutoff options)) s1 Hwf1)
    as (o & s2 & Hev & Hwf2 & B1 & B2 & B3 & B4 & B5).
  exists ref, o. eexists. split; [exact (cacheTile_exact _ _ _ _ _ _ Hatt Hev)|].
  split; [eapply wf_frame; [exact Hwf2 | ..]; reflexivity|].
  cbn [cache world _maxCacheItemCount set_tilesLoaded _tilesLoaded].
  split; [congruence|].
  assert (Hnum : numCachesLoaded
                   (set_tilesLoaded
                      (if (Tile.getCacheSize (Options.tile options) =? 0)%nat then
                         array_set (default (length (_tilesLoaded (cache s))) o)
                                   (Options.tile options) (_tilesLoaded (cache s2))
                       else
                         match o with
                         | Some i => delete i (_tilesLoaded (cache s2))
                         | None => _tilesLoaded (cache s2)
                         end)
                      (cache s2))
                 = numCachesLoaded (cache s2)) by reflexivity.
  rewrite Hnum.
  split; [destruct (getCacheRecord (cache s) (cacheKey_of options)); lia|].
  split.
  { intros [x Hx]. rewrite Hx in A4. lia. }
  split.
  { intros Hcap Hz.
    destruct (overflows (cache s1)) eqn:Hov.
    - rewrite (B4 eq_refl) by lia.
      destruct (getCacheRecord (cache s) (cacheKey_of options)); lia.
    - unfold overflows, numCachesLoaded in *. lia. }
  rewrite B1, A1. rewrite A5, A1 in B5. split; [|exact B5].
  destruct (Tile.getCacheSize (Options.tile options) =? 0)%nat; [|reflexivity].
  destruct o as [i|]; cbn [default]; unfold array_set.
  - destruct B5 as (victim & Hv & _).
    apply lookup_lt_Some in Hv. apply Nat.ltb_lt in Hv. unfold id. now rewrite Hv.
  - now rewrite Nat.ltb_irrefl.
Qed.

(** ** What the cache operations keep *)

(** X18.  When [unloadCacheForTile] returns false (no live record under
    the key, or the tile is not attached to it) it has only logged: the
    cache object, the records, the promises and the reactions are as
    before. *)
Theorem unloadCacheForTile_false_changes_nothing tile key d s s' :
  unloadCacheForTile tile key d s = (Ret false, s') ->
  cache s' = cache s /\
  records (world s') = records (world s) /\
  promises (world s') = promises (world s) /\
  reactions (world s') = reactions (world s) /\
  exists logs,
    trace (world s') = trace (world s) ++ logs /\ logs <> [] /\
    forall e, In e logs -> exists l msg, e = Log l msg.
Proof. apply unloadCacheForTile_false. Qed.

Lemma unloadCacheForTile_false_changes_nothing_witness :
  cache (after (unloadCacheForTile (Scenario.tile 9 "Q" 2 10 ["Q"]) "Q" true) Example.one_tile)
  = cache Example.one_tile.
Proof.
  apply (unloadCacheForTile_false_changes_nothing (Scenario.tile 9 "Q" 2 10 ["Q"]) "Q" true
           Example.one_tile).
  reflexivity.
Defined.

(** X19.  In a well-formed cache (every reachable one is) [unloadTile]
    returns and keeps the invariant; it removes exactly the slot
    [deleteAtIndex] from the tile list, or none; it never increases the
    number of cached records, keeps it exactly when [destroy] is false and
    leaves the zombie map alone when [destroy] is true; and it ends with
    [tile.unload()] and one tile-unloaded event carrying the destroy
    flag. *)
Theorem unloadTile_never_adds_records tile d idx s :
  well_formed s ->
  exists s' logs,
    unloadTile tile d idx s = (Ret tt, s') /\ well_formed s' /\
    _tilesLoaded (cache s')
    = match idx with
      | Some i => delete i (_tilesLoaded (cache s))
      | None => _tilesLoaded (cache s)
      end /\
    numCachesLoaded (cache s') <= numCachesLoaded (cache s) /\
    (d = false -> numCachesLoaded (cache s') = numCachesLoaded (cache s)) /\
    (d = true -> _zombiesLoaded (cache s') = _zombiesLoaded (cache s)) /\
    trace (world s')
    = trace (world s) ++ logs ++
      [TileUnload (Tile.id tile);
       TileUnloaded (Tile.id tile) (TiledImage.id (Tile.tiledImage tile)) d] /\
    unloaded_tiles logs = [].
Proof. apply unloadTile_effect. Qed.

Lemma unloadTile_never_adds_records_witness :
  exists s',
    unloadTile (Example.tile 1 "A") false (Some 0%nat) Example.one_tile
    = (Ret tt, s') /\
    _tilesLoaded (cache s') = [] /\
    numCachesLoaded (cache s') = 1.
Proof.
  destruct (unloadTile_never_adds_records (Example.tile 1 "A") false (Some 0%nat)
              Example.one_tile one_tile_wf)
    as (s' & logs & H1 & _ & H2 & _ & H3 & _).
  exists s'. split; [exact H1|]. split; [exact H2|]. exact (H3 eq_refl).
Defined.

(** X20.  In a well-formed cache [clearTilesFor(tiledImage)] returns and
    keeps the invariant; afterwards the tile list holds exactly the tiles of
    the other images, in their old order, and one tile-unloaded event was
    raised for each loaded tile of the image, last slot first (tiles that
    are not loaded are dropped silently). *)
Theorem clearTilesFor_removes_the_image_tiles ti s :
  well_formed s ->
  exists s',
    clearTilesFor ti s = (Ret tt, s') /\ well_formed s' /\
    _tilesLoaded (cache s')
    = List.filter (fun t => negb (of_image ti t)) (_tilesLoaded (cache s)) /\
    unloaded_tiles (trace (world s'))
    = unloaded_tiles (trace (world s)) ++
      map Tile.id (List.filter (fun t => of_image ti t && Tile.loaded t)
                               (rev (_tilesLoaded (cache s)))).
Proof.
  intros Hwf.
  destruct (clearTilesFor_effect ti s Hwf) as (s' & H1 & H2 & H3 & H4 & _).
  exists s'. repeat (split; [assumption|]). assumption.
Qed.

Lemma clearTilesFor_removes_the_image_tiles_witness :
  exists s',
    clearTilesFor Scenario.image0 Example.shared = (Ret tt, s') /\
    _tilesLoaded (cache s') = [] /\
    unloaded_tiles (trace (world s')) = [2%nat; 1%nat].
Proof.
  destruct (clearTilesFor_removes_the_image_tiles Scenario.image0 Example.shared shared_wf)
    as (s' & H1 & _ & H2 & H3).
  exists s'. split; [exact H1|]. split; [exact H2 | exact H3].
Defined.

(** X21.  [clearTilesFor] never increases the number of cached records.
    For an image without zombie cache it leaves the zombie map as it was;
    for an image with zombie cache, in a cache that does not overflow, it
    keeps every record (the number of cached records is unchanged). *)
Theorem clearTilesFor_keeps_or_frees_records ti s :
  well_formed s ->
  exists s',
    clearTilesFor ti s = (Ret tt, s') /\
    _maxCacheItemCount (cache s') = _maxCacheItemCount (cache s) /\
    numCachesLoaded (cache s') <= numCachesLoaded (cache s) /\
    (TiledImage._zombieCache ti = false ->
     _zombiesLoaded (cache s') = _zombiesLoaded (cache s)) /\
    (TiledImage._zombieCache ti = true -> overflows (cache s) = false ->
     numCachesLoaded (cache s') = numCachesLoaded (cache s)).
Proof.
  intros Hwf.
  destruct (clearTilesFor_effect ti s Hwf) as (s' & H1 & _ & _ & _ & H5 & H6 & H7 & H8).
  exists s'. repeat (split; [assumption|]). assumption.
Qed.

Lemma clearTilesFor_keeps_or_frees_records_witness :
  exists s',
    clearTilesFor Scenario.image0 Example.shared = (Ret tt, s') /\
    numCachesLoaded (cache s') = 1 /\
    numCachesLoaded (cache (after (clearTilesFor (TiledImage.mk 0 false)) Example.shared)) = 0.
Proof.
  destruct (clearTilesFor_keeps_or_frees_records Scenario.image0 Example.shared shared_wf)
    as (s' & H1 & _ & _ & _ & H2).
  exists s'. split; [exact H1|]. split; [exact (H2 eq_refl eq_refl) | reflexivity].
Defined.

(** X23.  In a well-formed cache [cacheTile] returns, keeps the invariant
    and the capacity, and adds at most one cached record, none when the key
    already has one.  When the cache was within capacity and holds a zombie,
    it is within capacity afterwards. *)
Theorem cacheTile_adds_at_most_one_record options s :
  well_formed s ->
  exists ref s',
    cacheTile options s = (Ret ref, s') /\ well_formed s' /\
    _maxCacheItemCount (cache s') = _maxCacheItemCount (cache s) /\
    numCachesLoaded (cache s') <= numCachesLoaded (cache s) + 1 /\
    (is_Some (getCacheRecord (cache s) (cacheKey_of options)) ->
     numCachesLoaded (cache s') <= numCachesLoaded (cache s)) /\
    (numCachesLoaded (cache s) <= _maxCacheItemCount (cache s) ->
     _zombiesLoadedCount (cache s) > 0 ->
     numCachesLoaded (cache s') <= _maxCacheItemCount (cache s)).
Proof.
  intros Hwf.
  destruct (cacheTile_effect options s Hwf) as (ref & o & s' & H1 & H2 & H3 & H4 & H5 & H6 & _).
  exists ref, s'. repeat (split; [assumption|]). assumption.
Qed.

Lemma cacheTile_adds_at_most_one_record_witness :
  exists ref s',
    cacheTile (Scenario.options (Scenario.tile 3 "B" 2 10 []) Scenario.D3) Scenario.zombie_A
    = (Ret ref, s') /\
    numCachesLoaded (cache s') <= 3.
Proof.
  destruct (cacheTile_adds_at_most_one_record
              (Scenario.options (Scenario.tile 3 "B" 2 10 []) Scenario.D3)
              Scenario.zombie_A zombie_A_wf)
    as (ref & s' & H1 & _ & _ & _ & _ & H2).
  exists ref, s'. split; [exact H1|]. apply H2; vm_compute; [discriminate | reflexivity].
Defined.

(** X24.  [cacheTile] changes the tile list in one place.  With an evicted
    victim at slot [i], a tile whose cache size is 0 takes over slot [i] and
    any other tile has slot [i] removed; without eviction the tile is
    appended when its cache size is 0 and the list is unchanged otherwise.
    The tile-unloaded event of the call, if any, is for the tile that was at
    slot [i]. *)
Theorem cacheTile_changes_one_slot options s :
  well_formed s ->
  exists ref o s',
    cacheTile options s = (Ret ref, s') /\
    _tilesLoaded (cache s')
    = (if (Tile.getCacheSize (Options.tile options) =? 0)%nat then
         match o with
         | Some i => <[i := Options.tile options]> (_tilesLoaded (cache s))
         | None => _tilesLoaded (cache s) ++ [Options.tile options]
         end
       else
         match o with
         | Some i => delete i (_tilesLoaded (cache s))
         | None => _tilesLoaded (cache s)
         end) /\
    match o with
    | Some i =>
        exists victim,
          _tilesLoaded (cache s) !! i = Some victim /\
          unloaded_tiles (trace (world s'))
          = unloaded_tiles (trace (world s)) ++ [Tile.id victim]
    | None => unloaded_tiles (trace (world s')) = unloaded_tiles (trace (world s))
    end.
Proof.
  intros Hwf.
  destruct (cacheTile_effect options s Hwf) as (ref & o & s' & H1 & _ & _ & _ & _ & _ & H7 & H8).
  exists ref, o, s'. repeat (split; [assumption|]). assumption.
Qed.

Lemma cacheTile_changes_one_slot_witness :
  exists ref s',
    cacheTile (Scenario.options (Scenario.tile 2 "B" 2 10 []) Scenario.D2) Example.one_tile
    = (Ret ref, s') /\
    map Tile.id (_tilesLoaded (cache s')) = [1%nat; 2%nat].
Proof.
  destruct (cacheTile_changes_one_slot
              (Scenario.options (Scenario.tile 2 "B" 2 10 []) Scenario.D2)
              Example.one_tile one_tile_wf)
    as (ref & o & s' & H1 & H2 & H3).
  exists ref, s'. split; [exact H1|].
  assert (Hs' : s' = after (cacheTile (Scenario.options (Scenario.tile 2 "B" 2 10 [])
                                          Scenario.D2)) Example.one_tile)
    by (unfold after; now rewrite H1).
  rewrite Hs'. reflexivity.
Defined.

(** X25.  In every state the cache operations reach from a new cache,
    [numCachesLoaded()] is the number of records in the live map plus the
    number in the zombie map; the keys of each map are distinct and no key
    is in both. *)
Theorem reachable_counts_agree s :
  reachable s ->
  numCachesLoaded (cache s)
  = Z.of_nat (length (_cachesLoaded (cache s)) + length (_zombiesLoaded (cache s))) /\
  NoDup (map fst (_cachesLoaded (cache s))) /\
  NoDup (map fst (_zombiesLoaded (cache s))) /\
  (forall k, is_Some (prop_get k (_cachesLoaded (cache s))) ->
             prop_get k (_zombiesLoaded (cache s)) = None).
Proof.
  intros Hwf%reachable_well_formed.
  split; [|split; [apply (wf_live_keys _ Hwf) | split;
                   [apply (wf_zombie_keys _ Hwf) | apply (wf_disjoint _ Hwf)]]].
  unfold numCachesLoaded. rewrite (wf_live_count _ Hwf), (wf_zombie_count _ Hwf). lia.
Qed.

Lemma reachable_counts_agree_witness :
  numCachesLoaded (cache Scenario.zombie_A)
  = Z.of_nat (length (_cachesLoaded (cache Scenario.zombie_A))
              + length (_zombiesLoaded (cache Scenario.zombie_A))).
Proof.
  apply (reachable_counts_agree Scenario.zombie_A).
  apply after_run_ops_reachable. reflexivity.
Defined.

(** X26.  In every reachable state a record found by [getCacheRecord] is
    not destroyed, is loaded and has a tile list, and no other key leads to
    the same record. *)
Theorem reachable_records_are_sound s k ref :
  reachable s -> getCacheRecord (cache s) k = Some ref ->
  (exists r, record_at s ref = Some r /\
             _destroyed r = false /\ loaded r = true /\ is_Some (_tiles r)) /\
  (forall k', getCacheRecord (cache s) k' = Some ref -> k' = k).
Proof.
  intros Hwf%reachable_well_formed Hk. split.
  - destruct (wf_sound _ Hwf k ref Hk) as (r & Hr & Hd & Hl & Ht). eauto.
  - intros k' Hk'. exact (wf_unshared _ Hwf k' k ref Hk' Hk).
Qed.

Lemma reachable_records_are_sound_witness :
  exists r, record_at Scenario.zombie_A 0 = Some r /\ _destroyed r = false /\ loaded r = true.
Proof.
  destruct (reachable_records_are_sound Scenario.zombie_A "A" 0%nat) as [(r & H1 & H2 & H3 & _) _].
  - apply after_run_ops_reachable. reflexivity.
  - reflexivity.
  - exists r. auto.
Defined.

